(** * ALONEA contracts: token ledger, tiered staking and governance

    A shallow embedding of the three Solidity contracts of the repository
    (ALOToken, ALOStaking, ALOGovernance) and the properties of the
    specification that concern them.

    Conventions.
    - [uint256] is [N]; checked arithmetic (Solidity 0.8) returns [Err Panic]
      where the EVM reverts with an arithmetic panic, [unchecked] blocks wrap
      modulo [2^256].
    - [address] is [N], [address(0)] is [0].
    - A [mapping] is a [gmap] read with the default value of Solidity.
    - An external call is a function from the pre-state to [result State]:
      [Err] is a revert (the whole transaction is rolled back, so the
      pre-state stays in force), [Ok] carries the post-state.
    - [msg.sender], [block.timestamp] and [block.number] are explicit
      arguments.
    - Events are not modelled. The [nonReentrant] modifier has no effect
      here: the only external calls go to the token, which calls nobody
      back. *)

From stdpp Require Import gmap strings list fin_maps functions relations.
From Stdlib Require Import NArith Lia.

Open Scope N_scope.

(** ** EVM arithmetic and the revert monad *)
Module Evm.

Definition address := N.

Definition MAX_UINT256 : N :=
  Eval vm_compute in (2 ^ 256 - 1).

Definition WORD : N :=
  Eval vm_compute in (2 ^ 256).

Inductive error :=
| Revert (reason : string)      (* require(cond, reason) *)
| Panic                         (* checked arithmetic, division by zero *)
| CustomError (name : string).  (* revert Name(...) of the base contracts *)

Inductive result (A : Type) :=
| Ok (a : A)
| Err (e : error).
Arguments Ok {A} a.
Arguments Err {A} e.

Definition bind {A B} (m : result A) (f : A -> result B) : result B :=
  match m with
  | Ok a => f a
  | Err e => Err e
  end.

Definition require (cond : bool) (reason : string) : result unit :=
  if cond then Ok tt else Err (Revert reason).

Definition add (a b : N) : result N :=
  if a + b <=? MAX_UINT256 then Ok (a + b) else Err Panic.

Definition sub (a b : N) : result N :=
  if b <=? a then Ok (a - b) else Err Panic.

Definition mul (a b : N) : result N :=
  if a * b <=? MAX_UINT256 then Ok (a * b) else Err Panic.

Definition div (a b : N) : result N :=
  if b =? 0 then Err Panic else Ok (a / b).

Definition unchecked_add (a b : N) : N := (a + b) mod WORD.

Definition unchecked_sub (a b : N) : N := (a + WORD - b mod WORD) mod WORD.

Definition is_Ok {A} (r : result A) : Prop := exists a, r = Ok a.
Definition is_Err {A} (r : result A) : Prop := exists e, r = Err e.

(** Sum of the values of a uint256-valued mapping. *)
Definition sum_map (m : gmap address N) : N :=
  map_fold (fun _ v acc => v + acc) 0 m.

End Evm.

Export Evm.

Notation "'let*' x ':=' m 'in' k" := (Evm.bind m (fun x => k))
(at level 10, x name, m at level 100, k at level 200).
Notation "'do*' m 'in' k" := (Evm.bind m (fun _ => k))
(at level 10, m at level 100, k at level 200).

(** ** ALOToken *)
Module ALOToken.

Definition BUYBACK_FEE : N := 100.
Definition LIQUIDITY_FEE : N := 50.
Definition TREASURY_FEE : N := 50.
Definition TOTAL_FEE : N := BUYBACK_FEE + LIQUIDITY_FEE + TREASURY_FEE.
Definition FEE_DENOMINATOR : N := 10000.

(** ERC20.decimals() of the base contract. *)
Definition decimals : N := 18.

Definition INITIAL_SUPPLY : N :=
  Eval vm_compute in (100000000 * 10 ^ decimals).

Record State := mkState {
  _balances : gmap address N;
  _allowances : gmap (address * address) N;
  _totalSupply : N;
  _owner : address;
  buybackWallet : address;
  liquidityWallet : address;
  treasuryWallet : address;
  totalBurned : N;
  totalFees : N;
  isExcludedFromFee : gmap address bool;
}.

Definition balanceOf (st : State) (account : address) : N :=
  default 0 (_balances st !! account).

Definition allowance (st : State) (owner spender : address) : N :=
  default 0 (_allowances st !! (owner, spender)).

Definition totalSupply (st : State) : N := _totalSupply st.

Definition excluded (st : State) (account : address) : bool :=
  default false (isExcludedFromFee st !! account).

Definition set_balance (st : State) (a : address) (v : N) : State :=
  mkState (<[a:=v]> (_balances st)) (_allowances st) (_totalSupply st)
    (_owner st) (buybackWallet st) (liquidityWallet st) (treasuryWallet st)
    (totalBurned st) (totalFees st) (isExcludedFromFee st).

Definition set_allowance (st : State) (o s : address) (v : N) : State :=
  mkState (_balances st) (<[(o, s):=v]> (_allowances st)) (_totalSupply st)
    (_owner st) (buybackWallet st) (liquidityWallet st) (treasuryWallet st)
    (totalBurned st) (totalFees st) (isExcludedFromFee st).

Definition set_totalSupply (st : State) (v : N) : State :=
  mkState (_balances st) (_allowances st) v
    (_owner st) (buybackWallet st) (liquidityWallet st) (treasuryWallet st)
    (totalBurned st) (totalFees st) (isExcludedFromFee st).

Definition set_owner (st : State) (a : address) : State :=
  mkState (_balances st) (_allowances st) (_totalSupply st)
    a (buybackWallet st) (liquidityWallet st) (treasuryWallet st)
    (totalBurned st) (totalFees st) (isExcludedFromFee st).

Definition set_buybackWallet (st : State) (a : address) : State :=
  mkState (_balances st) (_allowances st) (_totalSupply st)
    (_owner st) a (liquidityWallet st) (treasuryWallet st)
    (totalBurned st) (totalFees st) (isExcludedFromFee st).

Definition set_liquidityWallet (st : State) (a : address) : State :=
  mkState (_balances st) (_allowances st) (_totalSupply st)
    (_owner st) (buybackWallet st) a (treasuryWallet st)
    (totalBurned st) (totalFees st) (isExcludedFromFee st).

Definition set_treasuryWallet (st : State) (a : address) : State :=
  mkState (_balances st) (_allowances st) (_totalSupply st)
    (_owner st) (buybackWallet st) (liquidityWallet st) a
    (totalBurned st) (totalFees st) (isExcludedFromFee st).

Definition set_totalBurned (st : State) (v : N) : State :=
  mkState (_balances st) (_allowances st) (_totalSupply st)
    (_owner st) (buybackWallet st) (liquidityWallet st) (treasuryWallet st)
    v (totalFees st) (isExcludedFromFee st).

Definition set_totalFees (st : State) (v : N) : State :=
  mkState (_balances st) (_allowances st) (_totalSupply st)
    (_owner st) (buybackWallet st) (liquidityWallet st) (treasuryWallet st)
    (totalBurned st) v (isExcludedFromFee st).

Definition set_excluded (st : State) (a : address) (b : bool) : State :=
  mkState (_balances st) (_allowances st) (_totalSupply st)
    (_owner st) (buybackWallet st) (liquidityWallet st) (treasuryWallet st)
    (totalBurned st) (totalFees st) (<[a:=b]> (isExcludedFromFee st)).

(** *** The ERC20 base contract, which ALOToken extends

    ALOToken inherits from the ERC20 contract of @openzeppelin/contracts
    (version 5: [_update] is the overridable hook, errors are custom
    errors). The functions of the library that ALOToken calls are written
    out here after the library. *)

(** ERC20._update: the only place where balances and supply change. *)
Definition ERC20_update (from to : address) (value : N) (st : State)
  : result State :=
  let* st1 :=
    (if from =? 0 then
       let* ts := add (_totalSupply st) value in
       Ok (set_totalSupply st ts)
     else
       let fromBalance := balanceOf st from in
       if fromBalance <? value
       then Err (CustomError "ERC20InsufficientBalance")
       else Ok (set_balance st from (fromBalance - value))) in
  if to =? 0 then
    Ok (set_totalSupply st1 (unchecked_sub (_totalSupply st1) value))
  else
    Ok (set_balance st1 to (unchecked_add (balanceOf st1 to) value)).

(** ALOToken._update: the override that takes the fees. *)
Definition _update (from to : address) (amount : N) (st : State)
  : result State :=
  if (from =? 0) || (to =? 0) then ERC20_update from to amount st
  else
    let takeFee := negb (excluded st from) && negb (excluded st to) in
    if takeFee && (0 <? amount) then
      let* buybackFee :=
        (let* p := mul amount BUYBACK_FEE in div p FEE_DENOMINATOR) in
      let* liquidityFee :=
        (let* p := mul amount LIQUIDITY_FEE in div p FEE_DENOMINATOR) in
      let* treasuryFee :=
        (let* p := mul amount TREASURY_FEE in div p FEE_DENOMINATOR) in
      let* totalFeeAmount :=
        (let* s := add buybackFee liquidityFee in add s treasuryFee) in
      let* st :=
        (if 0 <? buybackFee
         then ERC20_update from (buybackWallet st) buybackFee st
         else Ok st) in
      let* st :=
        (if 0 <? liquidityFee
         then ERC20_update from (liquidityWallet st) liquidityFee st
         else Ok st) in
      let* st :=
        (if 0 <? treasuryFee
         then ERC20_update from (treasuryWallet st) treasuryFee st
         else Ok st) in
      let* tf := add (totalFees st) totalFeeAmount in
      let st := set_totalFees st tf in
      let* amountAfterFee := sub amount totalFeeAmount in
      ERC20_update from to amountAfterFee st
    else ERC20_update from to amount st.

Definition _transfer (from to : address) (value : N) (st : State)
  : result State :=
  if from =? 0 then Err (CustomError "ERC20InvalidSender")
  else if to =? 0 then Err (CustomError "ERC20InvalidReceiver")
  else _update from to value st.

Definition _mint (account : address) (value : N) (st : State)
  : result State :=
  if account =? 0 then Err (CustomError "ERC20InvalidReceiver")
  else _update 0 account value st.

Definition _burn (account : address) (value : N) (st : State)
  : result State :=
  if account =? 0 then Err (CustomError "ERC20InvalidSender")
  else _update account 0 value st.

Definition _approve (owner spender : address) (value : N) (st : State)
  : result State :=
  if owner =? 0 then Err (CustomError "ERC20InvalidApprover")
  else if spender =? 0 then Err (CustomError "ERC20InvalidSpender")
  else Ok (set_allowance st owner spender value).

Definition _spendAllowance (owner spender : address) (value : N)
  (st : State) : result State :=
  let currentAllowance := allowance st owner spender in
  if currentAllowance <? MAX_UINT256 then
    if currentAllowance <? value
    then Err (CustomError "ERC20InsufficientAllowance")
    else _approve owner spender (currentAllowance - value) st
  else Ok st.

(** Ownable.onlyOwner *)
Definition onlyOwner (sender : address) (st : State) : result unit :=
  if sender =? _owner st then Ok tt
  else Err (CustomError "OwnableUnauthorizedAccount").

(** *** External functions; [sender] is msg.sender *)

Definition transfer (sender to : address) (value : N) (st : State)
  : result State :=
  _transfer sender to value st.

Definition approve (sender spender : address) (value : N) (st : State)
  : result State :=
  _approve sender spender value st.

Definition transferFrom (sender from to : address) (value : N)
  (st : State) : result State :=
  let* st := _spendAllowance from sender value st in
  _transfer from to value st.

Definition burn (sender : address) (amount : N) (st : State)
  : result State :=
  let* st := _burn sender amount st in
  let* tb := add (totalBurned st) amount in
  Ok (set_totalBurned st tb).

Definition burnFrom (sender account : address) (amount : N) (st : State)
  : result State :=
  let* st := _spendAllowance account sender amount st in
  let* st := _burn account amount st in
  let* tb := add (totalBurned st) amount in
  Ok (set_totalBurned st tb).

Definition setBuybackWallet (sender _wallet : address) (st : State)
  : result State :=
  do* onlyOwner sender st in
  do* require (negb (_wallet =? 0)) "Invalid address" in
  Ok (set_buybackWallet st _wallet).

Definition setLiquidityWallet (sender _wallet : address) (st : State)
  : result State :=
  do* onlyOwner sender st in
  do* require (negb (_wallet =? 0)) "Invalid address" in
  Ok (set_liquidityWallet st _wallet).

Definition setTreasuryWallet (sender _wallet : address) (st : State)
  : result State :=
  do* onlyOwner sender st in
  do* require (negb (_wallet =? 0)) "Invalid address" in
  Ok (set_treasuryWallet st _wallet).

Definition setExcludeFromFee (sender account : address) (excl : bool)
  (st : State) : result State :=
  do* onlyOwner sender st in
  do* require (negb (account =? 0)) "Invalid address" in
  Ok (set_excluded st account excl).

Definition circulatingSupply (st : State) : N := totalSupply st.

(** Ownable.transferOwnership and Ownable.renounceOwnership *)
Definition transferOwnership (sender newOwner : address) (st : State)
  : result State :=
  do* onlyOwner sender st in
  if newOwner =? 0 then Err (CustomError "OwnableInvalidOwner")
  else Ok (set_owner st newOwner).

Definition renounceOwnership (sender : address) (st : State)
  : result State :=
  do* onlyOwner sender st in
  Ok (set_owner st 0).

(** The storage of a contract before its constructor runs. *)
Definition empty : State :=
  mkState ∅ ∅ 0 0 0 0 0 0 0 ∅.

(** [sender] deploys the token at address [this]. *)
Definition constructor (sender this : address)
  (_buybackWallet _liquidityWallet _treasuryWallet : address)
  : result State :=
  if sender =? 0 then Err (CustomError "OwnableInvalidOwner") else
  let st := set_owner empty sender in
  do* require (negb (_buybackWallet =? 0)) "Invalid buyback wallet" in
  do* require (negb (_liquidityWallet =? 0)) "Invalid liquidity wallet" in
  do* require (negb (_treasuryWallet =? 0)) "Invalid treasury wallet" in
  let st := set_buybackWallet st _buybackWallet in
  let st := set_liquidityWallet st _liquidityWallet in
  let st := set_treasuryWallet st _treasuryWallet in
  let totalSupply := 100000000 * 10 ^ decimals in
  let* st := _mint sender totalSupply st in
  let st := set_excluded st sender true in
  let st := set_excluded st this true in
  Ok st.

(** The calls a transaction can make on the token. *)
Inductive Call :=
| CTransfer (to : address) (value : N)
| CApprove (spender : address) (value : N)
| CTransferFrom (from to : address) (value : N)
| CBurn (amount : N)
| CBurnFrom (account : address) (amount : N)
| CSetBuybackWallet (w : address)
| CSetLiquidityWallet (w : address)
| CSetTreasuryWallet (w : address)
| CSetExcludeFromFee (account : address) (excl : bool)
| CTransferOwnership (newOwner : address)
| CRenounceOwnership.

Definition call (sender : address) (c : Call) (st : State) : result State :=
  match c with
  | CTransfer to value => transfer sender to value st
  | CApprove spender value => approve sender spender value st
  | CTransferFrom from to value => transferFrom sender from to value st
  | CBurn amount => burn sender amount st
  | CBurnFrom account amount => burnFrom sender account amount st
  | CSetBuybackWallet w => setBuybackWallet sender w st
  | CSetLiquidityWallet w => setLiquidityWallet sender w st
  | CSetTreasuryWallet w => setTreasuryWallet sender w st
  | CSetExcludeFromFee a b => setExcludeFromFee sender a b st
  | CTransferOwnership o => transferOwnership sender o st
  | CRenounceOwnership => renounceOwnership sender st
  end.

(** A transaction that reverts leaves the storage as it was. *)
Definition exec (st : State) (tx : address * Call) : State :=
  match call (fst tx) (snd tx) st with
  | Ok st' => st'
  | Err _ => st
  end.

Definition run (txs : list (address * Call)) (st : State) : State :=
  fold_left exec txs st.

(** Sum of all account balances. *)
Definition sum_balances (st : State) : N := sum_map (_balances st).

(** What every reachable storage of the token satisfies. *)
Definition Inv (st : State) : Prop :=
  sum_balances st + totalBurned st = INITIAL_SUPPLY
  /\ _totalSupply st = sum_balances st
  /\ buybackWallet st <> 0
  /\ liquidityWallet st <> 0
  /\ treasuryWallet st <> 0.

(** The fields that a movement of balances leaves alone. *)
Definition same_config (st st' : State) : Prop :=
  _allowances st' = _allowances st
  /\ _totalSupply st' = _totalSupply st
  /\ _owner st' = _owner st
  /\ buybackWallet st' = buybackWallet st
  /\ liquidityWallet st' = liquidityWallet st
  /\ treasuryWallet st' = treasuryWallet st
  /\ totalBurned st' = totalBurned st
  /\ isExcludedFromFee st' = isExcludedFromFee st.

(** A fee component of a transfer of [amount]: [rate] basis points of it,
    truncated. *)
Definition fee_of (amount rate : N) : N := amount * rate / FEE_DENOMINATOR.

(** [credit x w v] is what account [x] gets when [v] is sent to [w]. *)
Definition credit (x w : address) (v : N) : N :=
  if decide (x = w) then v else 0.

(** What account [x] is credited with by Transfer(from, to, amount),
    according to the specification. *)
Definition received (st : State) (from to : address) (amount : N)
  (x : address) : N :=
  if excluded st from || excluded st to then credit x to amount
  else
    credit x (buybackWallet st) (fee_of amount BUYBACK_FEE)
    + credit x (liquidityWallet st) (fee_of amount LIQUIDITY_FEE)
    + credit x (treasuryWallet st) (fee_of amount TREASURY_FEE)
    + credit x to
        (amount - (fee_of amount BUYBACK_FEE + fee_of amount LIQUIDITY_FEE
                   + fee_of amount TREASURY_FEE)).

(** The whole fee of a transfer of [amount] between two accounts that are
    not exempt. *)
Definition total_fee (amount : N) : N :=
  fee_of amount BUYBACK_FEE + fee_of amount LIQUIDITY_FEE
  + fee_of amount TREASURY_FEE.

(** A transfer between [from] and [to] pays fees. *)
Definition pays_fee (st : State) (from to : address) : bool :=
  negb (excluded st from) && negb (excluded st to).

Definition is_fee_wallet (st : State) (a : address) : Prop :=
  a = buybackWallet st \/ a = liquidityWallet st \/ a = treasuryWallet st.

(** The settings that only the owner may change: the owner, the fee
    wallets and the fee exemptions. *)
Definition same_settings (st st' : State) : Prop :=
  _owner st' = _owner st
  /\ buybackWallet st' = buybackWallet st
  /\ liquidityWallet st' = liquidityWallet st
  /\ treasuryWallet st' = treasuryWallet st
  /\ isExcludedFromFee st' = isExcludedFromFee st.

(** A storage reached from a deployment by a sequence of transactions. *)
Definition reachable (st : State) : Prop :=
  exists sender this bw lw tw st0 txs,
    constructor sender this bw lw tw = Ok st0 /\ st = run txs st0.

(** The storage right after account 1 deployed the token at address 100
    with the fee wallets 2, 3 and 4, and gave 5,000 base units to
    account 5. *)
Definition genesis : State :=
  match constructor 1 100 2 3 4 with
  | Ok st => st
  | Err _ => empty
  end.

Definition funded : State := run [(1, CTransfer 5 5000)] genesis.

(** The configuration of scripts/deploy.ts: the deployer, account 1, is the
    buyback, the liquidity and the treasury wallet at once. Account 5 was
    given 5,000 base units. *)
Definition script_funded : State :=
  run [(1, CTransfer 5 5000)]
    (match constructor 1 100 1 1 1 with
     | Ok st => st
     | Err _ => empty
     end).

End ALOToken.

(** ** ALOStaking *)
Module ALOStaking.

Inductive Tier := FREE | BRONZE | SILVER | PLATINUM | DIAMOND.

#[global] Instance Tier_eq_dec : EqDecision Tier.
Proof. solve_decision. Defined.

Record TierConfig := mkTierConfig {
  requiredAmount : N;
  multiplier : N; (* basis points, 1.0x = 10000 *)
}.

Record StakeInfo := mkStakeInfo {
  amount : N;
  startTime : N;
  lastClaimTime : N;
  tier : Tier;
  rewardDebt : N;
}.

(** The storage of the staking contract. [aloToken] is the storage of the
    token contract that the immutable [aloToken] address points to: the
    calls below read and write it through IERC20. [this] is address(this). *)
Record State := mkState {
  aloToken : ALOToken.State;
  this : address;
  _owner : address;
  rewardRate : N;
  totalStaked : N;
  tierConfigs : Tier -> TierConfig;
  stakes : gmap address StakeInfo;
  tierStakers : Tier -> N;
  tierTotalStaked : Tier -> N;
}.

(** A slot of [stakes] that was never written, or was deleted, reads as the
    zero struct ([Tier.FREE] is the enum's zero). *)
Definition zeroStake : StakeInfo := mkStakeInfo 0 0 0 FREE 0.

Definition stakeOf (st : State) (user : address) : StakeInfo :=
  default zeroStake (stakes st !! user).

Definition with_amount (s : StakeInfo) (v : N) : StakeInfo :=
  mkStakeInfo v (startTime s) (lastClaimTime s) (tier s) (rewardDebt s).
Definition with_startTime (s : StakeInfo) (v : N) : StakeInfo :=
  mkStakeInfo (amount s) v (lastClaimTime s) (tier s) (rewardDebt s).
Definition with_lastClaimTime (s : StakeInfo) (v : N) : StakeInfo :=
  mkStakeInfo (amount s) (startTime s) v (tier s) (rewardDebt s).
Definition with_tier (s : StakeInfo) (t : Tier) : StakeInfo :=
  mkStakeInfo (amount s) (startTime s) (lastClaimTime s) t (rewardDebt s).
Definition with_rewardDebt (s : StakeInfo) (v : N) : StakeInfo :=
  mkStakeInfo (amount s) (startTime s) (lastClaimTime s) (tier s) v.

Definition set_aloToken (st : State) (tok : ALOToken.State) : State :=
  mkState tok (this st) (_owner st) (rewardRate st) (totalStaked st)
    (tierConfigs st) (stakes st) (tierStakers st) (tierTotalStaked st).
Definition set_owner (st : State) (a : address) : State :=
  mkState (aloToken st) (this st) a (rewardRate st) (totalStaked st)
    (tierConfigs st) (stakes st) (tierStakers st) (tierTotalStaked st).
Definition set_rewardRate (st : State) (v : N) : State :=
  mkState (aloToken st) (this st) (_owner st) v (totalStaked st)
    (tierConfigs st) (stakes st) (tierStakers st) (tierTotalStaked st).
Definition set_totalStaked (st : State) (v : N) : State :=
  mkState (aloToken st) (this st) (_owner st) (rewardRate st) v
    (tierConfigs st) (stakes st) (tierStakers st) (tierTotalStaked st).
Definition set_tierConfig (st : State) (t : Tier) (c : TierConfig) : State :=
  mkState (aloToken st) (this st) (_owner st) (rewardRate st) (totalStaked st)
    (<[t:=c]> (tierConfigs st)) (stakes st) (tierStakers st)
    (tierTotalStaked st).
Definition set_stake (st : State) (user : address) (s : StakeInfo) : State :=
  mkState (aloToken st) (this st) (_owner st) (rewardRate st) (totalStaked st)
    (tierConfigs st) (<[user:=s]> (stakes st)) (tierStakers st)
    (tierTotalStaked st).
Definition delete_stake (st : State) (user : address) : State :=
  mkState (aloToken st) (this st) (_owner st) (rewardRate st) (totalStaked st)
    (tierConfigs st) (delete user (stakes st)) (tierStakers st)
    (tierTotalStaked st).
Definition set_tierStakers (st : State) (t : Tier) (v : N) : State :=
  mkState (aloToken st) (this st) (_owner st) (rewardRate st) (totalStaked st)
    (tierConfigs st) (stakes st) (<[t:=v]> (tierStakers st))
    (tierTotalStaked st).
Definition set_tierTotalStaked (st : State) (t : Tier) (v : N) : State :=
  mkState (aloToken st) (this st) (_owner st) (rewardRate st) (totalStaked st)
    (tierConfigs st) (stakes st) (tierStakers st)
    (<[t:=v]> (tierTotalStaked st)).

(** Tier configurations written by the constructor. *)
Definition default_tierConfigs (t : Tier) : TierConfig :=
  match t with
  | FREE => mkTierConfig 0 10000
  | BRONZE => mkTierConfig (100 * 10 ^ 18) 10000
  | SILVER => mkTierConfig (500 * 10 ^ 18) 11000
  | PLATINUM => mkTierConfig (1000 * 10 ^ 18) 12500
  | DIAMOND => mkTierConfig (1500 * 10 ^ 18) 15000
  end.

(** [sender] deploys the contract at address [this_]; [tok] is the storage
    of the token at [_aloToken]. *)
Definition constructor (sender this_ : address) (_aloToken : address)
  (tok : ALOToken.State) (_rewardRate : N) : result State :=
  if sender =? 0 then Err (CustomError "OwnableInvalidOwner") else
  do* require (negb (_aloToken =? 0)) "Invalid token address" in
  Ok (mkState tok this_ sender _rewardRate 0 default_tierConfigs ∅
        (fun _ => 0) (fun _ => 0)).

Definition _getTierForAmount (st : State) (amt : N) : Tier :=
  if requiredAmount (tierConfigs st DIAMOND) <=? amt then DIAMOND
  else if requiredAmount (tierConfigs st PLATINUM) <=? amt then PLATINUM
  else if requiredAmount (tierConfigs st SILVER) <=? amt then SILVER
  else if requiredAmount (tierConfigs st BRONZE) <=? amt then BRONZE
  else FREE.

(** [now] is block.timestamp. *)
Definition calculateRewards (now : N) (user : address) (st : State)
  : result N :=
  let userStake := stakeOf st user in
  if amount userStake =? 0 then Ok 0 else
  let* timeElapsed := sub now (lastClaimTime userStake) in
  let tierCfg := tierConfigs st (tier userStake) in
  let* p := mul (amount userStake) (rewardRate st) in
  let* p := mul p timeElapsed in
  let* baseRewards := div p (10 ^ 18) in
  let* q := mul baseRewards (multiplier tierCfg) in
  let* rewards := div q 10000 in
  Ok rewards.

Definition _claimRewards (now : N) (user : address) (st : State)
  : result State :=
  do* require (0 <? amount (stakeOf st user)) "No active stake" in
  let* rewards := calculateRewards now user st in
  if 0 <? rewards then
    let st := set_stake st user (with_lastClaimTime (stakeOf st user) now) in
    let* rd := add (rewardDebt (stakeOf st user)) rewards in
    let st := set_stake st user (with_rewardDebt (stakeOf st user) rd) in
    let* need := add (totalStaked st) rewards in
    do* require (need <=? ALOToken.balanceOf (aloToken st) (this st))
          "Insufficient rewards" in
    (* aloToken.safeTransfer(user, rewards) *)
    let* tok := ALOToken.transfer (this st) user rewards (aloToken st) in
    Ok (set_aloToken st tok)
  else Ok st.

Definition claimRewards (sender now : N) (st : State) : result State :=
  _claimRewards now sender st.

Definition stake (sender now : N) (amt : N) (st : State) : result State :=
  do* require (0 <? amt) "Amount must be greater than 0" in
  let* st :=
    (if 0 <? amount (stakeOf st sender) then _claimRewards now sender st
     else
       let st :=
         set_stake st sender (with_startTime (stakeOf st sender) now) in
       Ok (set_stake st sender (with_lastClaimTime (stakeOf st sender) now)))
  in
  (* aloToken.safeTransferFrom(msg.sender, address(this), amount) *)
  let* tok :=
    ALOToken.transferFrom (this st) sender (this st) amt (aloToken st) in
  let st := set_aloToken st tok in
  let oldAmount := amount (stakeOf st sender) in
  let oldTier := tier (stakeOf st sender) in
  let* a := add (amount (stakeOf st sender)) amt in
  let st := set_stake st sender (with_amount (stakeOf st sender) a) in
  let newTier := _getTierForAmount st (amount (stakeOf st sender)) in
  let st := set_stake st sender (with_tier (stakeOf st sender) newTier) in
  let* st :=
    (if oldAmount =? 0 then
       let* n := add (tierStakers st newTier) 1 in
       Ok (set_tierStakers st newTier n)
     else if negb (bool_decide (oldTier = newTier)) then
       let* n := sub (tierStakers st oldTier) 1 in
       let st := set_tierStakers st oldTier n in
       let* n := add (tierStakers st newTier) 1 in
       let st := set_tierStakers st newTier n in
       let* v := sub (tierTotalStaked st oldTier) oldAmount in
       Ok (set_tierTotalStaked st oldTier v)
     else Ok st) in
  let* v := add (tierTotalStaked st newTier) amt in
  let st := set_tierTotalStaked st newTier v in
  let* ts := add (totalStaked st) amt in
  Ok (set_totalStaked st ts).

Definition unstake (sender now : N) (amt : N) (st : State) : result State :=
  do* require (amt <=? amount (stakeOf st sender))
        "Insufficient staked amount" in
  do* require (0 <? amt) "Amount must be greater than 0" in
  let* st := _claimRewards now sender st in
  let oldTier := tier (stakeOf st sender) in
  let* a := sub (amount (stakeOf st sender)) amt in
  let st := set_stake st sender (with_amount (stakeOf st sender) a) in
  let newTier := _getTierForAmount st (amount (stakeOf st sender)) in
  let* st :=
    (if amount (stakeOf st sender) =? 0 then
       let* n := sub (tierStakers st oldTier) 1 in
       let st := set_tierStakers st oldTier n in
       Ok (delete_stake st sender)
     else if negb (bool_decide (oldTier = newTier)) then
       let* n := sub (tierStakers st oldTier) 1 in
       let st := set_tierStakers st oldTier n in
       let* n := add (tierStakers st newTier) 1 in
       let st := set_tierStakers st newTier n in
       let* v :=
         add (tierTotalStaked st newTier) (amount (stakeOf st sender)) in
       let st := set_tierTotalStaked st newTier v in
       Ok (set_stake st sender (with_tier (stakeOf st sender) newTier))
     else Ok st) in
  let* v := sub (tierTotalStaked st oldTier) amt in
  let st := set_tierTotalStaked st oldTier v in
  let* ts := sub (totalStaked st) amt in
  let st := set_totalStaked st ts in
  (* aloToken.safeTransfer(msg.sender, amount) *)
  let* tok := ALOToken.transfer (this st) sender amt (aloToken st) in
  Ok (set_aloToken st tok).

Definition emergencyWithdraw (sender : N) (st : State) : result State :=
  let amt := amount (stakeOf st sender) in
  do* require (0 <? amt) "No active stake" in
  let t := tier (stakeOf st sender) in
  let* n := sub (tierStakers st t) 1 in
  let st := set_tierStakers st t n in
  let* v := sub (tierTotalStaked st t) amt in
  let st := set_tierTotalStaked st t v in
  let* ts := sub (totalStaked st) amt in
  let st := set_totalStaked st ts in
  let st := delete_stake st sender in
  (* aloToken.safeTransfer(msg.sender, amount) *)
  let* tok := ALOToken.transfer (this st) sender amt (aloToken st) in
  Ok (set_aloToken st tok).

Definition getUserTier (user : address) (st : State) : Tier :=
  tier (stakeOf st user).

Definition onlyOwner (sender : address) (st : State) : result unit :=
  if sender =? _owner st then Ok tt
  else Err (CustomError "OwnableUnauthorizedAccount").

Definition setRewardRate (sender : address) (_rewardRate : N) (st : State)
  : result State :=
  do* onlyOwner sender st in
  Ok (set_rewardRate st _rewardRate).

Definition setTierConfig (sender : address) (t : Tier)
  (required mult : N) (st : State) : result State :=
  do* onlyOwner sender st in
  Ok (set_tierConfig st t (mkTierConfig required mult)).

Definition fundRewards (sender : address) (amt : N) (st : State)
  : result State :=
  do* onlyOwner sender st in
  let* tok :=
    ALOToken.transferFrom (this st) sender (this st) amt (aloToken st) in
  Ok (set_aloToken st tok).

(** Ownable.transferOwnership and Ownable.renounceOwnership, which
    ALOStaking inherits. *)
Definition transferOwnership (sender newOwner : address) (st : State)
  : result State :=
  do* onlyOwner sender st in
  if newOwner =? 0 then Err (CustomError "OwnableInvalidOwner")
  else Ok (set_owner st newOwner).

Definition renounceOwnership (sender : address) (st : State)
  : result State :=
  do* onlyOwner sender st in
  Ok (set_owner st 0).

(** Sum of a per-tier counter over the five tiers. *)
Definition sum_tiers (f : Tier -> N) : N :=
  f FREE + f BRONZE + f SILVER + f PLATINUM + f DIAMOND.

(** Sum of the amounts of all stake records. *)
Definition sum_stakes (st : State) : N :=
  map_fold (fun _ s acc => amount s + acc) 0 (stakes st).

(** One for a record with a non-zero amount, zero otherwise. *)
Definition nz (s : StakeInfo) : N := if amount s =? 0 then 0 else 1.

(** Number of addresses with a non-zero stake. *)
Definition count_stakers (st : State) : N :=
  map_fold (fun _ s acc => nz s + acc) 0 (stakes st).

(** The statistics that hold in every reachable storage. *)
Definition stats_ok (st : State) : Prop :=
  totalStaked st = sum_stakes st
  /\ sum_tiers (tierStakers st) = count_stakers st.

(** Transactions of the staking scenario: a call on the token, or one of
    the external functions of the staking contract at a given
    block.timestamp. *)
Inductive Call :=
| CStake (amt : N)
| CUnstake (amt : N)
| CClaimRewards
| CEmergencyWithdraw
| CSetRewardRate (rate : N)
| CSetTierConfig (t : Tier) (required mult : N)
| CFundRewards (amt : N)
| CTransferOwnership (newOwner : address)
| CRenounceOwnership.

Inductive Tx :=
| TokenTx (sender : address) (c : ALOToken.Call)
| StakingTx (sender : address) (now : N) (c : Call).

Definition call (sender : address) (now : N) (c : Call) (st : State)
  : result State :=
  match c with
  | CStake amt => stake sender now amt st
  | CUnstake amt => unstake sender now amt st
  | CClaimRewards => claimRewards sender now st
  | CEmergencyWithdraw => emergencyWithdraw sender st
  | CSetRewardRate rate => setRewardRate sender rate st
  | CSetTierConfig t required mult => setTierConfig sender t required mult st
  | CFundRewards amt => fundRewards sender amt st
  | CTransferOwnership o => transferOwnership sender o st
  | CRenounceOwnership => renounceOwnership sender st
  end.

Definition exec (st : State) (tx : Tx) : State :=
  match tx with
  | TokenTx sender c => set_aloToken st (ALOToken.exec (aloToken st) (sender, c))
  | StakingTx sender now c =>
      match call sender now c st with
      | Ok st' => st'
      | Err _ => st
      end
  end.

Definition run (txs : list Tx) (st : State) : State := fold_left exec txs st.

(** The reward formula in the words of the specification:
    stakedAmount * rewardRatePerSecond * secondsSinceLastClaim *
    tierMultiplier / multiplierBase, truncated. *)
Definition spec_reward (now : N) (user : address) (st : State) : N :=
  let s := stakeOf st user in
  amount s * rewardRate st * (now - lastClaimTime s)
    * multiplier (tierConfigs st (tier s)) / 10000.

(** The same with the staked amount counted in whole tokens of 10^18 base
    units, and a single truncation at the end. *)
Definition spec_reward_tokens (now : N) (user : address) (st : State) : N :=
  let s := stakeOf st user in
  amount s * rewardRate st * (now - lastClaimTime s)
    * multiplier (tierConfigs st (tier s)) / (10 ^ 18 * 10000).

(** The tier lookup in the words of the specification: scan from the
    highest tier down and take the first whose threshold is at most the
    amount, FREE being the fallback. *)
Definition spec_tier (cfg : Tier -> TierConfig) (amt : N) : Tier :=
  default FREE
    (find (fun t => requiredAmount (cfg t) <=? amt)
       [DIAMOND; PLATINUM; SILVER; BRONZE]).

(** *** A deployment, as the deploy script and the tests set it up

    Account 1 deploys the token at address 100 with the fee wallets 2, 3
    and 4, and the staking contract at address 200; it exempts the staking
    contract from fees, funds the reward pool with 1,000,000 tokens and
    gives 10,000 tokens to each of the users 5 and 6. *)
Definition ether (n : N) : N := n * 10 ^ 18.

Definition deploy (_rewardRate : N) : result State :=
  let* tok := ALOToken.constructor 1 100 2 3 4 in
  constructor 1 200 100 tok _rewardRate.

Definition deployed (_rewardRate : N) : State :=
  match deploy _rewardRate with
  | Ok st =>
      run [ TokenTx 1 (ALOToken.CSetExcludeFromFee 200 true);
            TokenTx 1 (ALOToken.CTransfer 200 (ether 1000000));
            TokenTx 1 (ALOToken.CTransfer 5 (ether 10000));
            TokenTx 1 (ALOToken.CTransfer 6 (ether 10000)) ] st
  | Err _ =>
      mkState ALOToken.empty 0 0 0 0 default_tierConfigs ∅
        (fun _ => 0) (fun _ => 0)
  end.

(** The reward rate of the tests: 0.00001 token per second per token. *)
Definition REWARD_RATE : N := 10 ^ 13.

(** User 5 stakes 1,000 tokens at time 1000. *)
Definition staked_1000 : State :=
  run [ TokenTx 5 (ALOToken.CApprove 200 (ether 1000));
        StakingTx 5 1000 (CStake (ether 1000)) ] (deployed REWARD_RATE).

(** User 5 stakes 1505.9 tokens at time 1000, the reward rate being 1. *)
Definition frac_stake : State :=
  run [ TokenTx 5 (ALOToken.CApprove 200 (ether 10000));
        StakingTx 5 1000 (CStake 1505900000000000000000) ] (deployed 1).

(** As [staked_1000], but the owner then sets the reward rate to 2^200:
    amount * rewardRate no longer fits in 256 bits. *)
Definition huge_rate : State :=
  run [ StakingTx 1 1500 (CSetRewardRate (2 ^ 200)) ] staked_1000.

(** User 5 stakes one base unit at time 1000. *)
Definition dust_stake : State :=
  run [ TokenTx 5 (ALOToken.CApprove 200 (ether 10000));
        StakingTx 5 1000 (CStake 1) ] (deployed REWARD_RATE).

(** User 5 stakes 100 tokens at time 1000 and 400 more at time 2000. *)
Definition two_stakes : State :=
  run [ TokenTx 5 (ALOToken.CApprove 200 (ether 500));
        StakingTx 5 1000 (CStake (ether 100));
        StakingTx 5 2000 (CStake (ether 400)) ] (deployed REWARD_RATE).

(** User 5 stakes 1,000 tokens at time 1000 and unstakes 900 at time 2000. *)
Definition stake_unstake : State :=
  run [ TokenTx 5 (ALOToken.CApprove 200 (ether 1000));
        StakingTx 5 1000 (CStake (ether 1000));
        StakingTx 5 2000 (CUnstake (ether 900)) ] (deployed REWARD_RATE).


(** The staked principal is covered by the token balance of the contract. *)
Definition solvent (st : State) : Prop :=
  totalStaked st <= ALOToken.balanceOf (aloToken st) (this st).

(** The staking contract keeps its tokens safe: the token storage is
    consistent, the contract is exempt from fees and has approved no
    spender, and the staked principal is covered. *)
Definition pool_ok (st : State) : Prop :=
  ALOToken.Inv (aloToken st)
  /\ ALOToken.excluded (aloToken st) (this st) = true
  /\ (forall s, ALOToken.allowance (aloToken st) (this st) s = 0)
  /\ solvent st.

(** A transaction that is not sent by the staking contract itself and does
    not take away its fee exemption. *)
Definition outside (self : address) (tx : Tx) : Prop :=
  match tx with
  | TokenTx sender c =>
      sender <> self /\ c <> ALOToken.CSetExcludeFromFee self false
  | StakingTx sender _ _ => sender <> self
  end.

(** User 5 stakes 1,000 tokens, claims after a day and unstakes 400; in
    between user 6 tries to pull a token out of the staking contract and
    the owner hands the contract over to account 6. *)
Definition sample_txs : list Tx :=
  [ TokenTx 5 (ALOToken.CApprove 200 (ether 1000));
    StakingTx 5 1000 (CStake (ether 1000));
    StakingTx 5 87400 CClaimRewards;
    TokenTx 6 (ALOToken.CTransferFrom 200 6 (ether 1));
    StakingTx 1 88000 (CTransferOwnership 6);
    StakingTx 5 90000 (CUnstake (ether 400)) ].

(** User 5 has approved the staking contract for 1,000 tokens. *)
Definition approved_1000 : State :=
  run [ TokenTx 5 (ALOToken.CApprove 200 (ether 1000)) ]
    (deployed REWARD_RATE).

(** A storage that a deployment followed by transactions leads to. *)
Definition reachable (st : State) : Prop :=
  exists sender this_ tokAddr tok rate st0 txs,
    constructor sender this_ tokAddr tok rate = Ok st0 /\ st = run txs st0.

(** An address without a stake has no record. *)
Definition no_empty_records (st : State) : Prop :=
  forall u, amount (stakeOf st u) = 0 -> stakeOf st u = zeroStake.

(** The staking contract as deployed on the token of [ALOToken.genesis],
    before any transaction. *)
Definition fresh_deployment : State :=
  mkState ALOToken.genesis 200 1 REWARD_RATE 0 default_tierConfigs ∅
    (fun _ => 0) (fun _ => 0).

(** The transactions that lead from [fresh_deployment] to [two_stakes]. *)
Definition two_stakes_txs : list Tx :=
  [ TokenTx 1 (ALOToken.CSetExcludeFromFee 200 true);
    TokenTx 1 (ALOToken.CTransfer 200 (ether 1000000));
    TokenTx 1 (ALOToken.CTransfer 5 (ether 10000));
    TokenTx 1 (ALOToken.CTransfer 6 (ether 10000));
    TokenTx 5 (ALOToken.CApprove 200 (ether 500));
    StakingTx 5 1000 (CStake (ether 100));
    StakingTx 5 2000 (CStake (ether 400)) ].

(** The fields of the staking storage that no stake record is part of. *)
Definition same_params (st st' : State) : Prop :=
  this st' = this st /\ _owner st' = _owner st
  /\ rewardRate st' = rewardRate st /\ tierConfigs st' = tierConfigs st.

End ALOStaking.

(** ** ALOGovernance *)
Module ALOGovernance.

Inductive ProposalState :=
| Pending
| Active
| Succeeded
| Defeated
| Queued
| Executed
| Canceled.

Inductive VoteType :=
| Against
| For
| Abstain.

#[global] Instance ProposalState_eq_dec : EqDecision ProposalState.
Proof. solve_decision. Defined.

#[global] Instance VoteType_eq_dec : EqDecision VoteType.
Proof. solve_decision. Defined.

Record Receipt := mkReceipt {
  hasVoted : bool;
  support : VoteType;
  votes : N;
}.

Record Proposal := mkProposal {
  id : N;
  proposer : address;
  title : string;
  description : string;
  startBlock : N;
  endBlock : N;
  forVotes : N;
  againstVotes : N;
  abstainVotes : N;
  quorum : N;
  executed : bool;
  canceled : bool;
  receipts : gmap address Receipt;
}.

Record State := mkState {
  stakingContract : address;
  _owner : address;
  proposalCount : N;
  votingDelay : N;
  votingPeriod : N;
  proposalThreshold : N;
  quorumPercentage : N;
  proposals : gmap N Proposal;
}.

(** What a call sees of the chain: msg.sender, block.number and the storage
    of the token contract at [aloToken], which the governance contract only
    reads (balanceOf, totalSupply). *)
Record Env := mkEnv {
  msg_sender : address;
  block_number : N;
  aloToken : ALOToken.State;
}.

Definition zeroReceipt : Receipt := mkReceipt false Against 0.

Definition zeroProposal : Proposal :=
  mkProposal 0 0 EmptyString EmptyString 0 0 0 0 0 0 false false ∅.

Definition proposalOf (st : State) (proposalId : N) : Proposal :=
  default zeroProposal (proposals st !! proposalId).

Definition receiptOf (p : Proposal) (voter : address) : Receipt :=
  default zeroReceipt (receipts p !! voter).

Definition set_proposal (st : State) (proposalId : N) (p : Proposal)
  : State :=
  mkState (stakingContract st) (_owner st) (proposalCount st)
    (votingDelay st) (votingPeriod st) (proposalThreshold st)
    (quorumPercentage st) (<[proposalId:=p]> (proposals st)).

Definition set_proposalCount (st : State) (n : N) : State :=
  mkState (stakingContract st) (_owner st) n
    (votingDelay st) (votingPeriod st) (proposalThreshold st)
    (quorumPercentage st) (proposals st).

Definition set_owner (st : State) (a : address) : State :=
  mkState (stakingContract st) a (proposalCount st)
    (votingDelay st) (votingPeriod st) (proposalThreshold st)
    (quorumPercentage st) (proposals st).

Definition with_header (p : Proposal) (i : N) (who : address)
  (t d : string) (sb eb q : N) : Proposal :=
  mkProposal i who t d sb eb (forVotes p) (againstVotes p) (abstainVotes p)
    q (executed p) (canceled p) (receipts p).

Definition with_forVotes (p : Proposal) (v : N) : Proposal :=
  mkProposal (id p) (proposer p) (title p) (description p) (startBlock p)
    (endBlock p) v (againstVotes p) (abstainVotes p) (quorum p)
    (executed p) (canceled p) (receipts p).

Definition with_againstVotes (p : Proposal) (v : N) : Proposal :=
  mkProposal (id p) (proposer p) (title p) (description p) (startBlock p)
    (endBlock p) (forVotes p) v (abstainVotes p) (quorum p)
    (executed p) (canceled p) (receipts p).

Definition with_abstainVotes (p : Proposal) (v : N) : Proposal :=
  mkProposal (id p) (proposer p) (title p) (description p) (startBlock p)
    (endBlock p) (forVotes p) (againstVotes p) v (quorum p)
    (executed p) (canceled p) (receipts p).

Definition with_executed (p : Proposal) (b : bool) : Proposal :=
  mkProposal (id p) (proposer p) (title p) (description p) (startBlock p)
    (endBlock p) (forVotes p) (againstVotes p) (abstainVotes p) (quorum p)
    b (canceled p) (receipts p).

Definition with_canceled (p : Proposal) (b : bool) : Proposal :=
  mkProposal (id p) (proposer p) (title p) (description p) (startBlock p)
    (endBlock p) (forVotes p) (againstVotes p) (abstainVotes p) (quorum p)
    (executed p) b (receipts p).

Definition with_receipt (p : Proposal) (voter : address) (r : Receipt)
  : Proposal :=
  mkProposal (id p) (proposer p) (title p) (description p) (startBlock p)
    (endBlock p) (forVotes p) (againstVotes p) (abstainVotes p) (quorum p)
    (executed p) (canceled p) (<[voter:=r]> (receipts p)).

Definition constructor (sender : address) (_aloToken _stakingContract : address)
  (_votingDelay _votingPeriod _proposalThreshold _quorumPercentage : N)
  : result State :=
  if sender =? 0 then Err (CustomError "OwnableInvalidOwner") else
  do* require (negb (_aloToken =? 0)) "Invalid token address" in
  do* require (negb (_stakingContract =? 0)) "Invalid staking contract" in
  Ok (mkState _stakingContract sender 0 _votingDelay _votingPeriod
        _proposalThreshold _quorumPercentage ∅).

Definition getVotingPower (e : Env) (account : address) : N :=
  ALOToken.balanceOf (aloToken e) account.

Definition state (e : Env) (proposalId : N) (st : State)
  : result ProposalState :=
  do* require ((0 <? proposalId) && (proposalId <=? proposalCount st))
        "Invalid proposal" in
  let proposal := proposalOf st proposalId in
  if canceled proposal then Ok Canceled
  else if executed proposal then Ok Executed
  else if block_number e <=? startBlock proposal then Ok Pending
  else if block_number e <=? endBlock proposal then Ok Active
  else if (forVotes proposal <=? againstVotes proposal)
          || (forVotes proposal <? quorum proposal) then Ok Defeated
  else Ok Succeeded.

(** Returns the new storage and the id of the proposal. *)
Definition propose (e : Env) (title_ description_ : string) (st : State)
  : result (State * N) :=
  do* require (proposalThreshold st <=? getVotingPower e (msg_sender e))
        "Proposer votes below proposal threshold" in
  let* n := add (proposalCount st) 1 in
  let st := set_proposalCount st n in
  let proposalId := proposalCount st in
  let newProposal := proposalOf st proposalId in
  let* sb := add (block_number e) (votingDelay st) in
  let* eb0 := add (block_number e) (votingDelay st) in
  let* eb := add eb0 (votingPeriod st) in
  let* q0 := mul (ALOToken.totalSupply (aloToken e)) (quorumPercentage st) in
  let* q := div q0 100 in
  let newProposal :=
    with_header newProposal proposalId (msg_sender e) title_ description_
      sb eb q in
  Ok (set_proposal st proposalId newProposal, proposalId).

Definition _castVote (e : Env) (voter : address) (proposalId : N)
  (support_ : VoteType) (st : State) : result State :=
  let* s := state e proposalId st in
  do* require (bool_decide (s = Active)) "Voting is closed" in
  let proposal := proposalOf st proposalId in
  let receipt := receiptOf proposal voter in
  do* require (negb (hasVoted receipt)) "Already voted" in
  let votes_ := getVotingPower e voter in
  do* require (0 <? votes_) "No voting power" in
  let* proposal :=
    (match support_ with
     | For =>
         let* v := add (forVotes proposal) votes_ in
         Ok (with_forVotes proposal v)
     | Against =>
         let* v := add (againstVotes proposal) votes_ in
         Ok (with_againstVotes proposal v)
     | Abstain =>
         let* v := add (abstainVotes proposal) votes_ in
         Ok (with_abstainVotes proposal v)
     end) in
  let proposal :=
    with_receipt proposal voter (mkReceipt true support_ votes_) in
  Ok (set_proposal st proposalId proposal).

Definition castVote (e : Env) (proposalId : N) (support_ : VoteType)
  (st : State) : result State :=
  _castVote e (msg_sender e) proposalId support_ st.

Definition execute (e : Env) (proposalId : N) (st : State) : result State :=
  let* s := state e proposalId st in
  do* require (bool_decide (s = Succeeded)) "Proposal not succeeded" in
  let proposal := proposalOf st proposalId in
  Ok (set_proposal st proposalId (with_executed proposal true)).

Definition cancel (e : Env) (proposalId : N) (st : State) : result State :=
  do* require ((0 <? proposalId) && (proposalId <=? proposalCount st))
        "Invalid proposal" in
  let proposal := proposalOf st proposalId in
  do* require ((msg_sender e =? proposer proposal)
               || (msg_sender e =? _owner st)) "Not authorized" in
  let* s := state e proposalId st in
  do* require (negb (bool_decide (s = Executed)))
        "Cannot cancel executed proposal" in
  Ok (set_proposal st proposalId (with_canceled proposal true)).

Definition getReceipt (proposalId : N) (voter : address) (st : State)
  : Receipt :=
  receiptOf (proposalOf st proposalId) voter.

Definition onlyOwner (sender : address) (st : State) : result unit :=
  if sender =? _owner st then Ok tt
  else Err (CustomError "OwnableUnauthorizedAccount").

Definition setVotingParameters (e : Env)
  (_votingDelay _votingPeriod _proposalThreshold _quorumPercentage : N)
  (st : State) : result State :=
  do* onlyOwner (msg_sender e) st in
  do* require (_quorumPercentage <=? 100) "Invalid quorum percentage" in
  Ok (mkState (stakingContract st) (_owner st) (proposalCount st)
        _votingDelay _votingPeriod _proposalThreshold _quorumPercentage
        (proposals st)).

Definition setStakingContract (e : Env) (_stakingContract : address)
  (st : State) : result State :=
  do* onlyOwner (msg_sender e) st in
  do* require (negb (_stakingContract =? 0)) "Invalid address" in
  Ok (mkState _stakingContract (_owner st) (proposalCount st)
        (votingDelay st) (votingPeriod st) (proposalThreshold st)
        (quorumPercentage st) (proposals st)).

(** Ownable.transferOwnership and Ownable.renounceOwnership *)
Definition transferOwnership (e : Env) (newOwner : address) (st : State)
  : result State :=
  do* onlyOwner (msg_sender e) st in
  if newOwner =? 0 then Err (CustomError "OwnableInvalidOwner")
  else Ok (set_owner st newOwner).

Definition renounceOwnership (e : Env) (st : State) : result State :=
  do* onlyOwner (msg_sender e) st in
  Ok (set_owner st 0).

(** The state-changing external functions. *)
Inductive Call :=
| CPropose (title_ description_ : string)
| CCastVote (proposalId : N) (support_ : VoteType)
| CExecute (proposalId : N)
| CCancel (proposalId : N)
| CSetVotingParameters (delay period threshold quorumPct : N)
| CSetStakingContract (a : address)
| CTransferOwnership (newOwner : address)
| CRenounceOwnership.

Definition call (e : Env) (c : Call) (st : State) : result State :=
  match c with
  | CPropose t d => let* r := propose e t d st in Ok (fst r)
  | CCastVote p s => castVote e p s st
  | CExecute p => execute e p st
  | CCancel p => cancel e p st
  | CSetVotingParameters d p t q => setVotingParameters e d p t q st
  | CSetStakingContract a => setStakingContract e a st
  | CTransferOwnership o => transferOwnership e o st
  | CRenounceOwnership => renounceOwnership e st
  end.

(** A transaction that reverts leaves the storage as it was. *)
Definition exec (st : State) (tx : Env * Call) : State :=
  match call (fst tx) (snd tx) st with
  | Ok st' => st'
  | Err _ => st
  end.

Definition run (txs : list (Env * Call)) (st : State) : State :=
  fold_left exec txs st.

(** Block heights never decrease along a chain: [chain b txs] says that the
    transactions [txs] happen at heights that are non-decreasing and at
    least [b]. *)
Fixpoint chain (b : N) (txs : list (Env * Call)) : Prop :=
  match txs with
  | [] => True
  | tx :: rest => b <= block_number (fst tx) /\ chain (block_number (fst tx)) rest
  end.

(** The height of the last transaction of a chain that starts at [b]. *)
Definition last_block (b : N) (txs : list (Env * Call)) : N :=
  fold_left (fun _ tx => block_number (fst tx)) txs b.

(** The state of a proposal as a reader sees it at height [b]; the state
    function depends on the chain through block.number only. *)
Definition state_at (b : N) (proposalId : N) (st : State)
  : result ProposalState :=
  state (mkEnv 0 b ALOToken.empty) proposalId st.

(** The lifecycle of the specification: the edges along which the state of a
    proposal may move. *)
Inductive lifecycle : ProposalState -> ProposalState -> Prop :=
| L_pending_active : lifecycle Pending Active
| L_active_succeeded : lifecycle Active Succeeded
| L_active_defeated : lifecycle Active Defeated
| L_succeeded_executed : lifecycle Succeeded Executed
| L_cancel s : s <> Executed -> lifecycle s Canceled.

(** Forward along the lifecycle: any number of edges, none included. *)
Definition forward : ProposalState -> ProposalState -> Prop := rtc lifecycle.

(** What one transaction [c] can do to the state of proposal [pid], seen at
    the height of the transaction: nothing, Succeeded to Executed by
    Execute, or any state but Executed to Canceled by Cancel. *)
Definition tx_move (c : Call) (pid : N) (s s' : ProposalState) : Prop :=
  s' = s
  \/ (c = CExecute pid /\ s = Succeeded /\ s' = Executed)
  \/ (c = CCancel pid /\ s <> Executed /\ s' = Canceled).

(** What the passage of blocks alone can do: nothing, Pending to Active or
    past the window, Active to Succeeded or Defeated. *)
Definition time_move (s s' : ProposalState) : Prop :=
  s' = s
  \/ (s = Pending /\ (s' = Active \/ s' = Succeeded \/ s' = Defeated))
  \/ (s = Active /\ (s' = Succeeded \/ s' = Defeated)).

(** [forward] as a table. *)
Definition forwardb (s s' : ProposalState) : bool :=
  match s, s' with
  | Pending, (Pending | Active | Succeeded | Defeated | Executed | Canceled)
  | Active, (Active | Succeeded | Defeated | Executed | Canceled)
  | Succeeded, (Succeeded | Executed | Canceled)
  | Defeated, (Defeated | Canceled)
  | Queued, (Queued | Canceled)
  | Executed, Executed
  | Canceled, Canceled => true
  | _, _ => false
  end.

(** The decision table of the specification for the state function: the
    cases in precedence order, the first that matches wins. *)
Definition first_match {A} (cases : list (bool * A)) (otherwise : A) : A :=
  default otherwise (snd <$> find (fun c => fst c) cases).

Definition spec_state (b : N) (p : Proposal) : ProposalState :=
  first_match
    [ (canceled p, Canceled);
      (executed p, Executed);
      (b <=? startBlock p, Pending);
      (b <=? endBlock p, Active);
      ((forVotes p <=? againstVotes p) || (forVotes p <? quorum p), Defeated) ]
    Succeeded.

(** *** The quorum scenario of the specification

    The token is deployed by account 1, which gives 5,000,000 tokens to the
    voter 5. Governance runs with a delay of 1 block, a period of 10 blocks,
    a proposal threshold of 1,000 tokens and a quorum of 10%. Account 1
    proposes at block 10 (quorum 10,000,000 tokens), account 5 votes For at
    block 12. *)
Definition scenario_token : ALOToken.State :=
  match ALOToken.constructor 1 100 2 3 4 with
  | Ok tok => ALOToken.run [(1, ALOToken.CTransfer 5 (5000000 * 10 ^ 18))] tok
  | Err _ => ALOToken.empty
  end.

Definition scenario_proposed : State :=
  match constructor 1 100 200 1 10 (1000 * 10 ^ 18) 10 with
  | Ok st =>
      run [ (mkEnv 1 10 scenario_token, CPropose "Fees" "Lower the fees") ] st
  | Err _ => mkState 0 0 0 0 0 0 0 ∅
  end.

Definition scenario : State :=
  run [ (mkEnv 5 12 scenario_token, CCastVote 1 For) ] scenario_proposed.

(** Later transactions: account 1 votes Against, changes the voting
    parameters and makes a second proposal. *)
Definition later_txs : list (Env * Call) :=
  [ (mkEnv 1 13 scenario_token, CCastVote 1 Against);
    (mkEnv 1 14 scenario_token, CSetVotingParameters 2 20 0 5);
    (mkEnv 1 15 scenario_token, CPropose "Second" "Another proposal") ].


(** What a receipt counts for in the tally of [sup]. *)
Definition cast (sup : VoteType) (r : Receipt) : N :=
  if hasVoted r && bool_decide (support r = sup) then votes r else 0.

(** Sum of the votes of the receipts of [p] that support [sup]. *)
Definition tally (sup : VoteType) (p : Proposal) : N :=
  map_fold (fun _ r acc => cast sup r + acc) 0 (receipts p).

Definition tally_ok (p : Proposal) : Prop :=
  forVotes p = tally For p
  /\ againstVotes p = tally Against p
  /\ abstainVotes p = tally Abstain p.

(** The fields of a proposal that are written at its creation. *)
Definition same_header (p p' : Proposal) : Prop :=
  id p' = id p /\ proposer p' = proposer p /\ title p' = title p
  /\ description p' = description p /\ startBlock p' = startBlock p
  /\ endBlock p' = endBlock p /\ quorum p' = quorum p.

(** The votes of a proposal: its three tallies and its receipts. *)
Definition same_votes (p p' : Proposal) : Prop :=
  forVotes p' = forVotes p /\ againstVotes p' = againstVotes p
  /\ abstainVotes p' = abstainVotes p /\ receipts p' = receipts p.

(** No proposal is stored above proposalCount. *)
Definition fresh_above (st : State) : Prop :=
  forall i, proposalCount st < i -> proposals st !! i = None.

(** A storage that a deployment followed by transactions leads to. *)
Definition reachable (st : State) : Prop :=
  exists sender tok staking d p t q st0 txs,
    constructor sender tok staking d p t q = Ok st0 /\ st = run txs st0.

(** Voting on [p] is not open at height [b]: the proposal is canceled or
    executed, or [b] is outside its voting window. *)
Definition closed_at (p : Proposal) (b : N) : Prop :=
  canceled p = true \/ executed p = true
  \/ b <= startBlock p \/ endBlock p < b.

(** As [scenario], but account 1, which holds 95,000,000 tokens, votes For
    at block 12: the proposal passes the quorum. *)
Definition scenario_passed : State :=
  run [ (mkEnv 1 12 scenario_token, CCastVote 1 For) ] scenario_proposed.

(** The proposal after a vote of weight [w] for [sup] by [voter]. *)
Definition voted (p : Proposal) (voter : address) (sup : VoteType) (w : N)
  : Proposal :=
  with_receipt
    (match sup with
     | For => with_forVotes p (forVotes p + w)
     | Against => with_againstVotes p (againstVotes p + w)
     | Abstain => with_abstainVotes p (abstainVotes p + w)
     end) voter (mkReceipt true sup w).

Definition valid (st : State) (i : N) : Prop :=
  0 < i /\ i <= proposalCount st.

End ALOGovernance.

(** * Properties *)

(** ** Inversion of the revert monad and of checked arithmetic *)
Module EvmFacts.

Lemma bind_Ok {A B} (m : result A) (f : A -> result B) (b : B) :
  Evm.bind m f = Ok b -> exists a, m = Ok a /\ f a = Ok b.
Proof. destruct m as [a|e]; simpl; [eauto | discriminate]. Qed.

Lemma require_Ok (c : bool) (r : string) (u : unit) :
  require c r = Ok u -> c = true.
Proof. destruct c; simpl; [reflexivity | discriminate]. Qed.

Lemma add_Ok (a b c : N) : add a b = Ok c -> c = a + b /\ a + b <= MAX_UINT256.
Proof.
  unfold add. destruct (N.leb_spec (a + b) MAX_UINT256); [|discriminate].
  intros [= <-]. split; [reflexivity | assumption].
Qed.

Lemma sub_Ok (a b c : N) : sub a b = Ok c -> c = a - b /\ b <= a.
Proof.
  unfold sub. destruct (N.leb_spec b a); [|discriminate].
  intros [= <-]. split; [reflexivity | assumption].
Qed.

Lemma mul_Ok (a b c : N) : mul a b = Ok c -> c = a * b /\ a * b <= MAX_UINT256.
Proof.
  unfold mul. destruct (N.leb_spec (a * b) MAX_UINT256); [|discriminate].
  intros [= <-]. split; [reflexivity | assumption].
Qed.

Lemma div_Ok (a b c : N) : div a b = Ok c -> c = a / b /\ b <> 0.
Proof.
  unfold div. destruct (N.eqb_spec b 0); [discriminate|].
  intros [= <-]. split; [reflexivity | assumption].
Qed.

Lemma add_fits (a b : N) : a + b <= MAX_UINT256 -> add a b = Ok (a + b).
Proof.
  intros H. unfold add.
  destruct (N.leb_spec (a + b) MAX_UINT256); [reflexivity | lia].
Qed.

Lemma sub_fits (a b : N) : b <= a -> sub a b = Ok (a - b).
Proof.
  intros H. unfold sub. destruct (N.leb_spec b a); [reflexivity | lia].
Qed.

Lemma sub_short (a b : N) : a < b -> sub a b = Err Panic.
Proof.
  intros H. unfold sub. destruct (N.leb_spec b a); [lia | reflexivity].
Qed.

Lemma mul_over (a b : N) : MAX_UINT256 < a * b -> mul a b = Err Panic.
Proof.
  intros H. unfold mul.
  destruct (N.leb_spec (a * b) MAX_UINT256); [lia | reflexivity].
Qed.

Lemma mul_fits (a b : N) : a * b <= MAX_UINT256 -> mul a b = Ok (a * b).
Proof.
  intros H. unfold mul.
  destruct (N.leb_spec (a * b) MAX_UINT256); [reflexivity | lia].
Qed.

Lemma unchecked_add_fits (a b : N) :
  a + b <= MAX_UINT256 -> unchecked_add a b = a + b.
Proof.
  intros H. unfold unchecked_add. apply N.mod_small.
  unfold MAX_UINT256, WORD in *. lia.
Qed.

Lemma unchecked_sub_fits (a b : N) :
  b <= a -> a <= MAX_UINT256 -> unchecked_sub a b = a - b.
Proof.
  intros Hb Ha. unfold unchecked_sub.
  assert (Hw : b < WORD) by (unfold MAX_UINT256, WORD in *; lia).
  rewrite (N.mod_small b WORD Hw).
  replace (a + WORD - b) with (a - b + 1 * WORD) by lia.
  rewrite N.Div0.mod_add. apply N.mod_small.
  unfold MAX_UINT256, WORD in *. lia.
Qed.

(** The sum of a mapping and a write to one slot. *)
Lemma sum_map_insert (m : gmap address N) (k : address) (v : N) :
  sum_map (<[k:=v]> m) + default 0 (m !! k) = sum_map m + v.
Proof.
  unfold sum_map.
  assert (Hc : forall (mm : gmap address N) (j1 j2 : address) (z1 z2 y : N),
             j1 <> j2 -> mm !! j1 = Some z1 -> mm !! j2 = Some z2 ->
             z1 + (z2 + y) = z2 + (z1 + y)) by (intros; lia).
  rewrite <- (insert_delete_eq m k v).
  rewrite map_fold_insert_L; [| apply Hc | apply lookup_delete_eq].
  destruct (m !! k) as [x|] eqn:E; simpl.
  - rewrite (map_fold_delete_L _ 0 k x m (Hc m) E). lia.
  - rewrite (delete_id m k E). lia.
Qed.

Lemma sum_map_lookup_le (m : gmap address N) (k : address) :
  default 0 (m !! k) <= sum_map m.
Proof.
  pose proof (sum_map_insert m k 0) as H.
  lia.
Qed.

Lemma sum_map_empty : sum_map ∅ = 0.
Proof. unfold sum_map. apply map_fold_empty. Qed.

(** The same for the sum of a measure [f] over the values of a mapping. *)
Section fold_sum.
Context {A : Type} (f : A -> N).

Lemma fold_sum_insert (m : gmap address A) (k : address) (v : A) :
  map_fold (fun _ x acc => f x + acc) 0 (<[k:=v]> m) + from_option f 0 (m !! k)
  = map_fold (fun _ x acc => f x + acc) 0 m + f v.
Proof.
  assert (Hc : forall (mm : gmap address A) (j1 j2 : address) (z1 z2 : A) (y : N),
             j1 <> j2 -> mm !! j1 = Some z1 -> mm !! j2 = Some z2 ->
             f z1 + (f z2 + y) = f z2 + (f z1 + y)) by (intros; lia).
  rewrite <- (insert_delete_eq m k v).
  rewrite map_fold_insert_L; [| apply Hc | apply lookup_delete_eq].
  destruct (m !! k) as [x|] eqn:E; simpl.
  - rewrite (map_fold_delete_L _ 0 k x m (Hc m) E). lia.
  - rewrite (delete_id m k E). lia.
Qed.

Lemma fold_sum_delete (m : gmap address A) (k : address) :
  map_fold (fun _ x acc => f x + acc) 0 (delete k m) + from_option f 0 (m !! k)
  = map_fold (fun _ x acc => f x + acc) 0 m.
Proof.
  assert (Hc : forall (mm : gmap address A) (j1 j2 : address) (z1 z2 : A) (y : N),
             j1 <> j2 -> mm !! j1 = Some z1 -> mm !! j2 = Some z2 ->
             f z1 + (f z2 + y) = f z2 + (f z1 + y)) by (intros; lia).
  destruct (m !! k) as [x|] eqn:E; simpl.
  - rewrite (map_fold_delete_L _ 0 k x m (Hc m) E). lia.
  - rewrite (delete_id m k E). lia.
Qed.

End fold_sum.

End EvmFacts.

Tactic Notation "bind_inv" hyp(H) "as" ident(x) ident(E) :=
  apply EvmFacts.bind_Ok in H as (x & E & H).

(** ** ALOToken: conservation of supply and the fee split *)
Module ALOTokenSpec.

Import ALOToken EvmFacts.

Lemma balanceOf_set_balance (st : State) (a x : address) (v : N) :
  balanceOf (set_balance st a v) x = if decide (x = a) then v else balanceOf st x.
Proof.
  unfold balanceOf, set_balance; simpl.
  destruct (decide (x = a)) as [->|Hne].
  - by rewrite lookup_insert_eq.
  - by rewrite lookup_insert_ne.
Qed.

Lemma sum_set_balance (st : State) (a : address) (v : N) :
  sum_balances (set_balance st a v) + balanceOf st a = sum_balances st + v.
Proof. unfold sum_balances, balanceOf, set_balance; simpl. apply sum_map_insert. Qed.

Lemma balanceOf_le_sum (st : State) (a : address) :
  balanceOf st a <= sum_balances st.
Proof. apply sum_map_lookup_le. Qed.

Lemma same_config_refl (st : State) : same_config st st.
Proof. repeat split. Qed.

Lemma same_config_trans (a b c : State) :
  same_config a b -> same_config b c -> same_config a c.
Proof. unfold same_config. intros H1 H2. intuition congruence. Qed.

Lemma same_config_set_balance (st : State) (a : address) (v : N) :
  same_config st (set_balance st a v).
Proof. repeat split. Qed.

Lemma same_config_set_totalFees (st : State) (v : N) :
  same_config st (set_totalFees st v).
Proof. repeat split. Qed.

(** ERC20._update between two accounts: what a successful call did. *)
Lemma ERC20_update_move (from to : address) (v : N) (st st' : State) :
  from <> 0 -> to <> 0 -> sum_balances st <= MAX_UINT256 ->
  ERC20_update from to v st = Ok st' ->
  v <= balanceOf st from
  /\ sum_balances st' = sum_balances st
  /\ same_config st st'
  /\ totalFees st' = totalFees st
  /\ forall x, balanceOf st' x + credit x from v = balanceOf st x + credit x to v.
Proof.
  intros Hf Ht Hsum H. unfold ERC20_update in H.
  destruct (N.eqb_spec from 0) as [|_]; [done|].
  destruct (N.eqb_spec to 0) as [|_]; [done|].
  destruct (N.ltb_spec (balanceOf st from) v) as [|Hle]; [discriminate|].
  simpl in H. injection H as <-.
  set (st1 := set_balance st from (balanceOf st from - v)).
  pose proof (sum_set_balance st from (balanceOf st from - v)) as Hs1.
  fold st1 in Hs1.
  pose proof (balanceOf_le_sum st from) as Hb.
  pose proof (balanceOf_le_sum st1 to) as Hb1.
  assert (Hfit : balanceOf st1 to + v <= MAX_UINT256) by lia.
  rewrite (unchecked_add_fits _ _ Hfit).
  pose proof (sum_set_balance st1 to (balanceOf st1 to + v)) as Hs2.
  split; [lia|]. split; [lia|]. split; [repeat split|]. split; [reflexivity|].
  intros x. rewrite balanceOf_set_balance. unfold credit.
  unfold st1 at 2. rewrite balanceOf_set_balance.
  unfold st1. rewrite balanceOf_set_balance.
  repeat case_decide; subst; try congruence; lia.
Qed.

(** ERC20._update between two accounts succeeds when the sender can pay. *)
Lemma ERC20_update_move_ok (from to : address) (v : N) (st : State) :
  from <> 0 -> to <> 0 -> v <= balanceOf st from ->
  exists st', ERC20_update from to v st = Ok st'.
Proof.
  intros Hf Ht Hle. unfold ERC20_update.
  destruct (N.eqb_spec from 0) as [|_]; [done|].
  destruct (N.eqb_spec to 0) as [|_]; [done|].
  destruct (N.ltb_spec (balanceOf st from) v) as [|_]; [lia|].
  simpl. eauto.
Qed.

(** ERC20._update towards address(0): a burn. *)
Lemma ERC20_update_burn (from : address) (v : N) (st st' : State) :
  from <> 0 ->
  ERC20_update from 0 v st = Ok st' ->
  v <= balanceOf st from
  /\ sum_balances st' + v = sum_balances st
  /\ _totalSupply st' = unchecked_sub (_totalSupply st) v
  /\ totalBurned st' = totalBurned st
  /\ buybackWallet st' = buybackWallet st
  /\ liquidityWallet st' = liquidityWallet st
  /\ treasuryWallet st' = treasuryWallet st.
Proof.
  intros Hf H. unfold ERC20_update in H.
  destruct (N.eqb_spec from 0) as [|_]; [done|].
  destruct (N.ltb_spec (balanceOf st from) v) as [|Hle]; [discriminate|].
  simpl in H. injection H as <-. simpl.
  pose proof (sum_set_balance st from (balanceOf st from - v)) as Hs1.
  unfold sum_balances in *. simpl in *.
  repeat split; try lia.
Qed.

Lemma fee_bound (amount : N) :
  fee_of amount BUYBACK_FEE + fee_of amount LIQUIDITY_FEE
  + fee_of amount TREASURY_FEE <= amount.
Proof.
  unfold fee_of, BUYBACK_FEE, LIQUIDITY_FEE, TREASURY_FEE, FEE_DENOMINATOR.
  pose proof (N.Div0.mul_div_le (amount * 100) 10000).
  pose proof (N.Div0.mul_div_le (amount * 50) 10000).
  lia.
Qed.

Lemma credit_zero (x w : address) : credit x w 0 = 0.
Proof. unfold credit. by case_decide. Qed.

Lemma fee_of_zero (rate : N) : fee_of 0 rate = 0.
Proof. reflexivity. Qed.

(** One of the three conditional fee transfers of ALOToken._update. *)
Lemma fee_step_move (from w : address) (f : N) (st st' : State) :
  from <> 0 -> w <> 0 -> sum_balances st <= MAX_UINT256 ->
  (if 0 <? f then ERC20_update from w f st else Ok st) = Ok st' ->
  sum_balances st' = sum_balances st
  /\ same_config st st'
  /\ totalFees st' = totalFees st
  /\ forall x, balanceOf st' x + credit x from f = balanceOf st x + credit x w f.
Proof.
  intros Hf Hw Hsum H.
  destruct (N.ltb_spec 0 f) as [Hpos|Hz].
  - apply ERC20_update_move in H; [|done..]. tauto.
  - injection H as <-. assert (f = 0) as -> by lia.
    split; [done|]. split; [apply same_config_refl|]. split; [done|].
    intros x. by rewrite !credit_zero.
Qed.

(** ALOToken._update between two accounts: what a successful call did. *)
Lemma _update_move (from to : address) (amount : N) (st st' : State) :
  from <> 0 -> to <> 0 -> sum_balances st <= MAX_UINT256 ->
  buybackWallet st <> 0 -> liquidityWallet st <> 0 -> treasuryWallet st <> 0 ->
  _update from to amount st = Ok st' ->
  sum_balances st' = sum_balances st
  /\ same_config st st'
  /\ forall x, balanceOf st' x + credit x from amount
              = balanceOf st x + received st from to amount x.
Proof.
  intros Hf Ht Hsum Hbw Hlw Htw H. unfold _update in H.
  destruct (N.eqb_spec from 0) as [|_]; [done|].
  destruct (N.eqb_spec to 0) as [|_]; [done|].
  simpl in H. unfold received.
  destruct (excluded st from) eqn:Ef; simpl in H |- *.
  { apply ERC20_update_move in H; [|done..]. tauto. }
  destruct (excluded st to) eqn:Et; simpl in H |- *.
  { apply ERC20_update_move in H; [|done..]. tauto. }
  destruct (N.ltb_spec 0 amount) as [Hpos|Hz].
  2:{ assert (amount = 0) as -> by lia.
      apply ERC20_update_move in H; [|done..].
      destruct H as (_ & Hs & Hc & _ & Hx).
      split; [done|]. split; [done|].
      intros x. rewrite (Hx x), !fee_of_zero, !credit_zero. lia. }
  bind_inv H as f1 E1. bind_inv E1 as p1 Ep1.
  apply mul_Ok in Ep1 as [-> _]. apply div_Ok in E1 as [-> _].
  bind_inv H as f2 E2. bind_inv E2 as p2 Ep2.
  apply mul_Ok in Ep2 as [-> _]. apply div_Ok in E2 as [-> _].
  bind_inv H as f3 E3. bind_inv E3 as p3 Ep3.
  apply mul_Ok in Ep3 as [-> _]. apply div_Ok in E3 as [-> _].
  bind_inv H as tot Etot. bind_inv Etot as s12 Es12.
  apply add_Ok in Es12 as [-> _]. apply add_Ok in Etot as [-> _].
  fold (fee_of amount BUYBACK_FEE) in *.
  fold (fee_of amount LIQUIDITY_FEE) in *.
  fold (fee_of amount TREASURY_FEE) in *.
  bind_inv H as st1 E1.
  apply fee_step_move in E1; [|done..].
  destruct E1 as (Hs1 & Hc1 & Hf1 & Hx1).
  pose proof Hc1 as (_ & _ & _ & Hbw1 & Hlw1 & Htw1 & _).
  bind_inv H as st2 E2.
  apply fee_step_move in E2; [|congruence..].
  destruct E2 as (Hs2 & Hc2 & Hf2 & Hx2).
  pose proof Hc2 as (_ & _ & _ & Hbw2 & Hlw2 & Htw2 & _).
  bind_inv H as st3 E3.
  apply fee_step_move in E3; [|congruence..].
  destruct E3 as (Hs3 & Hc3 & Hf3 & Hx3).
  bind_inv H as tf Etf. apply add_Ok in Etf as [-> _].
  bind_inv H as rem Erem. apply sub_Ok in Erem as [-> Hle].
  apply ERC20_update_move in H;
    [|done| done| unfold sum_balances in *; simpl; congruence].
  destruct H as (_ & Hs4 & Hc4 & _ & Hx4).
  split; [unfold sum_balances in *; simpl in *; congruence|].
  split.
  { eapply same_config_trans; [exact Hc1|].
    eapply same_config_trans; [exact Hc2|].
    eapply same_config_trans; [exact Hc3|].
    eapply same_config_trans; [apply same_config_set_totalFees|exact Hc4]. }
  intros x. specialize (Hx1 x). specialize (Hx2 x). specialize (Hx3 x).
  specialize (Hx4 x).
  change (balanceOf (set_totalFees st3 _) x) with (balanceOf st3 x) in Hx4.
  rewrite Hlw1 in Hx2. rewrite Htw2, Htw1 in Hx3.
  unfold credit in *. repeat case_decide; subst; lia.
Qed.

Lemma fee_step_ok (from w : address) (f : N) (st : State) :
  from <> 0 -> w <> 0 -> f <= balanceOf st from ->
  exists st', (if 0 <? f then ERC20_update from w f st else Ok st) = Ok st'.
Proof.
  intros Hf Hw Hle. destruct (0 <? f); [|eauto].
  by apply ERC20_update_move_ok.
Qed.

(** ALOToken._update between two accounts succeeds when the sender can pay
    and the fee counter has room. *)
Lemma _update_move_ok (from to : address) (amount : N) (st : State) :
  from <> 0 -> to <> 0 -> sum_balances st <= INITIAL_SUPPLY ->
  buybackWallet st <> 0 -> liquidityWallet st <> 0 -> treasuryWallet st <> 0 ->
  amount <= balanceOf st from ->
  totalFees st + amount <= MAX_UINT256 ->
  exists st', _update from to amount st = Ok st'.
Proof.
  intros Hf Ht Hsum Hbw Hlw Htw Hle Hfees.
  assert (HsumM : sum_balances st <= MAX_UINT256)
    by (unfold INITIAL_SUPPLY, MAX_UINT256 in *; lia).
  pose proof (balanceOf_le_sum st from) as Hbs.
  unfold _update.
  destruct (N.eqb_spec from 0) as [|_]; [done|].
  destruct (N.eqb_spec to 0) as [|_]; [done|].
  simpl.
  destruct (negb (excluded st from) && negb (excluded st to) && (0 <? amount));
    [|by apply ERC20_update_move_ok].
  pose proof (fee_bound amount) as Hfb.
  rewrite !mul_fits
    by (unfold BUYBACK_FEE, LIQUIDITY_FEE, TREASURY_FEE, INITIAL_SUPPLY,
          MAX_UINT256 in *; lia).
  cbn [Evm.bind]. unfold div. cbn [FEE_DENOMINATOR N.eqb Evm.bind].
  fold (fee_of amount BUYBACK_FEE).
  fold (fee_of amount LIQUIDITY_FEE).
  fold (fee_of amount TREASURY_FEE).
  rewrite !add_fits by (unfold MAX_UINT256 in *; lia).
  cbn [Evm.bind].
  destruct (fee_step_ok from (buybackWallet st) (fee_of amount BUYBACK_FEE) st)
    as [st1 E1]; [done|done|lia|].
  rewrite E1. cbn [Evm.bind].
  apply fee_step_move in E1; [|done..].
  destruct E1 as (Hs1 & Hc1 & Hf1 & Hx1).
  pose proof Hc1 as (_ & _ & _ & Hbw1 & Hlw1 & Htw1 & _).
  pose proof (Hx1 from) as Hx1f. unfold credit in Hx1f.
  destruct (decide (from = from)) as [_|]; [|done].
  destruct (fee_step_ok from (liquidityWallet st1)
              (fee_of amount LIQUIDITY_FEE) st1)
    as [st2 E2]; [done|congruence|case_decide; lia|].
  rewrite E2. cbn [Evm.bind].
  apply fee_step_move in E2; [|congruence..].
  destruct E2 as (Hs2 & Hc2 & Hf2 & Hx2).
  pose proof Hc2 as (_ & _ & _ & Hbw2 & Hlw2 & Htw2 & _).
  pose proof (Hx2 from) as Hx2f. unfold credit in Hx2f.
  destruct (decide (from = from)) as [_|]; [|done].
  destruct (fee_step_ok from (treasuryWallet st2)
              (fee_of amount TREASURY_FEE) st2)
    as [st3 E3]; [done|congruence|repeat case_decide; lia|].
  rewrite E3. cbn [Evm.bind].
  apply fee_step_move in E3; [|congruence..].
  destruct E3 as (Hs3 & Hc3 & Hf3 & Hx3).
  pose proof (Hx3 from) as Hx3f. unfold credit in Hx3f.
  destruct (decide (from = from)) as [_|]; [|done].
  rewrite add_fits by (unfold MAX_UINT256 in *; lia). cbn [Evm.bind].
  rewrite add_fits by lia. cbn [Evm.bind].
  rewrite sub_fits by lia. cbn [Evm.bind].
  apply ERC20_update_move_ok; [done|done|].
  change (balanceOf (set_totalFees st3 _) from) with (balanceOf st3 from).
  repeat case_decide; lia.
Qed.

(** The fields of the invariant do not depend on allowances, owner, fee
    counter or exemptions. *)
Lemma Inv_frame (st st' : State) :
  _balances st' = _balances st ->
  _totalSupply st' = _totalSupply st ->
  totalBurned st' = totalBurned st ->
  buybackWallet st' <> 0 -> liquidityWallet st' <> 0 ->
  treasuryWallet st' <> 0 ->
  Inv st -> Inv st'.
Proof.
  unfold Inv, sum_balances. intros -> -> -> ? ? ?. tauto.
Qed.

Lemma Inv_sum_le (st : State) : Inv st -> sum_balances st <= INITIAL_SUPPLY.
Proof. intros (H & _). lia. Qed.

Lemma Inv_sum_max (st : State) : Inv st -> sum_balances st <= MAX_UINT256.
Proof.
  intros H%Inv_sum_le. unfold INITIAL_SUPPLY, MAX_UINT256 in *. lia.
Qed.

Lemma _spendAllowance_frame (o s : address) (v : N) (st st' : State) :
  _spendAllowance o s v st = Ok st' ->
  _balances st' = _balances st
  /\ _totalSupply st' = _totalSupply st
  /\ totalBurned st' = totalBurned st
  /\ totalFees st' = totalFees st
  /\ buybackWallet st' = buybackWallet st
  /\ liquidityWallet st' = liquidityWallet st
  /\ treasuryWallet st' = treasuryWallet st
  /\ isExcludedFromFee st' = isExcludedFromFee st.
Proof.
  unfold _spendAllowance, _approve. intros H.
  repeat match type of H with
         | (if ?c then _ else _) = _ => destruct c
         end; try discriminate; injection H as <-; repeat split.
Qed.

Lemma _spendAllowance_Inv (o s : address) (v : N) (st st' : State) :
  _spendAllowance o s v st = Ok st' -> Inv st -> Inv st'.
Proof.
  intros H HI. apply _spendAllowance_frame in H.
  destruct H as (Hb & Hts & Htb & _ & Hbw & Hlw & Htw & _).
  pose proof HI as (_ & _ & ? & ? & ?).
  eapply Inv_frame; eauto; congruence.
Qed.

Lemma _transfer_Inv (from to : address) (v : N) (st st' : State) :
  _transfer from to v st = Ok st' -> Inv st -> Inv st'.
Proof.
  unfold _transfer. intros H HI.
  destruct (N.eqb_spec from 0) as [|Hf]; [discriminate|].
  destruct (N.eqb_spec to 0) as [|Ht]; [discriminate|].
  pose proof HI as (Hsum & Hts & Hbw & Hlw & Htw).
  apply _update_move in H; [|done|done|by apply Inv_sum_max|done..].
  destruct H as (Hs & (_ & Hts' & _ & Hbw' & Hlw' & Htw' & Htb' & _) & _).
  unfold Inv. rewrite Hs, Hts', Hbw', Hlw', Htw', Htb'. tauto.
Qed.

Lemma _burn_Inv (account : address) (v : N) (st st1 : State) (tb : N) :
  _burn account v st = Ok st1 ->
  add (totalBurned st1) v = Ok tb ->
  Inv st -> Inv (set_totalBurned st1 tb).
Proof.
  unfold _burn, _update. intros H Htb HI.
  destruct (N.eqb_spec account 0) as [|Ha]; [discriminate|].
  rewrite orb_true_r in H.
  apply ERC20_update_burn in H; [|done].
  destruct H as (Hle & Hs & Hts & Hb & Hbw & Hlw & Htw).
  apply add_Ok in Htb as [-> _].
  pose proof HI as (Hsum & HtsI & Hbw0 & Hlw0 & Htw0).
  pose proof (balanceOf_le_sum st account).
  pose proof (Inv_sum_max st HI).
  rewrite unchecked_sub_fits in Hts by lia.
  unfold Inv, sum_balances in *. simpl.
  rewrite Hbw, Hlw, Htw, Hts, Hb. repeat split; try done; lia.
Qed.

(** Every call of the token keeps the invariant. *)
Lemma call_Inv (sender : address) (c : Call) (st st' : State) :
  call sender c st = Ok st' -> Inv st -> Inv st'.
Proof.
  destruct c; simpl; intros H HI.
  - by eapply _transfer_Inv.
  - unfold approve, _approve in H.
    repeat match type of H with
           | (if ?c then _ else _) = _ => destruct c
           end; try discriminate; injection H as <-; exact HI.
  - unfold transferFrom in H. bind_inv H as st1 E1.
    eapply _transfer_Inv; [exact H|]. by eapply _spendAllowance_Inv.
  - unfold burn in H. bind_inv H as st1 E1. bind_inv H as tb Etb.
    injection H as <-. by eapply _burn_Inv.
  - unfold burnFrom in H. bind_inv H as st0 E0. bind_inv H as st1 E1.
    bind_inv H as tb Etb. injection H as <-.
    eapply _burn_Inv; [exact E1|exact Etb|]. by eapply _spendAllowance_Inv.
  - unfold setBuybackWallet in H. bind_inv H as u Eu. bind_inv H as u' Er.
    injection H as <-. apply require_Ok, negb_true_iff, N.eqb_neq in Er.
    destruct HI as (? & ? & ? & ? & ?). by repeat split.
  - unfold setLiquidityWallet in H. bind_inv H as u Eu. bind_inv H as u' Er.
    injection H as <-. apply require_Ok, negb_true_iff, N.eqb_neq in Er.
    destruct HI as (? & ? & ? & ? & ?). by repeat split.
  - unfold setTreasuryWallet in H. bind_inv H as u Eu. bind_inv H as u' Er.
    injection H as <-. apply require_Ok, negb_true_iff, N.eqb_neq in Er.
    destruct HI as (? & ? & ? & ? & ?). by repeat split.
  - unfold setExcludeFromFee in H. bind_inv H as u Eu. bind_inv H as u' Er.
    injection H as <-. exact HI.
  - unfold transferOwnership in H. bind_inv H as u Eu.
    destruct (newOwner =? 0); [discriminate|]. injection H as <-. exact HI.
  - unfold renounceOwnership in H. bind_inv H as u Eu.
    injection H as <-. exact HI.
Qed.

Lemma exec_Inv (st : State) (tx : address * Call) : Inv st -> Inv (exec st tx).
Proof.
  intros HI. unfold exec. destruct (call tx.1 tx.2 st) eqn:E; [|done].
  by eapply call_Inv.
Qed.

Lemma run_Inv (txs : list (address * Call)) (st : State) :
  Inv st -> Inv (run txs st).
Proof.
  revert st. induction txs as [|tx txs IH]; intros st HI; simpl; [done|].
  apply IH. by apply exec_Inv.
Qed.

(** The constructor mints the whole supply to the deployer. *)
Lemma constructor_Inv (sender this bw lw tw : address) (st0 : State) :
  constructor sender this bw lw tw = Ok st0 -> Inv st0.
Proof.
  unfold constructor. intros H.
  destruct (N.eqb_spec sender 0) as [|Hs]; [discriminate|].
  bind_inv H as u1 E1. bind_inv H as u2 E2. bind_inv H as u3 E3.
  apply require_Ok, negb_true_iff, N.eqb_neq in E1, E2, E3.
  assert (HV : 100000000 * 10 ^ decimals = INITIAL_SUPPLY)
    by (vm_compute; reflexivity).
  rewrite HV in H.
  bind_inv H as st1 Em. injection H as <-.
  unfold _mint, _update in Em.
  destruct (N.eqb_spec sender 0) as [|_]; [congruence|].
  cbn [N.eqb orb] in Em. unfold ERC20_update in Em.
  cbn [N.eqb] in Em.
  destruct (N.eqb_spec sender 0) as [|_]; [congruence|].
  change (_totalSupply _) with 0 in Em.
  rewrite add_fits in Em by (unfold INITIAL_SUPPLY, MAX_UINT256; lia).
  cbn [Evm.bind] in Em.
  match type of Em with
  | context [balanceOf ?s sender] =>
      change (balanceOf s sender)
        with (default 0 ((∅ : gmap address N) !! sender)) in Em
  end.
  rewrite lookup_empty in Em. cbn [default] in Em.
  rewrite unchecked_add_fits in Em
    by (unfold INITIAL_SUPPLY, MAX_UINT256; lia).
  injection Em as <-.
  pose proof (sum_map_insert ∅ sender INITIAL_SUPPLY) as Hs0.
  rewrite sum_map_empty, lookup_empty in Hs0. cbn [default] in Hs0.
  unfold Inv, sum_balances. 
  cbn [_balances set_excluded set_balance set_totalSupply
         set_treasuryWallet set_liquidityWallet set_buybackWallet set_owner
         empty totalBurned _totalSupply buybackWallet liquidityWallet
         treasuryWallet].
  rewrite N.add_0_l in *.
  repeat split; solve [assumption | lia].
Qed.

(** C4. Starting from the genesis mint, after any sequence of token
    transactions (transfers with or without fees, burns, allowance spending,
    owner settings; reverted ones included), the sum of all account balances
    plus [totalBurned] is the minted supply of 100,000,000 tokens. *)
Theorem supply_conserved (sender this bw lw tw : address) (st0 : State)
  (txs : list (address * Call)) :
  constructor sender this bw lw tw = Ok st0 ->
  sum_balances (run txs st0) + totalBurned (run txs st0)
  = 100000000 * 10 ^ 18.
Proof.
  intros H. apply constructor_Inv in H.
  apply (run_Inv txs) in H. destruct H as (H & _).
  rewrite H. reflexivity.
Qed.

Lemma supply_conserved_witness :
  exists st0,
    constructor 1 100 2 3 4 = Ok st0
    /\ sum_balances
         (run [(1, CTransfer 5 5000); (5, CTransfer 6 1000); (6, CBurn 80);
               (5, CApprove 6 500); (6, CBurnFrom 5 200)] st0)
       + totalBurned
           (run [(1, CTransfer 5 5000); (5, CTransfer 6 1000); (6, CBurn 80);
                 (5, CApprove 6 500); (6, CBurnFrom 5 200)] st0)
       = 100000000 * 10 ^ 18
    /\ totalBurned
         (run [(1, CTransfer 5 5000); (5, CTransfer 6 1000); (6, CBurn 80);
               (5, CApprove 6 500); (6, CBurnFrom 5 200)] st0) = 280.
Proof.
  eexists. split; [vm_compute; reflexivity|]. split.
  - apply (supply_conserved 1 100 2 3 4). vm_compute; reflexivity.
  - vm_compute; reflexivity.
Defined.

Lemma credit_same (x : address) (v : N) : credit x x v = v.
Proof. unfold credit. by case_decide. Qed.

Lemma credit_other (x w : address) (v : N) : x <> w -> credit x w v = 0.
Proof. unfold credit. by case_decide. Qed.

Ltac credit_simpl H :=
  repeat first [ rewrite credit_same in H
               | rewrite credit_other in H by congruence ].

(** Transfer between two accounts, in terms of [received]. *)
Lemma transfer_effect (st st' : State) (from to : address) (amount : N) :
  Inv st -> transfer from to amount st = Ok st' ->
  from <> 0 /\ to <> 0 /\ Inv st' /\ same_config st st'
  /\ forall x, balanceOf st' x + credit x from amount
               = balanceOf st x + received st from to amount x.
Proof.
  intros HI H. pose proof (_transfer_Inv _ _ _ _ _ H HI) as HI'.
  unfold transfer, _transfer in H.
  destruct (N.eqb_spec from 0) as [|Hf]; [discriminate|].
  destruct (N.eqb_spec to 0) as [|Ht]; [discriminate|].
  pose proof HI as (_ & _ & Hbw & Hlw & Htw).
  apply _update_move in H; [|assumption|assumption|by apply Inv_sum_max|assumption..].
  tauto.
Qed.

Lemma transfer_ok (st : State) (from to : address) (amount : N) :
  Inv st -> from <> 0 -> to <> 0 ->
  amount <= balanceOf st from ->
  totalFees st + amount <= MAX_UINT256 ->
  exists st', transfer from to amount st = Ok st'.
Proof.
  intros HI Hf Ht Hle Hfees. unfold transfer, _transfer.
  destruct (N.eqb_spec from 0) as [|_]; [congruence|].
  destruct (N.eqb_spec to 0) as [|_]; [congruence|].
  pose proof HI as (_ & _ & Hbw & Hlw & Htw).
  apply _update_move_ok; try assumption. by apply Inv_sum_le.
Qed.

(** C5. Transfer(from, to, amount) in a reachable storage. A sender who
    holds the amount succeeds. For every successful transfer, whatever the
    five accounts are (the wallets may coincide with each other or with a
    party, as in scripts/deploy.ts), every balance changes by what the
    account receives minus what it sends: the sender sends [amount]; if
    either party is fee-exempt, [to] receives exactly [amount]; otherwise
    the buyback, liquidity and treasury wallets receive amount*100/10000,
    amount*50/10000 and amount*50/10000, each truncated, and [to] receives
    the remainder ([received]; an account that is several of these receives
    the sum). In particular, when the accounts are distinct, the balances
    of the three wallets and of [to] grow by exactly these amounts. *)
Theorem transfer_fee_split (st : State) (from to : address) (amount : N) :
  Inv st ->
  (from <> 0 -> to <> 0 ->
   amount <= balanceOf st from ->
   totalFees st + amount <= MAX_UINT256 ->
   is_Ok (transfer from to amount st))
  /\ (forall st',
        transfer from to amount st = Ok st' ->
        (forall x,
           balanceOf st' x + credit x from amount
           = balanceOf st x
             + (if excluded st from || excluded st to
                then credit x to amount
                else
                  credit x (buybackWallet st) (amount * 100 / 10000)
                  + credit x (liquidityWallet st) (amount * 50 / 10000)
                  + credit x (treasuryWallet st) (amount * 50 / 10000)
                  + credit x to
                      (amount - (amount * 100 / 10000 + amount * 50 / 10000
                                 + amount * 50 / 10000))))
        /\ (forall x,
              balanceOf st' x + credit x from amount
              = balanceOf st x + received st from to amount x)
        /\ amount * 100 / 10000 + amount * 50 / 10000 + amount * 50 / 10000
           <= amount
        /\ (excluded st from || excluded st to = true -> from <> to ->
            balanceOf st' to = balanceOf st to + amount
            /\ balanceOf st' from = balanceOf st from - amount)
        /\ (excluded st from || excluded st to = false ->
            NoDup [from; to; buybackWallet st; liquidityWallet st;
                   treasuryWallet st] ->
            balanceOf st' (buybackWallet st)
            = balanceOf st (buybackWallet st) + amount * 100 / 10000
            /\ balanceOf st' (liquidityWallet st)
               = balanceOf st (liquidityWallet st) + amount * 50 / 10000
            /\ balanceOf st' (treasuryWallet st)
               = balanceOf st (treasuryWallet st) + amount * 50 / 10000
            /\ balanceOf st' to
               = balanceOf st to
                 + (amount - (amount * 100 / 10000 + amount * 50 / 10000
                              + amount * 50 / 10000))
            /\ balanceOf st' from = balanceOf st from - amount)).
Proof.
  intros HI. split.
  { intros Hf Ht Hle Hfees. by apply transfer_ok. }
  intros st' H.
  apply transfer_effect in H; [|assumption].
  destruct H as (_ & _ & _ & _ & Hx).
  pose proof (fee_bound amount) as Hfb.
  split; [exact Hx|]. split; [exact Hx|]. split; [exact Hfb|].
  change (amount * 100 / 10000) with (fee_of amount BUYBACK_FEE).
  change (amount * 50 / 10000) with (fee_of amount LIQUIDITY_FEE).
  unfold received in Hx.
  change TREASURY_FEE with LIQUIDITY_FEE in *.
  split.
  - intros Hex Hft. rewrite Hex in Hx.
    pose proof (Hx to) as Hto. pose proof (Hx from) as Hfrom.
    credit_simpl Hto. credit_simpl Hfrom.
    clear - Hto Hfrom. lia.
  - intros Hex Hnd. rewrite Hex in Hx.
    rewrite !NoDup_cons, !not_elem_of_cons in Hnd.
    destruct Hnd as ((? & ? & ? & ? & _) & (? & ? & ? & _) & (? & ? & _)
                     & (? & _) & _).
    pose proof (Hx to) as Hto. pose proof (Hx from) as Hfrom.
    pose proof (Hx (buybackWallet st)) as Hb.
    pose proof (Hx (liquidityWallet st)) as Hl.
    pose proof (Hx (treasuryWallet st)) as Htr.
    credit_simpl Hto. credit_simpl Hfrom. credit_simpl Hb. credit_simpl Hl.
    credit_simpl Htr.
    clear - Hto Hfrom Hb Hl Htr Hfb. lia.
Qed.

Lemma transfer_fee_split_witness :
  (exists st',
     transfer 5 6 1000 funded = Ok st'
     /\ balanceOf st' 2 = 10
     /\ balanceOf st' 3 = 5
     /\ balanceOf st' 4 = 5
     /\ balanceOf st' 6 = 980
     /\ balanceOf st' 5 = 4000)
  /\ (exists st',
        transfer 5 6 1000 script_funded = Ok st'
        /\ balanceOf st' 1 = balanceOf script_funded 1 + 20
        /\ balanceOf st' 6 = 980
        /\ balanceOf st' 5 = 4000).
Proof.
  split.
  - assert (HI : Inv funded).
    { apply run_Inv. apply (constructor_Inv 1 100 2 3 4). reflexivity. }
    destruct (transfer_fee_split funded 5 6 1000 HI) as (Hok & Heff).
    destruct Hok as (st' & H);
      [discriminate | discriminate
       | vm_compute; discriminate | vm_compute; discriminate |].
    exists st'. split; [exact H|].
    destruct (Heff st' H) as (_ & _ & _ & _ & Hfee).
    apply Hfee; [reflexivity|].
    change (NoDup [5; 6; 2; 3; 4]). compute_done.
  - assert (HI : Inv script_funded).
    { apply run_Inv. apply (constructor_Inv 1 100 1 1 1). reflexivity. }
    destruct (transfer_fee_split script_funded 5 6 1000 HI) as (Hok & Heff).
    destruct Hok as (st' & H);
      [discriminate | discriminate
       | vm_compute; discriminate | vm_compute; discriminate |].
    exists st'. split; [exact H|].
    destruct (Heff st' H) as (Hx & _).
    pose proof (Hx 1) as H1. pose proof (Hx 6) as H6. pose proof (Hx 5) as H5.
    match type of H1 with
    | _ + ?c = _ + ?r =>
        replace c with 0 in H1 by (vm_compute; reflexivity);
        replace r with 20 in H1 by (vm_compute; reflexivity)
    end.
    match type of H6 with
    | _ + ?c = ?b + ?r =>
        replace c with 0 in H6 by (vm_compute; reflexivity);
        replace b with 0 in H6 by (vm_compute; reflexivity);
        replace r with 980 in H6 by (vm_compute; reflexivity)
    end.
    match type of H5 with
    | _ + ?c = ?b + ?r =>
        replace c with 1000 in H5 by (vm_compute; reflexivity);
        replace b with 5000 in H5 by (vm_compute; reflexivity);
        replace r with 0 in H5 by (vm_compute; reflexivity)
    end.
    clear - H1 H6 H5. repeat split; lia.
Defined.

End ALOTokenSpec.

(** ** ALOStaking: tiers, rewards, claims and the tier statistics *)
Module ALOStakingSpec.

Import ALOStaking EvmFacts.

Lemma stakeOf_set_stake (st : State) (u : address) (s : StakeInfo) :
  stakeOf (set_stake st u s) u = s.
Proof. unfold stakeOf, set_stake; simpl. by rewrite lookup_insert_eq. Qed.

Lemma stakeOf_set_stake_ne (st : State) (u v : address) (s : StakeInfo) :
  u <> v -> stakeOf (set_stake st u s) v = stakeOf st v.
Proof. intros H. unfold stakeOf, set_stake; simpl. by rewrite lookup_insert_ne. Qed.

Lemma constructor_tierConfigs (sender this_ tokAddr : address)
  (tok : ALOToken.State) (rate : N) (st : State) :
  constructor sender this_ tokAddr tok rate = Ok st ->
  tierConfigs st = default_tierConfigs.
Proof.
  unfold constructor. intros H.
  destruct (sender =? 0); [discriminate|].
  bind_inv H as u E. by injection H as <-.
Qed.

(** C6. The tier of an amount is a function of the amount and the tier
    table alone: the first of DIAMOND, PLATINUM, SILVER, BRONZE whose
    required amount is at most the amount, FREE if there is none. With the
    thresholds the constructor writes, 100 tokens give BRONZE, 499 BRONZE,
    500 SILVER, 1500 DIAMOND and 0 FREE. *)
Theorem tier_assignment (st : State) :
  (forall amt, _getTierForAmount st amt = spec_tier (tierConfigs st) amt)
  /\ (forall st' amt, tierConfigs st' = tierConfigs st ->
        _getTierForAmount st' amt = _getTierForAmount st amt)
  /\ (forall sender this_ tokAddr tok rate,
        constructor sender this_ tokAddr tok rate = Ok st ->
        _getTierForAmount st (100 * 10 ^ 18) = BRONZE
        /\ _getTierForAmount st (499 * 10 ^ 18) = BRONZE
        /\ _getTierForAmount st (500 * 10 ^ 18) = SILVER
        /\ _getTierForAmount st (1500 * 10 ^ 18) = DIAMOND
        /\ _getTierForAmount st 0 = FREE).
Proof.
  split; [|split].
  - intros amt. unfold _getTierForAmount, spec_tier. simpl.
    repeat match goal with
           | |- context [if ?c then _ else _] => destruct c; [reflexivity|]
           end.
    reflexivity.
  - intros st' amt H. unfold _getTierForAmount. by rewrite H.
  - intros sender this_ tokAddr tok rate H.
    apply constructor_tierConfigs in H.
    unfold _getTierForAmount. rewrite H.
    repeat split; vm_compute; reflexivity.
Qed.

Lemma tier_assignment_witness :
  exists st,
    constructor 1 200 100 ALOToken.empty REWARD_RATE = Ok st
    /\ _getTierForAmount st (100 * 10 ^ 18) = BRONZE
    /\ _getTierForAmount st (499 * 10 ^ 18) = BRONZE
    /\ _getTierForAmount st (500 * 10 ^ 18) = SILVER
    /\ _getTierForAmount st (1500 * 10 ^ 18) = DIAMOND
    /\ _getTierForAmount st 0 = FREE.
Proof.
  eexists. split; [reflexivity|].
  apply (proj2 (proj2 (tier_assignment _))
           1 200 100 ALOToken.empty REWARD_RATE).
  reflexivity.
Defined.

Lemma calculateRewards_zero (now : N) (user : address) (st : State) :
  amount (stakeOf st user) = 0 -> calculateRewards now user st = Ok 0.
Proof. intros H. unfold calculateRewards. by rewrite H. Qed.

(** The value of calculateRewards when no step overflows. *)
Lemma calculateRewards_value (now : N) (user : address) (st : State) :
  let s := stakeOf st user in
  let m := multiplier (tierConfigs st (tier s)) in
  let elapsed := now - lastClaimTime s in
  amount s <> 0 ->
  lastClaimTime s <= now ->
  amount s * rewardRate st <= MAX_UINT256 ->
  amount s * rewardRate st * elapsed <= MAX_UINT256 ->
  amount s * rewardRate st * elapsed / 10 ^ 18 * m <= MAX_UINT256 ->
  calculateRewards now user st
  = Ok (amount s * rewardRate st * elapsed / 10 ^ 18 * m / 10000).
Proof.
  intros s m elapsed Ha Ht H1 H2 H3. unfold calculateRewards.
  fold s. destruct (N.eqb_spec (amount s) 0) as [|_]; [congruence|].
  rewrite sub_fits by assumption. cbn [Evm.bind].
  rewrite mul_fits by assumption. cbn [Evm.bind].
  fold elapsed. rewrite mul_fits by assumption. cbn [Evm.bind].
  unfold div at 1. change (10 ^ 18 =? 0) with false. cbn [Evm.bind].
  fold m. rewrite mul_fits by assumption. cbn [Evm.bind].
  reflexivity.
Qed.

(** C3, as amended. For a non-zero stake: CalculateRewards reverts when the
    current time is before lastClaimTime, and when one of the products
    amount * rewardRate, amount * rewardRate * elapsed or
    (amount * rewardRate * elapsed / 10^18) * multiplier exceeds 2^256-1.
    Otherwise it returns
    ((amount * rewardRate * elapsed) / 10^18) * multiplier / 10000,
    the amount being in base units and both divisions truncating. The result
    is never above the exact quotient. For a stake of [k] whole tokens it is
    floor(k * rewardRate * elapsed * multiplier / 10000); for 1,000 tokens
    at multiplier 12500 over 86,400 seconds that is
    floor(1000 * R * 86400 * 12500 / 10000). *)
Theorem calculateRewards_formula (now : N) (user : address) (st : State) :
  let s := stakeOf st user in
  let m := multiplier (tierConfigs st (tier s)) in
  let elapsed := now - lastClaimTime s in
  amount s <> 0 ->
  (now < lastClaimTime s -> calculateRewards now user st = Err Panic)
  /\ (lastClaimTime s <= now ->
      MAX_UINT256 < amount s * rewardRate st
      \/ MAX_UINT256 < amount s * rewardRate st * elapsed
      \/ MAX_UINT256 < amount s * rewardRate st * elapsed / 10 ^ 18 * m ->
      calculateRewards now user st = Err Panic)
  /\ (lastClaimTime s <= now ->
      amount s * rewardRate st <= MAX_UINT256 ->
      amount s * rewardRate st * elapsed <= MAX_UINT256 ->
      amount s * rewardRate st * elapsed / 10 ^ 18 * m <= MAX_UINT256 ->
      exists r,
        calculateRewards now user st = Ok r
        /\ r = amount s * rewardRate st * elapsed / 10 ^ 18 * m / 10000
        /\ r * (10 ^ 18 * 10000) <= amount s * rewardRate st * elapsed * m
        /\ (forall k, amount s = k * 10 ^ 18 ->
            r = k * rewardRate st * elapsed * m / 10000)
        /\ (amount s = 1000 * 10 ^ 18 -> m = 12500 -> elapsed = 86400 ->
            r = 1000 * rewardRate st * 86400 * 12500 / 10000)).
Proof.
  intros s m elapsed Ha. split; [|split].
  { intros Hlt. unfold calculateRewards. fold s.
    destruct (N.eqb_spec (amount s) 0) as [|_]; [congruence|].
    by rewrite sub_short. }
  { intros Ht Hover. unfold calculateRewards. fold s.
    destruct (N.eqb_spec (amount s) 0) as [|_]; [congruence|].
    rewrite sub_fits by assumption. cbn [Evm.bind]. fold elapsed.
    destruct (N.le_gt_cases (amount s * rewardRate st) MAX_UINT256)
      as [H1|H1]; [|by rewrite mul_over].
    rewrite mul_fits by assumption. cbn [Evm.bind].
    destruct (N.le_gt_cases (amount s * rewardRate st * elapsed) MAX_UINT256)
      as [H2|H2]; [|by rewrite mul_over].
    rewrite mul_fits by assumption. cbn [Evm.bind].
    unfold div at 1. change (10 ^ 18 =? 0) with false. cbn [Evm.bind].
    fold m.
    destruct (N.le_gt_cases
                (amount s * rewardRate st * elapsed / 10 ^ 18 * m)
                MAX_UINT256) as [H3|H3]; [|by rewrite mul_over].
    exfalso. clear - Hover H1 H2 H3. lia. }
  intros Ht H1 H2 H3.
  eexists. split; [by apply calculateRewards_value|].
  split; [reflexivity|].
  assert (Hk : forall k, amount s = k * 10 ^ 18 ->
             amount s * rewardRate st * elapsed / 10 ^ 18 * m / 10000
             = k * rewardRate st * elapsed * m / 10000).
  { intros k Hk. rewrite Hk.
    replace (k * 10 ^ 18 * rewardRate st * elapsed)
      with (k * rewardRate st * elapsed * 10 ^ 18) by lia.
    rewrite N.div_mul by discriminate. reflexivity. }
  split; [|split].
  - clear Hk H1 H2 H3. subst s m elapsed. cbv zeta.
    set (m := multiplier _).
    set (p := amount _ * rewardRate st * _).
    pose proof (N.Div0.mul_div_le p (10 ^ 18)) as Hp.
    pose proof (N.Div0.mul_div_le (p / 10 ^ 18 * m) 10000) as Hq.
    set (b := p / 10 ^ 18) in *. set (r := b * m / 10000) in *.
    set (c := 10 ^ 18) in *. clearbody r b p c m.
    pose proof (N.mul_le_mono_r _ _ c Hq) as Hq'.
    pose proof (N.mul_le_mono_r _ _ m Hp) as Hp'.
    lia.
  - exact Hk.
  - intros Hamt Hm He. etransitivity; [exact (Hk 1000 Hamt)|].
    rewrite Hm, He. reflexivity.
Qed.

Lemma claimRewards_no_stake (sender now : N) (st : State) :
  amount (stakeOf st sender) = 0 ->
  claimRewards sender now st = Err (Revert "No active stake").
Proof.
  intros H. unfold claimRewards, _claimRewards. by rewrite H.
Qed.

(** What a successful claim of a positive reward did. *)
Lemma _claimRewards_paid (now : N) (user : address) (st st' : State) (r : N) :
  calculateRewards now user st = Ok r -> 0 < r ->
  _claimRewards now user st = Ok st' ->
  totalStaked st + r <= ALOToken.balanceOf (aloToken st) (this st)
  /\ ALOToken.transfer (this st) user r (aloToken st) = Ok (aloToken st')
  /\ stakeOf st' user
     = mkStakeInfo (amount (stakeOf st user)) (startTime (stakeOf st user))
         now (tier (stakeOf st user)) (rewardDebt (stakeOf st user) + r)
  /\ (forall u, u <> user -> stakeOf st' u = stakeOf st u)
  /\ this st' = this st
  /\ totalStaked st' = totalStaked st
  /\ tierConfigs st' = tierConfigs st
  /\ rewardRate st' = rewardRate st
  /\ tierStakers st' = tierStakers st
  /\ tierTotalStaked st' = tierTotalStaked st.
Proof.
  intros Hc Hr H. unfold _claimRewards in H.
  bind_inv H as u Eu. rewrite Hc in H. cbn [Evm.bind] in H.
  destruct (N.ltb_spec 0 r) as [_|]; [|lia].
  rewrite !stakeOf_set_stake in H.
  bind_inv H as rd Erd. apply add_Ok in Erd as [-> _].
  bind_inv H as need En. apply add_Ok in En as [-> _].
  bind_inv H as u' Ereq. apply require_Ok, N.leb_le in Ereq.
  bind_inv H as tok Etok. injection H as <-.
  split; [exact Ereq|]. split; [exact Etok|].
  split.
  { change (stakeOf (set_aloToken ?s tok) user) with (stakeOf s user).
    rewrite stakeOf_set_stake. reflexivity. }
  split; [|repeat split].
  intros v Hv.
  change (stakeOf (set_aloToken ?s tok) v) with (stakeOf s v).
  by rewrite !stakeOf_set_stake_ne.
Qed.

(** C7, as amended. ClaimRewards with a zero stake fails with
    "No active stake". With a non-zero stake it computes the pending reward
    since lastClaimTime: if the reward is zero the call succeeds and changes
    nothing, lastClaimTime included; if the reward is positive and the
    token balance of the contract is below totalStaked plus the reward, the
    call fails; if computing the reward overflows, the call fails; if the
    reward is positive and the call succeeds, the
    reward is transferred from the contract to the caller (exactly that
    amount when the contract is fee-exempt), lastClaimTime becomes the
    current time and rewardDebt grows by the reward. *)
Theorem claimRewards_spec (sender now : N) (st : State) :
  (amount (stakeOf st sender) = 0 ->
   claimRewards sender now st = Err (Revert "No active stake"))
  /\ (forall e,
        amount (stakeOf st sender) <> 0 ->
        calculateRewards now sender st = Err e ->
        claimRewards sender now st = Err e)
  /\ (forall r,
        amount (stakeOf st sender) <> 0 ->
        calculateRewards now sender st = Ok r ->
        (r = 0 -> claimRewards sender now st = Ok st)
        /\ (0 < r ->
            ALOToken.balanceOf (aloToken st) (this st) < totalStaked st + r ->
            is_Err (claimRewards sender now st))
        /\ (0 < r -> forall st',
            claimRewards sender now st = Ok st' ->
            totalStaked st + r
            <= ALOToken.balanceOf (aloToken st) (this st)
            /\ ALOToken.transfer (this st) sender r (aloToken st)
               = Ok (aloToken st')
            /\ lastClaimTime (stakeOf st' sender) = now
            /\ rewardDebt (stakeOf st' sender)
               = rewardDebt (stakeOf st sender) + r
            /\ amount (stakeOf st' sender) = amount (stakeOf st sender)
            /\ totalStaked st' = totalStaked st
            /\ (ALOToken.Inv (aloToken st) ->
                ALOToken.excluded (aloToken st) (this st) = true ->
                sender <> this st ->
                ALOToken.balanceOf (aloToken st') sender
                = ALOToken.balanceOf (aloToken st) sender + r
                /\ ALOToken.balanceOf (aloToken st') (this st)
                   = ALOToken.balanceOf (aloToken st) (this st) - r))).
Proof.
  split; [apply claimRewards_no_stake|]. split.
  { intros e Ha Hc. unfold claimRewards, _claimRewards.
    destruct (N.ltb_spec 0 (amount (stakeOf st sender))) as [_|]; [|lia].
    cbn [require Evm.bind]. by rewrite Hc. }
  intros r Ha Hc. split; [|split].
  - intros ->. unfold claimRewards, _claimRewards.
    destruct (N.ltb_spec 0 (amount (stakeOf st sender))) as [_|]; [|lia].
    cbn [require Evm.bind]. rewrite Hc. reflexivity.
  - intros Hr Hlow. unfold claimRewards, _claimRewards.
    destruct (N.ltb_spec 0 (amount (stakeOf st sender))) as [_|]; [|lia].
    cbn [require Evm.bind]. rewrite Hc. cbn [Evm.bind].
    destruct (N.ltb_spec 0 r) as [_|]; [|lia].
    rewrite !stakeOf_set_stake.
    destruct (add (rewardDebt _) r) as [rd|e]; [|by eexists].
    cbn [Evm.bind].
    change (totalStaked (set_stake _ _ _)) with (totalStaked st).
    destruct (add (totalStaked st) r) as [need|e] eqn:En; [|by eexists].
    apply add_Ok in En as [-> _]. cbn [Evm.bind].
    change (ALOToken.balanceOf (aloToken (set_stake ?s _ _)) (this _))
      with (ALOToken.balanceOf (aloToken st) (this st)).
    destruct (N.leb_spec (totalStaked st + r)
                (ALOToken.balanceOf (aloToken st) (this st))) as [|_]; [lia|].
    by eexists.
  - intros Hr st' H. unfold claimRewards in H.
    destruct (_claimRewards_paid _ _ _ _ _ Hc Hr H)
      as (Hpool & Htr & Hs & _ & _ & Hts & _).
    split; [exact Hpool|]. split; [exact Htr|].
    rewrite Hs. cbn [lastClaimTime rewardDebt amount].
    split; [reflexivity|]. split; [reflexivity|]. split; [reflexivity|].
    split; [exact Hts|].
    intros HI Hex Hne.
    apply ALOTokenSpec.transfer_effect in Htr; [|assumption].
    destruct Htr as (_ & _ & _ & _ & Hx).
    pose proof (Hx sender) as Hxs. pose proof (Hx (this st)) as Hxt.
    unfold ALOToken.received in Hxs, Hxt. rewrite Hex in Hxs, Hxt.
    cbn [orb] in Hxs, Hxt.
    rewrite ALOTokenSpec.credit_same in Hxs, Hxt.
    rewrite ALOTokenSpec.credit_other in Hxs, Hxt by congruence.
    clear - Hxs Hxt Hpool. lia.
Qed.

Lemma calculateRewards_formula_witness :
  (exists r,
     calculateRewards 87400 5 staked_1000 = Ok r
     /\ r = 1000 * REWARD_RATE * 86400 * 12500 / 10000
     /\ r = 1080000000000000000000)
  /\ calculateRewards 999 5 staked_1000 = Err Panic
  /\ calculateRewards 87400 5 huge_rate = Err Panic.
Proof.
  assert (Ha : amount (stakeOf staked_1000 5) <> 0)
    by (vm_compute; discriminate).
  assert (Hb : amount (stakeOf huge_rate 5) <> 0)
    by (vm_compute; discriminate).
  destruct (calculateRewards_formula 87400 5 staked_1000 Ha)
    as (_ & _ & Hval).
  destruct (calculateRewards_formula 999 5 staked_1000 Ha)
    as (Hearly & _).
  destruct (calculateRewards_formula 87400 5 huge_rate Hb)
    as (_ & Hover & _).
  split; [|split].
  - destruct Hval as (r & Hr & _ & _ & _ & Hc);
      [vm_compute; discriminate ..|].
    exists r. split; [exact Hr|].
    assert (E : r = 1000 * REWARD_RATE * 86400 * 12500 / 10000)
      by (apply Hc; vm_compute; reflexivity).
    split; [exact E|]. rewrite E. vm_compute. reflexivity.
  - apply Hearly. vm_compute. reflexivity.
  - apply Hover; [vm_compute; discriminate|].
    left. vm_compute. reflexivity.
Defined.

(** C3, as stated, fails: user 5 stakes 1505.9 tokens (DIAMOND, multiplier
    15000) at reward rate 1; one second later CalculateRewards returns 2257,
    which is neither amount * rate * seconds * multiplier / 10000 over the
    stored amount nor the single truncation of the same over whole
    tokens. And CalculateRewards returns nothing at all, for a non-zero
    stake, when a product overflows (1,000 tokens staked, reward rate
    2^200) or when the time is before lastClaimTime: it reverts. *)
Lemma calculateRewards_not_spec :
  calculateRewards 1001 5 frac_stake = Ok 2257
  /\ amount (stakeOf frac_stake 5) <> 0
  /\ calculateRewards 1001 5 frac_stake
     <> Ok (spec_reward 1001 5 frac_stake)
  /\ calculateRewards 1001 5 frac_stake
     <> Ok (spec_reward_tokens 1001 5 frac_stake)
  /\ amount (stakeOf huge_rate 5) <> 0
  /\ calculateRewards 87400 5 huge_rate = Err Panic
  /\ amount (stakeOf staked_1000 5) <> 0
  /\ calculateRewards 999 5 staked_1000 = Err Panic.
Proof. vm_compute. repeat split; discriminate. Qed.

Lemma claimRewards_spec_witness :
  exists st',
    claimRewards 5 87400 staked_1000 = Ok st'
    /\ lastClaimTime (stakeOf st' 5) = 87400
    /\ ALOToken.balanceOf (aloToken st') 5
       = ALOToken.balanceOf (aloToken staked_1000) 5
         + 1080000000000000000000
    /\ claimRewards 6 87400 staked_1000 = Err (Revert "No active stake").
Proof.
  destruct (claimRewards 5 87400 staked_1000) as [st'|e] eqn:E;
    [|vm_compute in E; discriminate E].
  exists st'. split; [reflexivity|].
  destruct (claimRewards_spec 5 87400 staked_1000) as (_ & _ & H).
  destruct (H 1080000000000000000000) as (_ & _ & H3);
    [vm_compute; discriminate | vm_compute; reflexivity |].
  destruct (H3 eq_refl st' E) as (_ & _ & Hl & _ & _ & _ & Hb).
  split; [exact Hl|]. split.
  - apply Hb; [|vm_compute; reflexivity|vm_compute; discriminate].
    unfold ALOToken.Inv.
    repeat split; vm_compute; first [reflexivity | discriminate].
  - apply (proj1 (claimRewards_spec 6 87400 staked_1000)).
    vm_compute. reflexivity.
Defined.

(** C7, as stated, fails: user 5 stakes one base unit at the reward rate of
    the tests; one second later the pending reward truncates to zero, the
    claim succeeds and lastClaimTime stays at the time of the stake. *)
Lemma claimRewards_keeps_lastClaimTime :
  amount (stakeOf dust_stake 5) <> 0
  /\ claimRewards 5 1001 dust_stake = Ok dust_stake
  /\ lastClaimTime (stakeOf dust_stake 5) = 1000
  /\ ~ (forall st', claimRewards 5 1001 dust_stake = Ok st' ->
         lastClaimTime (stakeOf st' 5) = 1001).
Proof.
  assert (H : claimRewards 5 1001 dust_stake = Ok dust_stake)
    by (vm_compute; reflexivity).
  split; [vm_compute; discriminate|]. split; [exact H|].
  split; [vm_compute; reflexivity|].
  intros Hall. specialize (Hall dust_stake H). vm_compute in Hall.
  discriminate Hall.
Qed.

(** *** The tier statistics *)
Lemma sum_stakes_set_stake (st : State) (u : address) (s : StakeInfo) :
  sum_stakes (set_stake st u s) + amount (stakeOf st u)
  = sum_stakes st + amount s.
Proof.
  unfold sum_stakes, stakeOf, set_stake; cbn [stakes].
  pose proof (fold_sum_insert amount (stakes st) u s) as H.
  destruct (stakes st !! u); exact H.
Qed.

Lemma count_stakers_set_stake (st : State) (u : address) (s : StakeInfo) :
  count_stakers (set_stake st u s) + nz (stakeOf st u)
  = count_stakers st + nz s.
Proof.
  unfold count_stakers, stakeOf, set_stake; cbn [stakes].
  pose proof (fold_sum_insert nz (stakes st) u s) as H.
  destruct (stakes st !! u); exact H.
Qed.

Lemma sum_stakes_delete_stake (st : State) (u : address) :
  sum_stakes (delete_stake st u) + amount (stakeOf st u) = sum_stakes st.
Proof.
  unfold sum_stakes, stakeOf, delete_stake; cbn [stakes].
  pose proof (fold_sum_delete amount (stakes st) u) as H.
  destruct (stakes st !! u); exact H.
Qed.

Lemma count_stakers_delete_stake (st : State) (u : address) :
  count_stakers (delete_stake st u) + nz (stakeOf st u) = count_stakers st.
Proof.
  unfold count_stakers, stakeOf, delete_stake; cbn [stakes].
  pose proof (fold_sum_delete nz (stakes st) u) as H.
  destruct (stakes st !! u); exact H.
Qed.

Lemma sum_tiers_insert (f : Tier -> N) (t : Tier) (v : N) :
  sum_tiers (<[t:=v]> f) + f t = sum_tiers f + v.
Proof.
  unfold sum_tiers, insert, fn_insert. destruct t; simpl; lia.
Qed.

Lemma nz_amount (s s' : StakeInfo) : amount s = amount s' -> nz s = nz s'.
Proof. unfold nz. by intros ->. Qed.

Lemma set_stake_same_amount (st : State) (u : address) (s : StakeInfo) :
  amount s = amount (stakeOf st u) ->
  sum_stakes (set_stake st u s) = sum_stakes st
  /\ count_stakers (set_stake st u s) = count_stakers st.
Proof.
  intros H. pose proof (sum_stakes_set_stake st u s).
  pose proof (count_stakers_set_stake st u s).
  rewrite (nz_amount _ _ H) in *. lia.
Qed.

(** Settling rewards changes no amount, tier or counter. *)
Lemma _claimRewards_stats (now : N) (user : address) (st st' : State) :
  _claimRewards now user st = Ok st' ->
  sum_stakes st' = sum_stakes st
  /\ count_stakers st' = count_stakers st
  /\ totalStaked st' = totalStaked st
  /\ tierStakers st' = tierStakers st
  /\ amount (stakeOf st' user) = amount (stakeOf st user).
Proof.
  unfold _claimRewards. intros H.
  bind_inv H as u Eu. bind_inv H as r Er.
  destruct (0 <? r); [|by injection H as <-].
  bind_inv H as rd Erd. bind_inv H as need En. bind_inv H as u' Ereq.
  bind_inv H as tok Etok. injection H as <-.
  rewrite !stakeOf_set_stake.
  set (s1 := with_lastClaimTime (stakeOf st user) now).
  set (st1 := set_stake st user s1).
  set (s2 := with_rewardDebt s1 rd).
  change (stakeOf (set_aloToken ?s tok) user) with (stakeOf s user).
  rewrite stakeOf_set_stake.
  destruct (set_stake_same_amount st user s1 eq_refl) as [A1 B1].
  fold st1 in A1, B1.
  assert (Hs1 : amount s2 = amount (stakeOf st1 user))
    by (unfold st1; by rewrite stakeOf_set_stake).
  destruct (set_stake_same_amount st1 user s2 Hs1) as [A2 B2].
  change (sum_stakes (set_aloToken ?s tok)) with (sum_stakes s).
  change (count_stakers (set_aloToken ?s tok)) with (count_stakers s).
  repeat split; try congruence.
Qed.

Lemma nz_pos (s : StakeInfo) : amount s <> 0 -> nz s = 1.
Proof. unfold nz. intros H. by destruct (N.eqb_spec (amount s) 0). Qed.

Lemma nz_zero (s : StakeInfo) : amount s = 0 -> nz s = 0.
Proof. unfold nz. by intros ->. Qed.

Lemma stake_stats (sender now amt : N) (st st' : State) :
  stake sender now amt st = Ok st' -> stats_ok st -> stats_ok st'.
Proof.
  unfold stake. intros H [J1 J2].
  bind_inv H as u0 E0. apply require_Ok, N.ltb_lt in E0.
  bind_inv H as st1 E1.
  assert (M1 : sum_stakes st1 = sum_stakes st
               /\ count_stakers st1 = count_stakers st
               /\ totalStaked st1 = totalStaked st
               /\ tierStakers st1 = tierStakers st
               /\ amount (stakeOf st1 sender) = amount (stakeOf st sender)).
  { destruct (N.ltb_spec 0 (amount (stakeOf st sender))) as [Hpos|Hz].
    - by apply _claimRewards_stats in E1.
    - injection E1 as <-.
      rewrite stakeOf_set_stake.
      set (s1 := with_startTime (stakeOf st sender) now).
      destruct (set_stake_same_amount st sender s1 eq_refl) as [A1 B1].
      set (st0 := set_stake st sender s1) in *.
      set (s2 := with_lastClaimTime s1 now).
      assert (Hs2 : amount s2 = amount (stakeOf st0 sender))
        by (unfold st0; by rewrite stakeOf_set_stake).
      destruct (set_stake_same_amount st0 sender s2 Hs2) as [A2 B2].
      rewrite stakeOf_set_stake.
      repeat split; try congruence. }
  destruct M1 as (A1 & B1 & C1 & D1 & F1).
  bind_inv H as tok Etok.
  change (stakeOf (set_aloToken st1 tok) sender) with (stakeOf st1 sender) in H.
  bind_inv H as a Ea. apply add_Ok in Ea as [-> _].
  rewrite !stakeOf_set_stake in H.
  set (old := stakeOf st1 sender) in *.
  set (st2 := set_aloToken st1 tok) in *.
  set (s3 := with_amount old (amount old + amt)) in *.
  set (st3 := set_stake st2 sender s3) in *.
  set (newTier := _getTierForAmount st3 (amount s3)) in *.
  set (s4 := with_tier s3 newTier) in *.
  set (st4 := set_stake st3 sender s4) in *.
  assert (Hst3 : stakeOf st3 sender = s3)
    by (unfold st3; apply stakeOf_set_stake).
  assert (A4 : sum_stakes st4 = sum_stakes st1 + amt).
  { pose proof (sum_stakes_set_stake st3 sender s4) as P4.
    pose proof (sum_stakes_set_stake st2 sender s3) as P3.
    rewrite Hst3 in P4.
    change (set_stake st3 sender s4) with st4 in P4.
    change (set_stake st2 sender s3) with st3 in P3.
    change (sum_stakes st2) with (sum_stakes st1) in P3.
    change (stakeOf st2 sender) with old in P3.
    change (amount s4) with (amount old + amt) in P4.
    change (amount s3) with (amount old + amt) in P3, P4.
    lia. }
  assert (B4 : count_stakers st4 + nz old = count_stakers st1 + 1).
  { pose proof (count_stakers_set_stake st3 sender s4) as P4.
    pose proof (count_stakers_set_stake st2 sender s3) as P3.
    rewrite Hst3 in P4.
    change (set_stake st3 sender s4) with st4 in P4.
    change (set_stake st2 sender s3) with st3 in P3.
    change (count_stakers st2) with (count_stakers st1) in P3.
    change (stakeOf st2 sender) with old in P3.
    assert (N3 : nz s3 = 1) by (apply nz_pos; cbn; lia).
    assert (N4 : nz s4 = 1) by (apply nz_pos; cbn; lia).
    lia. }
  assert (T4 : tierStakers st4 = tierStakers st)
    by (rewrite <- D1; reflexivity).
  assert (C4 : totalStaked st4 = totalStaked st)
    by (rewrite <- C1; reflexivity).
  assert (F4 : nz old = nz (stakeOf st sender)) by (by apply nz_amount).
  assert (Hold : amount old = 0 -> nz old = 0) by apply nz_zero.
  assert (Hold' : amount old <> 0 -> nz old = 1) by apply nz_pos.
  clearbody st4 newTier old.
  bind_inv H as st5 E5.
  assert (M5 : stakes st5 = stakes st4
               /\ totalStaked st5 = totalStaked st
               /\ sum_tiers (tierStakers st5) + nz old
                  = sum_tiers (tierStakers st) + 1).
  { destruct (N.eqb_spec (amount old) 0) as [Hz|Hnz].
    - bind_inv E5 as n En. apply add_Ok in En as [-> _]. injection E5 as <-.
      cbn [stakes totalStaked tierStakers set_tierStakers].
      pose proof (sum_tiers_insert (tierStakers st4) newTier
                    (tierStakers st4 newTier + 1)) as P.
      rewrite T4 in *. rewrite (Hold Hz).
      split; [done|]. split; [exact C4|]. lia.
    - rewrite (Hold' Hnz).
      destruct (decide (tier old = newTier)) as [Heq|Hne].
      + rewrite bool_decide_eq_true_2 in E5 by done. injection E5 as <-.
        rewrite T4. split; [done|]. split; [exact C4|]. done.
      + rewrite bool_decide_eq_false_2 in E5 by done. cbn [negb] in E5.
        bind_inv E5 as n1 En1. apply sub_Ok in En1 as [-> Hge].
        bind_inv E5 as n2 En2. apply add_Ok in En2 as [-> _].
        bind_inv E5 as v Ev. injection E5 as <-.
        cbn [stakes totalStaked tierStakers set_tierStakers
               set_tierTotalStaked] in *.
        rewrite T4 in *.
        set (f0 := tierStakers st) in *.
        pose proof (sum_tiers_insert f0 (tier old) (f0 (tier old) - 1)) as P1.
        set (f1 := <[tier old := f0 (tier old) - 1]> f0) in *.
        pose proof (sum_tiers_insert f1 newTier (f1 newTier + 1)) as P2.
        split; [done|]. split; [exact C4|]. lia. }
  destruct M5 as (S5 & T5 & K5).
  bind_inv H as v Ev. bind_inv H as ts Ets. apply add_Ok in Ets as [-> _].
  injection H as <-.
  unfold stats_ok, sum_stakes, count_stakers.
  cbn [stakes totalStaked tierStakers set_totalStaked set_tierTotalStaked].
  rewrite S5, T5.
  fold (sum_stakes st4). fold (count_stakers st4).
  split; lia.
Qed.

Lemma unstake_stats (sender now amt : N) (st st' : State) :
  unstake sender now amt st = Ok st' -> stats_ok st -> stats_ok st'.
Proof.
  unfold unstake. intros H [J1 J2].
  bind_inv H as u0 E0. apply require_Ok, N.leb_le in E0.
  bind_inv H as u1 E0'. apply require_Ok, N.ltb_lt in E0'.
  bind_inv H as st1 E1. apply _claimRewards_stats in E1.
  destruct E1 as (A1 & B1 & C1 & D1 & F1).
  bind_inv H as a Ea. apply sub_Ok in Ea as [-> Hle].
  rewrite !stakeOf_set_stake in H.
  set (old := stakeOf st1 sender) in *.
  set (s2 := with_amount old (amount old - amt)) in *.
  set (st2 := set_stake st1 sender s2) in *.
  set (newTier := _getTierForAmount st2 (amount s2)) in *.
  assert (Hst2 : stakeOf st2 sender = s2)
    by (unfold st2; apply stakeOf_set_stake).
  pose proof (sum_stakes_set_stake st1 sender s2) as P2s.
  pose proof (count_stakers_set_stake st1 sender s2) as P2c.
  change (set_stake st1 sender s2) with st2 in P2s, P2c.
  change (stakeOf st1 sender) with old in P2s, P2c.
  change (amount s2) with (amount old - amt) in P2s.
  assert (T2 : tierStakers st2 = tierStakers st)
    by (rewrite <- D1; reflexivity).
  assert (C2 : totalStaked st2 = totalStaked st)
    by (rewrite <- C1; reflexivity).
  assert (Nold : nz old = 1) by (apply nz_pos; lia).
  assert (Ns2 : amount s2 = amount old - amt) by reflexivity.
  clearbody st2 newTier.
  bind_inv H as st5 E5.
  assert (M5 : sum_stakes st5 = sum_stakes st2
               /\ totalStaked st5 = totalStaked st
               /\ sum_tiers (tierStakers st5) = count_stakers st5).
  { destruct (N.eqb_spec (amount s2) 0) as [Hz|Hnz].
    - bind_inv E5 as n En. apply sub_Ok in En as [-> Hge].
      injection E5 as <-.
      pose proof (sum_stakes_delete_stake
                    (set_tierStakers st2 (tier old)
                       (tierStakers st2 (tier old) - 1)) sender) as Pd.
      pose proof (count_stakers_delete_stake
                    (set_tierStakers st2 (tier old)
                       (tierStakers st2 (tier old) - 1)) sender) as Pc.
      change (stakeOf (set_tierStakers st2 ?t ?n) sender)
        with (stakeOf st2 sender) in Pd, Pc.
      change (sum_stakes (set_tierStakers st2 ?t ?n))
        with (sum_stakes st2) in Pd.
      change (count_stakers (set_tierStakers st2 ?t ?n))
        with (count_stakers st2) in Pc.
      rewrite Hst2 in Pd, Pc. rewrite (nz_zero s2 Hz) in Pc, P2c.
      rewrite Hz in Pd.
      pose proof (sum_tiers_insert (tierStakers st2) (tier old)
                    (tierStakers st2 (tier old) - 1)) as P.
      cbn [totalStaked tierStakers delete_stake set_tierStakers].
      rewrite T2 in *. split; [lia|]. split; [exact C2|]. lia.
    - rewrite (nz_pos s2 Hnz) in P2c.
      destruct (decide (tier old = newTier)) as [Heq|Hne].
      + rewrite bool_decide_eq_true_2 in E5 by done. injection E5 as <-.
        rewrite T2. split; [done|]. split; [exact C2|]. lia.
      + rewrite bool_decide_eq_false_2 in E5 by done. cbn [negb] in E5.
        bind_inv E5 as n1 En1. apply sub_Ok in En1 as [-> Hge].
        bind_inv E5 as n2 En2. apply add_Ok in En2 as [-> _].
        bind_inv E5 as v Ev. injection E5 as <-.
        set (st3 := set_tierTotalStaked _ newTier v).
        assert (Hst3 : stakeOf st3 sender = s2) by exact Hst2.
        rewrite Hst3.
        assert (Hs : amount (with_tier s2 newTier) = amount (stakeOf st3 sender))
          by (by rewrite Hst3).
        destruct (set_stake_same_amount st3 sender (with_tier s2 newTier) Hs)
          as [As Bs].
        rewrite As, Bs.
        change (sum_stakes st3) with (sum_stakes st2).
        change (count_stakers st3) with (count_stakers st2).
        cbn [totalStaked tierStakers set_stake].
        unfold st3.
        cbn [totalStaked tierStakers set_tierStakers set_tierTotalStaked].
        rewrite T2 in *.
        set (f0 := tierStakers st) in *.
        pose proof (sum_tiers_insert f0 (tier old) (f0 (tier old) - 1)) as P1.
        set (f1 := <[tier old := f0 (tier old) - 1]> f0) in *.
        pose proof (sum_tiers_insert f1 newTier (f1 newTier + 1)) as P2.
        split; [done|]. split; [exact C2|]. lia. }
  destruct M5 as (S5 & T5 & K5).
  bind_inv H as v Ev. bind_inv H as ts Ets. apply sub_Ok in Ets as [-> Hts].
  bind_inv H as tok Etok. injection H as <-.
  unfold stats_ok.
  change (sum_stakes (set_aloToken (set_totalStaked
            (set_tierTotalStaked st5 ?t ?x) ?y) tok))
    with (sum_stakes st5).
  change (count_stakers (set_aloToken (set_totalStaked
            (set_tierTotalStaked st5 ?t ?x) ?y) tok))
    with (count_stakers st5).
  cbn [totalStaked tierStakers set_aloToken set_totalStaked
         set_tierTotalStaked] in *.
  rewrite T5 in *. split; [lia|exact K5].
Qed.

Lemma emergencyWithdraw_stats (sender : N) (st st' : State) :
  emergencyWithdraw sender st = Ok st' -> stats_ok st -> stats_ok st'.
Proof.
  unfold emergencyWithdraw. intros H [J1 J2].
  bind_inv H as u0 E0. apply require_Ok, N.ltb_lt in E0.
  bind_inv H as n En. apply sub_Ok in En as [-> Hn].
  bind_inv H as v Ev.
  bind_inv H as ts Ets. apply sub_Ok in Ets as [-> Hts].
  bind_inv H as tok Etok. injection H as <-.
  set (old := stakeOf st sender) in *.
  pose proof (sum_stakes_delete_stake st sender) as Pd.
  pose proof (count_stakers_delete_stake st sender) as Pc.
  fold old in Pd, Pc. rewrite (nz_pos old) in Pc by lia.
  pose proof (sum_tiers_insert (tierStakers st) (tier old)
                (tierStakers st (tier old) - 1)) as P.
  unfold stats_ok, sum_stakes, count_stakers in *.
  cbn [stakes totalStaked tierStakers set_aloToken delete_stake
         set_totalStaked set_tierTotalStaked set_tierStakers] in *.
  split; lia.
Qed.

Lemma call_stats (sender now : N) (c : Call) (st st' : State) :
  call sender now c st = Ok st' -> stats_ok st -> stats_ok st'.
Proof.
  destruct c; simpl; intros H J.
  - by eapply stake_stats.
  - by eapply unstake_stats.
  - unfold claimRewards in H. apply _claimRewards_stats in H.
    destruct H as (A & B & C & D & _). destruct J as [J1 J2].
    unfold stats_ok. rewrite A, B, C, D. done.
  - by eapply emergencyWithdraw_stats.
  - unfold setRewardRate in H. bind_inv H as u E. by injection H as <-.
  - unfold setTierConfig in H. bind_inv H as u E. by injection H as <-.
  - unfold fundRewards in H. bind_inv H as u E. bind_inv H as tok Etok.
    by injection H as <-.
  - unfold transferOwnership in H. bind_inv H as u E.
    destruct (newOwner =? 0); [discriminate|]. by injection H as <-.
  - unfold renounceOwnership in H. bind_inv H as u E. by injection H as <-.
Qed.

Lemma exec_stats (st : State) (tx : Tx) : stats_ok st -> stats_ok (exec st tx).
Proof.
  intros J. destruct tx as [sender c|sender now c]; simpl.
  - exact J.
  - destruct (call sender now c st) eqn:E; [|exact J]. by eapply call_stats.
Qed.

Lemma run_stats (txs : list Tx) (st : State) :
  stats_ok st -> stats_ok (run txs st).
Proof.
  revert st. induction txs as [|tx txs IH]; intros st J; [exact J|].
  apply IH. by apply exec_stats.
Qed.

(** The two statistics that the code keeps right: after any sequence of
    transactions on a fresh deployment, totalStaked is the sum of the
    amounts of the stake records, and the staker counts of the tiers sum to
    the number of addresses with a non-zero stake. *)
Lemma staking_stats_hold (sender this_ tokAddr : address)
  (tok : ALOToken.State) (rate : N) (st0 : State) (txs : list Tx) :
  constructor sender this_ tokAddr tok rate = Ok st0 ->
  totalStaked (run txs st0) = sum_stakes (run txs st0)
  /\ sum_tiers (tierStakers (run txs st0)) = count_stakers (run txs st0).
Proof.
  intros H. apply run_stats. unfold constructor in H.
  destruct (sender =? 0); [discriminate|].
  bind_inv H as u E. injection H as <-.
  split; reflexivity.
Qed.

(** C1, evaluated on the code. User 5 stakes 100 tokens (BRONZE) and later
    400 more (SILVER): the stake and totalStaked are 500 tokens, the tier
    totals sum to 400. User 5 stakes 1000 tokens (PLATINUM) and later
    unstakes 900 (BRONZE): the stake and totalStaked are 100 tokens, the
    tier totals sum to 200. The staker counts are right in both. After the
    first sequence EmergencyWithdraw and a full Unstake revert. *)
Lemma tier_totals_diverge :
  (amount (stakeOf two_stakes 5) = ether 500
   /\ sum_stakes two_stakes = ether 500
   /\ totalStaked two_stakes = ether 500
   /\ tierTotalStaked two_stakes BRONZE = 0
   /\ tierTotalStaked two_stakes SILVER = ether 400
   /\ sum_tiers (tierTotalStaked two_stakes) = ether 400
   /\ sum_tiers (tierStakers two_stakes) = 1
   /\ count_stakers two_stakes = 1
   /\ emergencyWithdraw 5 two_stakes = Err Panic
   /\ unstake 5 3000 (ether 500) two_stakes = Err Panic)
  /\ (amount (stakeOf stake_unstake 5) = ether 100
      /\ sum_stakes stake_unstake = ether 100
      /\ totalStaked stake_unstake = ether 100
      /\ tierTotalStaked stake_unstake PLATINUM = ether 100
      /\ tierTotalStaked stake_unstake BRONZE = ether 100
      /\ sum_tiers (tierTotalStaked stake_unstake) = ether 200
      /\ sum_tiers (tierStakers stake_unstake) = 1
      /\ count_stakers stake_unstake = 1).
Proof. vm_compute. repeat split; reflexivity. Qed.

End ALOStakingSpec.

(** ** ALOGovernance: the state function, votes and the lifecycle *)
Module ALOGovernanceSpec.

Import ALOGovernance EvmFacts.

Lemma proposalOf_set_proposal (st : State) (i : N) (p : Proposal) :
  proposalOf (set_proposal st i p) i = p.
Proof. unfold proposalOf, set_proposal; simpl. by rewrite lookup_insert_eq. Qed.

Lemma proposalOf_set_proposal_ne (st : State) (i j : N) (p : Proposal) :
  i <> j -> proposalOf (set_proposal st i p) j = proposalOf st j.
Proof.
  intros H. unfold proposalOf, set_proposal; simpl. by rewrite lookup_insert_ne.
Qed.

Lemma state_state_at (e : Env) (proposalId : N) (st : State) :
  state e proposalId st = state_at (block_number e) proposalId st.
Proof. reflexivity. Qed.

(** The state function on an existing proposal is the decision table. *)
Lemma state_at_valid (b proposalId : N) (st : State) :
  0 < proposalId -> proposalId <= proposalCount st ->
  state_at b proposalId st = Ok (spec_state b (proposalOf st proposalId)).
Proof.
  intros H0 H1. unfold state_at, state.
  destruct (N.ltb_spec 0 proposalId) as [_|]; [|lia].
  destruct (N.leb_spec proposalId (proposalCount st)) as [_|]; [|lia].
  cbn [andb require Evm.bind block_number].
  unfold spec_state, first_match. cbn [find fst snd].
  repeat match goal with
         | |- context [if ?c then _ else _] => destruct c; [reflexivity|]
         end.
  reflexivity.
Qed.

Lemma state_at_Ok (b proposalId : N) (st : State) (s : ProposalState) :
  state_at b proposalId st = Ok s ->
  0 < proposalId /\ proposalId <= proposalCount st
  /\ s = spec_state b (proposalOf st proposalId).
Proof.
  intros H. pose proof H as H'. unfold state_at, state in H'.
  bind_inv H' as u E. apply require_Ok, andb_true_iff in E as [E0 E1].
  apply N.ltb_lt in E0. apply N.leb_le in E1.
  rewrite state_at_valid in H by assumption. injection H as <-. done.
Qed.

Lemma state_at_invalid (b proposalId : N) (st : State) :
  ~ (0 < proposalId /\ proposalId <= proposalCount st) ->
  state_at b proposalId st = Err (Revert "Invalid proposal").
Proof.
  intros H. unfold state_at, state.
  destruct (N.ltb_spec 0 proposalId);
    destruct (N.leb_spec proposalId (proposalCount st));
    try reflexivity. lia.
Qed.

(** C2. For an existing proposal the State function returns the first
    matching case of: Canceled if canceled; Executed if executed; Pending if
    block <= startBlock; Active if block <= endBlock; Defeated if
    forVotes <= againstVotes or forVotes < quorum; Succeeded otherwise. In
    particular a proposal that is neither canceled nor executed, whose
    window has closed, with forVotes above againstVotes and below the
    quorum, is Defeated. *)
Theorem state_precedence (e : Env) (proposalId : N) (st : State) :
  0 < proposalId -> proposalId <= proposalCount st ->
  let p := proposalOf st proposalId in
  state e proposalId st = Ok (spec_state (block_number e) p)
  /\ state e proposalId st
     = Ok (if canceled p then Canceled
           else if executed p then Executed
           else if block_number e <=? startBlock p then Pending
           else if block_number e <=? endBlock p then Active
           else if (forVotes p <=? againstVotes p) || (forVotes p <? quorum p)
                then Defeated
           else Succeeded)
  /\ (canceled p = false -> executed p = false ->
      startBlock p <= endBlock p -> endBlock p < block_number e ->
      againstVotes p < forVotes p -> forVotes p < quorum p ->
      state e proposalId st = Ok Defeated).
Proof.
  intros H0 H1 p. rewrite state_state_at, state_at_valid by assumption.
  fold p. split; [reflexivity|]. split.
  - unfold spec_state, first_match. cbn [find fst snd].
    repeat match goal with
           | |- context [if ?c then _ else _] => destruct c; [reflexivity|]
           end.
    reflexivity.
  - intros Hc He Hw Hb Hv Hq. unfold spec_state, first_match.
    rewrite Hc, He. cbn [find fst snd].
    destruct (N.leb_spec (block_number e) (startBlock p)); [lia|].
    destruct (N.leb_spec (block_number e) (endBlock p)); [lia|].
    destruct (N.leb_spec (forVotes p) (againstVotes p)); [lia|].
    destruct (N.ltb_spec (forVotes p) (quorum p)); [|lia].
    reflexivity.
Qed.

Lemma state_precedence_witness :
  quorum (proposalOf scenario 1) = 10000000 * 10 ^ 18
  /\ forVotes (proposalOf scenario 1) = 5000000 * 10 ^ 18
  /\ againstVotes (proposalOf scenario 1) = 0
  /\ state (mkEnv 6 22 scenario_token) 1 scenario = Ok Defeated.
Proof.
  split; [vm_compute; reflexivity|]. split; [vm_compute; reflexivity|].
  split; [vm_compute; reflexivity|].
  apply (state_precedence (mkEnv 6 22 scenario_token) 1 scenario);
    vm_compute; first [reflexivity | discriminate].
Defined.

(** C10. The State function never returns Queued. *)
Theorem state_never_Queued (e : Env) (proposalId : N) (st : State) :
  state e proposalId st <> Ok Queued.
Proof.
  unfold state.
  destruct (require _ _); cbn [Evm.bind]; [|discriminate].
  repeat match goal with
         | |- context [if ?c then _ else _] => destruct c; [discriminate|]
         end.
  discriminate.
Qed.


(** *** Receipts *)

Lemma getReceipt_set_proposal_ne (st : State) (i j : N) (p : Proposal)
  (v : address) :
  i <> j -> getReceipt j v (set_proposal st i p) = getReceipt j v st.
Proof. intros H. unfold getReceipt. by rewrite proposalOf_set_proposal_ne. Qed.

Lemma getReceipt_set_proposal (st : State) (i : N) (p : Proposal)
  (v : address) :
  receipts p = receipts (proposalOf st i) ->
  getReceipt i v (set_proposal st i p) = getReceipt i v st.
Proof.
  intros H. unfold getReceipt. rewrite proposalOf_set_proposal.
  unfold receiptOf. by rewrite H.
Qed.

(** What a successful vote did. *)
Lemma castVote_Ok (e : Env) (pid : N) (sup : VoteType) (st st' : State) :
  castVote e pid sup st = Ok st' ->
  state e pid st = Ok Active
  /\ hasVoted (getReceipt pid (msg_sender e) st) = false
  /\ 0 < getVotingPower e (msg_sender e)
  /\ getReceipt pid (msg_sender e) st'
     = mkReceipt true sup (getVotingPower e (msg_sender e))
  /\ (forall v, v <> msg_sender e ->
      getReceipt pid v st' = getReceipt pid v st)
  /\ (forall q v, q <> pid -> getReceipt q v st' = getReceipt q v st)
  /\ (forall q, q <> pid -> proposalOf st' q = proposalOf st q)
  /\ proposalCount st' = proposalCount st
  /\ canceled (proposalOf st' pid) = canceled (proposalOf st pid)
  /\ executed (proposalOf st' pid) = executed (proposalOf st pid)
  /\ startBlock (proposalOf st' pid) = startBlock (proposalOf st pid)
  /\ endBlock (proposalOf st' pid) = endBlock (proposalOf st pid).
Proof.
  unfold castVote, _castVote. intros H.
  bind_inv H as s Es. bind_inv H as u1 E1.
  apply require_Ok, bool_decide_eq_true in E1. subst s.
  bind_inv H as u2 E2. apply require_Ok, negb_true_iff in E2.
  bind_inv H as u3 E3. apply require_Ok, N.ltb_lt in E3.
  bind_inv H as p' Ep. injection H as <-.
  assert (Hp' : receipts p' = receipts (proposalOf st pid)
                /\ canceled p' = canceled (proposalOf st pid)
                /\ executed p' = executed (proposalOf st pid)
                /\ startBlock p' = startBlock (proposalOf st pid)
                /\ endBlock p' = endBlock (proposalOf st pid)).
  { destruct sup; bind_inv Ep as v Ev; injection Ep as <-; done. }
  destruct Hp' as (Hr & Hc & Hx & Hs & Hen).
  split; [exact Es|]. split; [exact E2|]. split; [exact E3|].
  split.
  { unfold getReceipt. rewrite proposalOf_set_proposal.
    unfold receiptOf, with_receipt; simpl. by rewrite lookup_insert_eq. }
  split.
  { intros v Hv. unfold getReceipt. rewrite proposalOf_set_proposal.
    unfold receiptOf, with_receipt; simpl.
    rewrite lookup_insert_ne by done. by rewrite Hr. }
  split.
  { intros q v Hq. by rewrite getReceipt_set_proposal_ne. }
  split.
  { intros q Hq. by rewrite proposalOf_set_proposal_ne. }
  rewrite proposalOf_set_proposal. done.
Qed.

(** No call changes the receipts of a proposal other than a vote on it;
    a vote adds the receipt of the voter, who had none. *)
Lemma call_receipt (e : Env) (c : Call) (st st' : State) (pid : N)
  (v : address) :
  call e c st = Ok st' ->
  hasVoted (getReceipt pid v st) = true ->
  getReceipt pid v st' = getReceipt pid v st.
Proof.
  intros H Hv. destruct c; simpl in H.
  - bind_inv H as r Er. injection H as <-.
    unfold propose in Er. bind_inv Er as u Eu. bind_inv Er as n En.
    bind_inv Er as sb Esb. bind_inv Er as eb0 Eeb0. bind_inv Er as eb Eeb.
    bind_inv Er as q0 Eq0. bind_inv Er as q Eq. injection Er as <-.
    cbn [fst]. change (proposalCount (set_proposalCount st n)) with n.
    change (getReceipt pid v st)
      with (getReceipt pid v (set_proposalCount st n)).
    destruct (decide (n = pid)) as [<-|Hne].
    + by apply getReceipt_set_proposal.
    + by rewrite getReceipt_set_proposal_ne.
  - apply castVote_Ok in H.
    destruct H as (_ & Hnv & _ & _ & Hother & Hotherp & _).
    destruct (decide (proposalId = pid)) as [->|Hne].
    + destruct (decide (v = msg_sender e)) as [->|Hne'].
      * congruence.
      * by apply Hother.
    + by apply Hotherp.
  - unfold execute in H. bind_inv H as s Es. bind_inv H as u Eu.
    injection H as <-.
    destruct (decide (proposalId = pid)) as [->|Hne].
    + by apply getReceipt_set_proposal.
    + by rewrite getReceipt_set_proposal_ne.
  - unfold cancel in H. bind_inv H as u0 E0. bind_inv H as u1 E1.
    bind_inv H as s Es. bind_inv H as u Eu. injection H as <-.
    destruct (decide (proposalId = pid)) as [->|Hne].
    + by apply getReceipt_set_proposal.
    + by rewrite getReceipt_set_proposal_ne.
  - unfold setVotingParameters in H. bind_inv H as u0 E0.
    bind_inv H as u1 E1. by injection H as <-.
  - unfold setStakingContract in H. bind_inv H as u0 E0.
    bind_inv H as u1 E1. by injection H as <-.
  - unfold transferOwnership in H. bind_inv H as u0 E0.
    destruct (newOwner =? 0); [discriminate|]. by injection H as <-.
  - unfold renounceOwnership in H. bind_inv H as u0 E0. by injection H as <-.
Qed.

Lemma run_receipt (txs : list (Env * Call)) (st : State) (pid : N)
  (v : address) :
  hasVoted (getReceipt pid v st) = true ->
  getReceipt pid v (run txs st) = getReceipt pid v st.
Proof.
  revert st. induction txs as [|[e c] txs IH]; intros st Hv; [reflexivity|].
  change (run ((e, c) :: txs) st) with (run txs (exec st (e, c))).
  unfold exec. cbn [fst snd].
  destruct (call e c st) as [st'|err] eqn:E.
  - pose proof (call_receipt _ _ _ _ pid v E Hv) as Hr.
    rewrite IH by congruence. exact Hr.
  - by apply IH.
Qed.

(** A vote by an address that has a receipt is rejected. *)
Lemma castVote_voted (e : Env) (pid : N) (sup : VoteType) (st : State) :
  hasVoted (getReceipt pid (msg_sender e) st) = true ->
  (exists err, castVote e pid sup st = Err err)
  /\ (state e pid st = Ok Active ->
      castVote e pid sup st = Err (Revert "Already voted")).
Proof.
  intros Hv. unfold castVote, _castVote.
  destruct (state e pid st) as [s|err]; cbn [Evm.bind];
    [|split; [by eexists | discriminate]].
  destruct (decide (s = Active)) as [->|Hs].
  - rewrite bool_decide_eq_true_2 by done. cbn [require Evm.bind].
    unfold getReceipt in Hv. rewrite Hv. cbn [negb require Evm.bind].
    split; [by eexists | done].
  - rewrite bool_decide_eq_false_2 by done. cbn [require Evm.bind].
    split; [by eexists | congruence].
Qed.

(** C8. Once CastVote by a voter on a proposal has succeeded, the receipt
    it recorded stays as it is through every later sequence of
    transactions, and every later CastVote by that voter on that proposal
    is rejected, whatever the vote type: with "Already voted" while the
    proposal is Active, with "Voting is closed" once it is not. *)
Theorem no_double_vote (e : Env) (pid : N) (sup : VoteType) (st st1 : State)
  (txs : list (Env * Call)) :
  castVote e pid sup st = Ok st1 ->
  getReceipt pid (msg_sender e) st1
  = mkReceipt true sup (getVotingPower e (msg_sender e))
  /\ getReceipt pid (msg_sender e) (run txs st1)
     = getReceipt pid (msg_sender e) st1
  /\ (forall e' sup', msg_sender e' = msg_sender e ->
      (exists err, castVote e' pid sup' (run txs st1) = Err err)
      /\ exec (run txs st1) (e', CCastVote pid sup') = run txs st1
      /\ (state e' pid (run txs st1) = Ok Active ->
          castVote e' pid sup' (run txs st1) = Err (Revert "Already voted"))
      /\ (forall s, state e' pid (run txs st1) = Ok s -> s <> Active ->
          castVote e' pid sup' (run txs st1)
          = Err (Revert "Voting is closed"))).
Proof.
  intros H. apply castVote_Ok in H.
  destruct H as (Hact & _ & _ & Hr & _).
  assert (Hv : hasVoted (getReceipt pid (msg_sender e) st1) = true)
    by (by rewrite Hr).
  pose proof (run_receipt txs st1 pid (msg_sender e) Hv) as Hrun.
  split; [exact Hr|]. split; [exact Hrun|].
  intros e' sup' He'.
  assert (Hv2 : hasVoted (getReceipt pid (msg_sender e') (run txs st1)) = true)
    by (rewrite He', Hrun; exact Hv).
  destruct (castVote_voted e' pid sup' (run txs st1) Hv2) as ([err Herr] & Ha).
  split; [by eexists|]. split.
  { unfold exec at 1. cbn [fst snd call]. by rewrite Herr. }
  split; [exact Ha|].
  intros s Hs Hna. unfold castVote, _castVote. rewrite Hs. cbn [Evm.bind].
  by rewrite bool_decide_eq_false_2.
Qed.

(** *** The lifecycle *)

Lemma forwardb_refl (s : ProposalState) : forwardb s s = true.
Proof. by destruct s. Qed.

Lemma forwardb_trans (a b c : ProposalState) :
  forwardb a b = true -> forwardb b c = true -> forwardb a c = true.
Proof. by destruct a, b, c. Qed.

Lemma forwardb_antisym (a b : ProposalState) :
  forwardb a b = true -> forwardb b a = true -> a = b.
Proof. by destruct a, b. Qed.

Lemma forwardb_forward (s s' : ProposalState) :
  forwardb s s' = true -> forward s s'.
Proof.
  unfold forward.
  assert (HC : forall x, x <> Executed -> rtc lifecycle x Canceled).
  { intros x Hx. apply rtc_once. by constructor. }
  destruct s, s'; intros H; try discriminate H;
    try apply rtc_refl; try (by apply HC).
  - apply rtc_once; constructor.
  - eapply rtc_l; [apply L_pending_active|]. apply rtc_once; constructor.
  - eapply rtc_l; [apply L_pending_active|]. apply rtc_once; constructor.
  - eapply rtc_l; [apply L_pending_active|].
    eapply rtc_l; [apply L_active_succeeded|]. apply rtc_once; constructor.
  - apply rtc_once; constructor.
  - apply rtc_once; constructor.
  - eapply rtc_l; [apply L_active_succeeded|]. apply rtc_once; constructor.
  - apply rtc_once; constructor.
Qed.

Lemma forward_forwardb (s s' : ProposalState) :
  forward s s' -> forwardb s s' = true.
Proof.
  induction 1 as [x|x y z Hxy _ IH]; [apply forwardb_refl|].
  eapply forwardb_trans; [|exact IH].
  destruct Hxy; try reflexivity. by destruct s.
Qed.

(** Forward is an order: two states that are forward of each other are
    equal, so a move forward is never undone. *)
Lemma forward_antisym (s s' : ProposalState) :
  forward s s' -> forward s' s -> s = s'.
Proof.
  intros H1 H2. apply forwardb_antisym; by apply forward_forwardb.
Qed.

Lemma time_move_forwardb (s s' : ProposalState) :
  time_move s s' -> forwardb s s' = true.
Proof.
  intros [H|[[H1 H2]|[H1 H2]]]; subst.
  - apply forwardb_refl.
  - destruct H2 as [H|[H|H]]; by subst.
  - destruct H2 as [H|H]; by subst.
Qed.

Lemma tx_move_forwardb (c : Call) (pid : N) (s s' : ProposalState) :
  tx_move c pid s s' -> forwardb s s' = true.
Proof.
  intros [H|[[_ [H1 H2]]|[_ [H1 H2]]]]; subst.
  - apply forwardb_refl.
  - reflexivity.
  - by destruct s.
Qed.

(** The passage of blocks alone moves a proposal forward. *)
Lemma state_at_later (b b' proposalId : N) (st : State) (s : ProposalState) :
  b <= b' -> state_at b proposalId st = Ok s ->
  exists s', state_at b' proposalId st = Ok s' /\ time_move s s'.
Proof.
  intros Hb H. apply state_at_Ok in H as (H0 & H1 & ->).
  rewrite state_at_valid by assumption. eexists; split; [reflexivity|].
  unfold spec_state, first_match. cbn [find fst snd].
  destruct (canceled _); [by left|].
  destruct (executed _); [by left|].
  cbn [fmap option_fmap option_map default snd].
  set (p := proposalOf st proposalId).
  unfold time_move.
  destruct (N.leb_spec b (startBlock p)), (N.leb_spec b' (startBlock p));
    destruct (N.leb_spec b (endBlock p)), (N.leb_spec b' (endBlock p));
    try lia;
    destruct ((forVotes p <=? againstVotes p) || (forVotes p <? quorum p));
    cbn [find fst snd fmap option_fmap option_map default]; tauto.
Qed.

(** What a successful call made at height [block_number e] does to an
    existing proposal, as seen at that height. *)
Lemma call_move (e : Env) (c : Call) (st st' : State) (pid : N)
  (s : ProposalState) :
  call e c st = Ok st' ->
  state_at (block_number e) pid st = Ok s ->
  exists s', state_at (block_number e) pid st' = Ok s' /\ tx_move c pid s s'.
Proof.
  intros H Hs. pose proof Hs as Hs'. apply state_at_Ok in Hs' as (H0 & H1 & Hspec).
  assert (Hsame : forall c0 st2,
             proposalCount st <= proposalCount st2 ->
             proposalOf st2 pid = proposalOf st pid ->
             exists s', state_at (block_number e) pid st2 = Ok s'
                        /\ tx_move c0 pid s s').
  { intros c0 st2 Hc Hp. exists s. split; [|by left].
    rewrite state_at_valid by lia. by rewrite Hp, Hspec. }
  destruct c; simpl in H.
  - bind_inv H as r Er. injection H as <-.
    unfold propose in Er. bind_inv Er as u Eu. bind_inv Er as n En.
    apply add_Ok in En as [-> _].
    bind_inv Er as sb Esb. bind_inv Er as eb0 Eeb0. bind_inv Er as eb Eeb.
    bind_inv Er as q0 Eq0. bind_inv Er as q Eq. injection Er as <-.
    cbn [fst]. apply Hsame.
    + cbn. lia.
    + rewrite proposalOf_set_proposal_ne by (cbn; lia). reflexivity.
  - pose proof H as Hv. apply castVote_Ok in Hv.
    destruct Hv as (Hact & _ & _ & _ & _ & _ & Hother & Hcnt & Hc & Hx & Hsb & Heb).
    destruct (decide (proposalId = pid)) as [->|Hne].
    + rewrite state_state_at, Hs in Hact. injection Hact as ->.
      exists Active. split; [|by left].
      rewrite state_at_valid by lia.
      apply state_at_Ok in Hs as (_ & _ & Hs).
      unfold spec_state, first_match in Hs |- *. cbn [find fst snd] in Hs |- *.
      rewrite Hc, Hx, Hsb, Heb.
      destruct (canceled _); [discriminate Hs|].
      destruct (executed _); [discriminate Hs|].
      destruct (block_number e <=? startBlock _); [discriminate Hs|].
      destruct (block_number e <=? endBlock _); [reflexivity|].
      cbn [fst snd] in Hs.
      destruct (_ || _); discriminate Hs.
    + apply Hsame; [lia|]. by apply Hother.
  - unfold execute in H. bind_inv H as s0 Es. bind_inv H as u Eu.
    apply require_Ok, bool_decide_eq_true in Eu. subst s0.
    injection H as <-.
    destruct (decide (proposalId = pid)) as [->|Hne].
    + rewrite state_state_at, Hs in Es. injection Es as ->.
      exists Executed. split; [|right; left; done].
      rewrite state_at_valid by (cbn; lia).
      rewrite proposalOf_set_proposal.
      unfold spec_state, first_match in Hspec |- *.
      cbn [find fst snd with_executed canceled executed] in Hspec |- *.
      destruct (canceled _); [discriminate Hspec|]. reflexivity.
    + apply Hsame; [cbn; lia|]. by rewrite proposalOf_set_proposal_ne.
  - unfold cancel in H. bind_inv H as u0 E0. bind_inv H as u1 E1.
    bind_inv H as s0 Es. bind_inv H as u Eu.
    apply require_Ok, negb_true_iff, bool_decide_eq_false in Eu.
    injection H as <-.
    destruct (decide (proposalId = pid)) as [->|Hne].
    + rewrite state_state_at, Hs in Es. injection Es as ->.
      exists Canceled. split; [|right; right; done].
      rewrite state_at_valid by (cbn; lia).
      rewrite proposalOf_set_proposal. reflexivity.
    + apply Hsame; [cbn; lia|]. by rewrite proposalOf_set_proposal_ne.
  - unfold setVotingParameters in H. bind_inv H as u0 E0.
    bind_inv H as u1 E1. injection H as <-. by apply Hsame.
  - unfold setStakingContract in H. bind_inv H as u0 E0.
    bind_inv H as u1 E1. injection H as <-. by apply Hsame.
  - unfold transferOwnership in H. bind_inv H as u0 E0.
    destruct (newOwner =? 0); [discriminate|]. injection H as <-.
    by apply Hsame.
  - unfold renounceOwnership in H. bind_inv H as u0 E0. injection H as <-.
    by apply Hsame.
Qed.

Lemma run_forward (txs : list (Env * Call)) (st : State) (b b' pid : N)
  (s : ProposalState) :
  chain b txs -> last_block b txs <= b' ->
  state_at b pid st = Ok s ->
  exists s', state_at b' pid (run txs st) = Ok s' /\ forwardb s s' = true.
Proof.
  revert st b s. induction txs as [|[e c] txs IH]; intros st b s Hch Hl Hs.
  - destruct (state_at_later _ _ _ _ _ Hl Hs) as (s' & Hs' & M).
    exists s'. split; [exact Hs'|]. by apply time_move_forwardb.
  - destruct Hch as [Hb Hch]. cbn [fst] in Hb, Hch.
    change (run ((e, c) :: txs) st) with (run txs (exec st (e, c))).
    change (last_block b ((e, c) :: txs))
      with (last_block (block_number e) txs) in Hl.
    destruct (state_at_later _ _ _ _ _ Hb Hs) as (s1 & Hs1 & F1).
    apply time_move_forwardb in F1.
    assert (Hex : exists s2, state_at (block_number e) pid (exec st (e, c)) = Ok s2
                             /\ forwardb s1 s2 = true).
    { unfold exec. cbn [fst snd].
      destruct (call e c st) as [st'|err] eqn:E.
      - destruct (call_move _ _ _ _ _ _ E Hs1) as (s2 & Hs2 & M).
        exists s2. split; [exact Hs2|]. by eapply tx_move_forwardb.
      - exists s1. split; [exact Hs1|apply forwardb_refl]. }
    destruct Hex as (s2 & Hs2 & F2).
    destruct (IH _ _ _ Hch Hl Hs2) as (s' & Hs' & F3).
    exists s'. split; [exact Hs'|].
    eapply forwardb_trans; [exact F1|]. eapply forwardb_trans; eassumption.
Qed.

(** C9. Let a proposal be in state [s] at block height [b]. After any
    sequence of transactions at non-decreasing heights from [b] on
    (Propose, CastVote, Execute, Cancel and the owner's settings, reverted
    ones included), at any later height the proposal is in a state that is
    forward of [s] along Pending -> Active -> {Succeeded, Defeated},
    Succeeded -> Executed, any state but Executed -> Canceled; and it is
    not backward: if [s] is forward of the new state too, they are equal.
    Step by step: one transaction leaves the state as it is, or is an
    Execute that takes it from Succeeded to Executed, or a Cancel that takes
    it from a state other than Executed to Canceled; the passage of blocks
    takes it from Pending to Active or past the window, and from Active to
    Succeeded or Defeated. *)
Theorem state_moves_forward (st : State) (proposalId : N) :
  (forall txs b b' s,
      chain b txs -> last_block b txs <= b' ->
      state_at b proposalId st = Ok s ->
      exists s',
        state_at b' proposalId (run txs st) = Ok s'
        /\ forward s s'
        /\ (forward s' s -> s' = s))
  /\ (forall e c s,
        state e proposalId st = Ok s ->
        exists s',
          state e proposalId (exec st (e, c)) = Ok s'
          /\ tx_move c proposalId s s')
  /\ (forall b b' s,
        b <= b' -> state_at b proposalId st = Ok s ->
        exists s', state_at b' proposalId st = Ok s' /\ time_move s s').
Proof.
  split; [|split].
  - intros txs b b' s Hch Hl Hs.
    destruct (run_forward txs st b b' proposalId s Hch Hl Hs)
      as (s' & Hs' & F).
    exists s'. split; [exact Hs'|]. apply forwardb_forward in F.
    split; [exact F|]. intros F'. by apply forward_antisym.
  - intros e c s Hs. rewrite state_state_at in Hs.
    unfold exec. cbn [fst snd].
    destruct (call e c st) as [st'|err] eqn:E.
    + by eapply call_move.
    + exists s. split; [exact Hs|by left].
  - intros b b' s Hb Hs. by eapply state_at_later.
Qed.

Lemma no_double_vote_witness :
  exists st1,
    castVote (mkEnv 5 12 scenario_token) 1 For scenario_proposed = Ok st1
    /\ getReceipt 1 5 (run later_txs st1)
       = mkReceipt true For (5000000 * 10 ^ 18)
    /\ castVote (mkEnv 5 16 scenario_token) 1 Against (run later_txs st1)
       = Err (Revert "Already voted")
    /\ castVote (mkEnv 5 30 scenario_token) 1 Abstain (run later_txs st1)
       = Err (Revert "Voting is closed").
Proof.
  destruct (castVote (mkEnv 5 12 scenario_token) 1 For scenario_proposed)
    as [st1|err] eqn:E; [|vm_compute in E; discriminate E].
  exists st1. split; [reflexivity|].
  destruct (no_double_vote _ _ _ _ _ later_txs E) as (Hr & Hrun & Hrej).
  split.
  { etransitivity; [exact Hrun|]. etransitivity; [exact Hr|].
    vm_compute. reflexivity. }
  split.
  - apply (Hrej (mkEnv 5 16 scenario_token) Against eq_refl).
    vm_compute in E. injection E as <-. vm_compute. reflexivity.
  - apply (proj2 (proj2 (proj2 (Hrej (mkEnv 5 30 scenario_token) Abstain eq_refl)))
             Defeated).
    + vm_compute in E. injection E as <-. vm_compute. reflexivity.
    + discriminate.
Defined.

(** C8, as stated, fails: account 5 votes For on proposal 1 at block 12;
    its second CastVote, at block 30 when the voting window is over, is
    rejected with "Voting is closed" and not with "Already voted". *)
Lemma second_vote_after_window :
  castVote (mkEnv 5 12 scenario_token) 1 For scenario_proposed = Ok scenario
  /\ hasVoted (getReceipt 1 5 scenario) = true
  /\ castVote (mkEnv 5 30 scenario_token) 1 Against scenario
     = Err (Revert "Voting is closed")
  /\ castVote (mkEnv 5 30 scenario_token) 1 Against scenario
     <> Err (Revert "Already voted").
Proof.
  split; [vm_compute; reflexivity|]. split; [vm_compute; reflexivity|].
  assert (H : castVote (mkEnv 5 30 scenario_token) 1 Against scenario
              = Err (Revert "Voting is closed"))
    by (vm_compute; reflexivity).
  split; [exact H|]. rewrite H. discriminate.
Qed.

Lemma state_moves_forward_witness :
  exists s',
    state_at 25 1
      (run [ (mkEnv 5 12 scenario_token, CCastVote 1 For);
             (mkEnv 1 22 scenario_token, CExecute 1);
             (mkEnv 1 23 scenario_token, CCancel 1) ] scenario_proposed)
    = Ok s'
    /\ forward Pending s'
    /\ s' = Canceled.
Proof.
  destruct (proj1 (state_moves_forward scenario_proposed 1)
              [ (mkEnv 5 12 scenario_token, CCastVote 1 For);
                (mkEnv 1 22 scenario_token, CExecute 1);
                (mkEnv 1 23 scenario_token, CCancel 1) ]
              10 25 Pending)
    as (s' & Hs' & F & _).
  - cbn. lia.
  - vm_compute. discriminate.
  - vm_compute. reflexivity.
  - exists s'. split; [exact Hs'|]. split; [exact F|].
    vm_compute in Hs'. by injection Hs' as <-.
Defined.

End ALOGovernanceSpec.

(** ** ALOToken: balances, allowances, fees and settings *)
Module ALOTokenProps.

Import ALOToken EvmFacts ALOTokenSpec.

Lemma reachable_Inv (st : State) : reachable st -> Inv st.
Proof.
  intros (sender & this & bw & lw & tw & st0 & txs & H & ->).
  apply run_Inv. by eapply constructor_Inv.
Qed.

Lemma genesis_reachable : reachable genesis.
Proof. exists 1, 100, 2, 3, 4, genesis, []. split; reflexivity. Qed.

Lemma funded_reachable : reachable funded.
Proof.
  exists 1, 100, 2, 3, 4, genesis, [(1, CTransfer 5 5000)].
  split; reflexivity.
Qed.

Lemma funded_Inv : Inv funded.
Proof. apply reachable_Inv, funded_reachable. Qed.

(** X1. In every storage reached from a deployment, totalSupply() is the
    sum of all balances, circulatingSupply() plus totalBurned is the minted
    supply, no balance exceeds totalSupply(), and none of the three fee
    wallets is the zero address. *)
Theorem supply_bookkeeping (st : State) :
  reachable st ->
  totalSupply st = sum_balances st
  /\ circulatingSupply st + totalBurned st = INITIAL_SUPPLY
  /\ (forall a, balanceOf st a <= totalSupply st)
  /\ buybackWallet st <> 0 /\ liquidityWallet st <> 0
  /\ treasuryWallet st <> 0.
Proof.
  intros H. apply reachable_Inv in H.
  destruct H as (Hs & Hts & Hb & Hl & Ht).
  unfold circulatingSupply, totalSupply. rewrite Hts.
  split; [reflexivity|]. split; [exact Hs|].
  split; [intros a; apply balanceOf_le_sum|]. done.
Qed.

Lemma supply_bookkeeping_witness :
  totalSupply (run [(5, CBurn 300)] funded) = INITIAL_SUPPLY - 300
  /\ circulatingSupply (run [(5, CBurn 300)] funded)
     + totalBurned (run [(5, CBurn 300)] funded) = INITIAL_SUPPLY.
Proof.
  split; [vm_compute; reflexivity|].
  apply (supply_bookkeeping (run [(5, CBurn 300)] funded)).
  exists 1, 100, 2, 3, 4, genesis, [(1, CTransfer 5 5000); (5, CBurn 300)].
  split; reflexivity.
Defined.

(** ERC20._update towards address(0), account by account. *)
Lemma ERC20_update_burn_balances (from : address) (v : N) (st st' : State) :
  from <> 0 ->
  ERC20_update from 0 v st = Ok st' ->
  balanceOf st' from = balanceOf st from - v
  /\ (forall x, x <> from -> balanceOf st' x = balanceOf st x)
  /\ _allowances st' = _allowances st
  /\ totalFees st' = totalFees st
  /\ _owner st' = _owner st
  /\ isExcludedFromFee st' = isExcludedFromFee st.
Proof.
  intros Hf H. unfold ERC20_update in H.
  destruct (N.eqb_spec from 0) as [|_]; [congruence|].
  destruct (N.ltb_spec (balanceOf st from) v) as [|Hle]; [discriminate|].
  simpl in H. injection H as <-.
  change (balanceOf (set_totalSupply ?s _)) with (balanceOf s).
  split; [|split; [|repeat split]].
  - rewrite balanceOf_set_balance. by case_decide.
  - intros x Hx. rewrite balanceOf_set_balance. by case_decide.
Qed.

Lemma ERC20_update_burn_ok (from : address) (v : N) (st : State) :
  from <> 0 -> v <= balanceOf st from ->
  exists st', ERC20_update from 0 v st = Ok st'.
Proof.
  intros Hf Hle. unfold ERC20_update.
  destruct (N.eqb_spec from 0) as [|_]; [congruence|].
  destruct (N.ltb_spec (balanceOf st from) v) as [|_]; [lia|].
  simpl. eauto.
Qed.

Lemma ERC20_update_short (from to : address) (v : N) (st : State) :
  from <> 0 -> balanceOf st from < v ->
  ERC20_update from to v st = Err (CustomError "ERC20InsufficientBalance").
Proof.
  intros Hf Hlt. unfold ERC20_update.
  destruct (N.eqb_spec from 0) as [|_]; [congruence|].
  destruct (N.ltb_spec (balanceOf st from) v) as [_|]; [|lia].
  reflexivity.
Qed.

Lemma _burn_unfold (account : address) (v : N) (st : State) :
  account <> 0 -> _burn account v st = ERC20_update account 0 v st.
Proof.
  intros Ha. unfold _burn, _update.
  destruct (N.eqb_spec account 0) as [|_]; [congruence|].
  by rewrite orb_true_r.
Qed.

(** X2. Burn in a reachable storage: it reverts with
    ERC20InsufficientBalance when the caller holds less than the amount;
    otherwise it succeeds, takes exactly the amount from the caller and
    from nobody else, lowers totalSupply() by the amount and raises
    totalBurned by it. *)
Theorem burn_spec (st : State) (sender : address) (amount : N) :
  reachable st -> sender <> 0 ->
  (balanceOf st sender < amount ->
   burn sender amount st = Err (CustomError "ERC20InsufficientBalance"))
  /\ (amount <= balanceOf st sender ->
      exists st',
        burn sender amount st = Ok st'
        /\ balanceOf st' sender = balanceOf st sender - amount
        /\ (forall x, x <> sender -> balanceOf st' x = balanceOf st x)
        /\ totalSupply st' = totalSupply st - amount
        /\ totalBurned st' = totalBurned st + amount).
Proof.
  intros HR Hs. apply reachable_Inv in HR. split.
  - intros Hlt. unfold burn. rewrite _burn_unfold by done.
    by rewrite ERC20_update_short.
  - intros Hle. unfold burn. rewrite _burn_unfold by done.
    destruct (ERC20_update_burn_ok sender amount st Hs Hle) as [st1 E].
    rewrite E. cbn [Evm.bind].
    pose proof (ERC20_update_burn _ _ _ _ Hs E)
      as (_ & Hsum & Hts & Htb & _).
    pose proof (ERC20_update_burn_balances _ _ _ _ Hs E)
      as (Hb & Hx & _).
    pose proof HR as (HI1 & HI2 & _).
    pose proof (balanceOf_le_sum st sender) as Hbs.
    pose proof (Inv_sum_max st HR) as Hmax.
    rewrite add_fits
      by (rewrite Htb; unfold INITIAL_SUPPLY, MAX_UINT256 in *; lia).
    cbn [Evm.bind]. eexists. split; [reflexivity|].
    change (balanceOf (set_totalBurned st1 _)) with (balanceOf st1).
    unfold totalSupply. cbn [_totalSupply totalBurned set_totalBurned].
    rewrite Hts, unchecked_sub_fits by lia.
    rewrite Htb. done.
Qed.

Lemma burn_spec_witness :
  burn 6 1 funded = Err (CustomError "ERC20InsufficientBalance")
  /\ exists st',
      burn 5 300 funded = Ok st'
      /\ balanceOf st' 5 = 4700
      /\ totalBurned st' = 300.
Proof.
  split.
  - apply (proj1 (burn_spec funded 6 1 funded_reachable ltac:(discriminate))).
    vm_compute. reflexivity.
  - destruct (proj2 (burn_spec funded 5 300 funded_reachable
                       ltac:(discriminate)))
      as (st' & H & Hb & _ & _ & Htb); [vm_compute; discriminate|].
    exists st'. split; [exact H|]. split; [exact Hb|exact Htb].
Defined.

(** What no movement of balances touches. *)
Lemma ERC20_update_frame (from to : address) (v : N) (st st' : State) :
  ERC20_update from to v st = Ok st' ->
  same_settings st st'
  /\ _allowances st' = _allowances st
  /\ totalBurned st' = totalBurned st
  /\ totalFees st' = totalFees st.
Proof.
  unfold ERC20_update. intros H. bind_inv H as st1 E1.
  assert (H1 : same_settings st st1 /\ _allowances st1 = _allowances st
               /\ totalBurned st1 = totalBurned st
               /\ totalFees st1 = totalFees st).
  { destruct (from =? 0).
    - bind_inv E1 as ts Ets. injection E1 as <-. repeat split.
    - destruct (balanceOf st from <? v); [discriminate|].
      injection E1 as <-. repeat split. }
  destruct H1 as ((? & ? & ? & ? & ?) & ? & ? & ?).
  destruct (to =? 0); injection H as <-; unfold same_settings; simpl;
    repeat split; congruence.
Qed.

Lemma fee_step_frame (c : bool) (from w : address) (f : N) (st st' : State) :
  (if c then ERC20_update from w f st else Ok st) = Ok st' ->
  same_settings st st'
  /\ _allowances st' = _allowances st
  /\ totalBurned st' = totalBurned st
  /\ totalFees st' = totalFees st.
Proof.
  destruct c; intros H; [by eapply ERC20_update_frame|].
  injection H as <-. repeat split.
Qed.

Lemma _update_frame (from to : address) (v : N) (st st' : State) :
  _update from to v st = Ok st' ->
  same_settings st st'
  /\ _allowances st' = _allowances st
  /\ totalBurned st' = totalBurned st.
Proof.
  unfold _update. intros H.
  destruct ((from =? 0) || (to =? 0)).
  { apply ERC20_update_frame in H. tauto. }
  destruct (negb (excluded st from) && negb (excluded st to) && (0 <? v)).
  2:{ apply ERC20_update_frame in H. tauto. }
  bind_inv H as f1 E1. bind_inv H as f2 E2. bind_inv H as f3 E3.
  bind_inv H as tot Etot.
  bind_inv H as st1 S1. apply fee_step_frame in S1.
  bind_inv H as st2 S2. apply fee_step_frame in S2.
  bind_inv H as st3 S3. apply fee_step_frame in S3.
  bind_inv H as tf Etf. bind_inv H as rem Erem.
  apply ERC20_update_frame in H.
  unfold same_settings in *. simpl in H.
  destruct S1 as ((? & ? & ? & ? & ?) & ? & ? & ?).
  destruct S2 as ((? & ? & ? & ? & ?) & ? & ? & ?).
  destruct S3 as ((? & ? & ? & ? & ?) & ? & ? & ?).
  destruct H as ((? & ? & ? & ? & ?) & ? & ? & ?).
  repeat split; congruence.
Qed.

Lemma _transfer_frame (from to : address) (v : N) (st st' : State) :
  _transfer from to v st = Ok st' ->
  same_settings st st'
  /\ _allowances st' = _allowances st
  /\ totalBurned st' = totalBurned st.
Proof.
  unfold _transfer. intros H.
  destruct (from =? 0); [discriminate|]. destruct (to =? 0); [discriminate|].
  by eapply _update_frame.
Qed.

Lemma _burn_frame (account : address) (v : N) (st st' : State) :
  _burn account v st = Ok st' ->
  same_settings st st'
  /\ _allowances st' = _allowances st
  /\ totalBurned st' = totalBurned st.
Proof.
  unfold _burn. intros H. destruct (account =? 0); [discriminate|].
  by eapply _update_frame.
Qed.

Lemma allowance_frame (st st' : State) (o s : address) :
  _allowances st' = _allowances st -> allowance st' o s = allowance st o s.
Proof. unfold allowance. by intros ->. Qed.

Lemma allowance_set_allowance (st : State) (o s o' s' : address) (v : N) :
  allowance (set_allowance st o s v) o' s'
  = if decide ((o', s') = (o, s)) then v else allowance st o' s'.
Proof.
  unfold allowance, set_allowance; simpl.
  destruct (decide ((o', s') = (o, s))) as [->|Hne].
  - by rewrite lookup_insert_eq.
  - by rewrite lookup_insert_ne.
Qed.

(** What ERC20._spendAllowance does to the allowances. *)
Lemma _spendAllowance_spent (o s : address) (v : N) (st st' : State) :
  _spendAllowance o s v st = Ok st' ->
  (allowance st o s < MAX_UINT256 -> v <= allowance st o s)
  /\ allowance st' o s
     = (if allowance st o s <? MAX_UINT256 then allowance st o s - v
        else allowance st o s)
  /\ (forall o' s', (o', s') <> (o, s) ->
      allowance st' o' s' = allowance st o' s').
Proof.
  unfold _spendAllowance, _approve. intros H.
  destruct (N.ltb_spec (allowance st o s) MAX_UINT256) as [Hfin|Hinf].
  - destruct (N.ltb_spec (allowance st o s) v) as [|Hle]; [discriminate|].
    destruct (o =? 0); [discriminate|]. destruct (s =? 0); [discriminate|].
    injection H as <-. split; [done|]. split.
    + rewrite allowance_set_allowance. by case_decide.
    + intros o' s' Hne. rewrite allowance_set_allowance. by case_decide.
  - injection H as <-. split; [lia|]. done.
Qed.

Lemma _spendAllowance_short (o s : address) (v : N) (st : State) :
  allowance st o s < MAX_UINT256 -> allowance st o s < v ->
  _spendAllowance o s v st = Err (CustomError "ERC20InsufficientAllowance").
Proof.
  intros Hfin Hlt. unfold _spendAllowance.
  destruct (N.ltb_spec (allowance st o s) MAX_UINT256) as [_|]; [|lia].
  destruct (N.ltb_spec (allowance st o s) v) as [_|]; [|lia].
  reflexivity.
Qed.

Lemma balanceOf_frame (st st' : State) (x : address) :
  _balances st' = _balances st -> balanceOf st' x = balanceOf st x.
Proof. unfold balanceOf. by intros ->. Qed.

(** X3. Allowances: approve sets the allowance of the pair to the value and
    touches no other allowance and no balance; transferFrom and burnFrom by
    a spender whose allowance is finite and below the value revert with
    ERC20InsufficientAllowance; when they succeed the allowance has gone
    down by exactly the value, except the unlimited allowance 2^256-1,
    which stays. *)
Theorem allowance_spending (st : State) (spender owner_ : address) (v : N) :
  (forall st', approve owner_ spender v st = Ok st' ->
     allowance st' owner_ spender = v
     /\ (forall o s, (o, s) <> (owner_, spender) ->
         allowance st' o s = allowance st o s)
     /\ (forall x, balanceOf st' x = balanceOf st x))
  /\ (allowance st owner_ spender < MAX_UINT256 ->
      allowance st owner_ spender < v ->
      (forall to, transferFrom spender owner_ to v st
                  = Err (CustomError "ERC20InsufficientAllowance"))
      /\ burnFrom spender owner_ v st
         = Err (CustomError "ERC20InsufficientAllowance"))
  /\ (forall to st', transferFrom spender owner_ to v st = Ok st' ->
      allowance st' owner_ spender
      = (if allowance st owner_ spender <? MAX_UINT256
         then allowance st owner_ spender - v
         else allowance st owner_ spender)
      /\ (allowance st owner_ spender < MAX_UINT256 ->
          v <= allowance st owner_ spender))
  /\ (forall st', burnFrom spender owner_ v st = Ok st' ->
      allowance st' owner_ spender
      = (if allowance st owner_ spender <? MAX_UINT256
         then allowance st owner_ spender - v
         else allowance st owner_ spender)
      /\ (allowance st owner_ spender < MAX_UINT256 ->
          v <= allowance st owner_ spender)).
Proof.
  split; [|split; [|split]].
  - intros st' H. unfold approve, _approve in H.
    destruct (owner_ =? 0); [discriminate|].
    destruct (spender =? 0); [discriminate|]. injection H as <-.
    split; [|split].
    + rewrite allowance_set_allowance. by case_decide.
    + intros o s Hne. rewrite allowance_set_allowance. by case_decide.
    + reflexivity.
  - intros Hfin Hlt. split.
    + intros to. unfold transferFrom. by rewrite _spendAllowance_short.
    + unfold burnFrom. by rewrite _spendAllowance_short.
  - intros to st' H. unfold transferFrom in H. bind_inv H as st1 E1.
    pose proof (_spendAllowance_spent _ _ _ _ _ E1) as (Hle & Ha & _).
    apply _transfer_frame in H as (_ & Hal & _).
    rewrite (allowance_frame _ _ _ _ Hal). done.
  - intros st' H. unfold burnFrom in H. bind_inv H as st1 E1.
    pose proof (_spendAllowance_spent _ _ _ _ _ E1) as (Hle & Ha & _).
    bind_inv H as st2 E2. bind_inv H as tb Etb. injection H as <-.
    apply _burn_frame in E2 as (_ & Hal & _).
    change (allowance (set_totalBurned st2 tb)) with (allowance st2).
    rewrite (allowance_frame _ _ _ _ Hal). done.
Qed.

Lemma allowance_spending_witness :
  burnFrom 6 5 200 funded = Err (CustomError "ERC20InsufficientAllowance")
  /\ exists st1 st2,
      approve 5 6 500 funded = Ok st1
      /\ burnFrom 6 5 200 st1 = Ok st2
      /\ allowance st1 5 6 = 500
      /\ allowance st2 5 6 = 300.
Proof.
  split.
  - apply (proj1 (proj2 (allowance_spending funded 6 5 200)));
      vm_compute; reflexivity.
  - destruct (approve 5 6 500 funded) as [st1|e] eqn:E1;
      [|vm_compute in E1; discriminate E1].
    destruct (burnFrom 6 5 200 st1) as [st2|e] eqn:E2.
    2:{ vm_compute in E1. injection E1 as <-. vm_compute in E2.
        discriminate E2. }
    exists st1, st2. split; [reflexivity|]. split; [exact E2|].
    pose proof (proj1 (allowance_spending funded 6 5 500) st1 E1)
      as (Ha1 & _).
    split; [exact Ha1|].
    pose proof (proj2 (proj2 (proj2 (allowance_spending st1 6 5 200))) st2 E2)
      as (Ha2 & _).
    rewrite Ha2, Ha1. reflexivity.
Defined.

Lemma total_fee_bounds (amount : N) :
  total_fee amount <= amount / 50
  /\ amount / 50 <= total_fee amount + 2
  /\ (amount < 100 -> total_fee amount = 0).
Proof.
  unfold total_fee, fee_of, BUYBACK_FEE, LIQUIDITY_FEE, TREASURY_FEE,
    FEE_DENOMINATOR.
  change 10000 with (100 * 100) at 1.
  rewrite N.Div0.div_mul_cancel_r by discriminate.
  change 10000 with (200 * 50).
  rewrite !N.Div0.div_mul_cancel_r by discriminate.
  repeat split; intros; zify; Z.to_euclidean_division_equations; lia.
Qed.

Lemma total_fee_zero : total_fee 0 = 0.
Proof. reflexivity. Qed.

(** The fee counter after ALOToken._update between two accounts. *)
Lemma _update_totalFees (from to : address) (amount : N) (st st' : State) :
  from <> 0 -> to <> 0 ->
  _update from to amount st = Ok st' ->
  totalFees st' = totalFees st
                  + (if pays_fee st from to then total_fee amount else 0).
Proof.
  intros Hf Ht H. unfold _update in H.
  destruct (N.eqb_spec from 0) as [|_]; [congruence|].
  destruct (N.eqb_spec to 0) as [|_]; [congruence|].
  cbn [orb] in H. unfold pays_fee.
  destruct (negb (excluded st from) && negb (excluded st to)).
  2:{ apply ERC20_update_frame in H as (_ & _ & _ & ->). lia. }
  cbn [andb] in H.
  destruct (N.ltb_spec 0 amount) as [Hpos|Hz].
  2:{ apply ERC20_update_frame in H as (_ & _ & _ & ->).
      assert (amount = 0) as -> by lia. rewrite total_fee_zero. lia. }
  bind_inv H as f1 E1. bind_inv E1 as p1 Ep1.
  apply mul_Ok in Ep1 as [-> _]. apply div_Ok in E1 as [-> _].
  bind_inv H as f2 E2. bind_inv E2 as p2 Ep2.
  apply mul_Ok in Ep2 as [-> _]. apply div_Ok in E2 as [-> _].
  bind_inv H as f3 E3. bind_inv E3 as p3 Ep3.
  apply mul_Ok in Ep3 as [-> _]. apply div_Ok in E3 as [-> _].
  bind_inv H as tot Etot. bind_inv Etot as s12 Es12.
  apply add_Ok in Es12 as [-> _]. apply add_Ok in Etot as [-> _].
  bind_inv H as st1 S1. apply fee_step_frame in S1 as (_ & _ & _ & F1).
  bind_inv H as st2 S2. apply fee_step_frame in S2 as (_ & _ & _ & F2).
  bind_inv H as st3 S3. apply fee_step_frame in S3 as (_ & _ & _ & F3).
  bind_inv H as tf Etf. apply add_Ok in Etf as [-> _].
  bind_inv H as rem Erem.
  apply ERC20_update_frame in H as (_ & _ & _ & ->).
  cbn [totalFees set_totalFees]. rewrite F3, F2, F1. reflexivity.
Qed.

Lemma transfer_totalFees (st st' : State) (from to : address)
  (amount : N) :
  transfer from to amount st = Ok st' ->
  totalFees st' = totalFees st
                  + (if pays_fee st from to then total_fee amount else 0).
Proof.
  intros H. unfold transfer, _transfer in H.
  destruct (N.eqb_spec from 0) as [|Hf]; [discriminate|].
  destruct (N.eqb_spec to 0) as [|Ht]; [discriminate|].
  by apply _update_totalFees.
Qed.

(** X4. The fee counter: a successful transfer adds the three fees to
    totalFees when neither party is exempt and leaves totalFees alone
    otherwise. The three fees together are at most 2% of the amount
    (amount / 50) and fall short of it by at most 2 base units; a transfer
    of less than 100 base units pays no fee at all. *)
Theorem transfer_fee_counter (st st' : State) (from to : address)
  (amount : N) :
  transfer from to amount st = Ok st' ->
  totalFees st' = totalFees st
                  + (if pays_fee st from to then total_fee amount else 0)
  /\ total_fee amount <= amount / 50
  /\ amount / 50 <= total_fee amount + 2
  /\ (amount < 100 -> total_fee amount = 0).
Proof.
  intros H. split; [|apply total_fee_bounds].
  by apply transfer_totalFees.
Qed.

Lemma transfer_fee_counter_witness :
  exists st',
    transfer 5 6 1000 funded = Ok st'
    /\ totalFees st' = 20
    /\ exists st'', transfer 5 6 99 st' = Ok st'' /\ totalFees st'' = 20.
Proof.
  destruct (transfer 5 6 1000 funded) as [st'|e] eqn:E;
    [|vm_compute in E; discriminate E].
  exists st'. split; [reflexivity|].
  pose proof (transfer_fee_counter _ _ _ _ _ E) as (H & _).
  assert (H20 : totalFees st' = 20) by (rewrite H; vm_compute; reflexivity).
  split; [exact H20|].
  destruct (transfer 5 6 99 st') as [st''|e] eqn:E2.
  2:{ vm_compute in E. injection E as <-. vm_compute in E2. discriminate E2. }
  exists st''. split; [reflexivity|].
  pose proof (transfer_fee_counter _ _ _ _ _ E2) as (H2 & _ & _ & Hsmall).
  rewrite H2, H20, Hsmall by (vm_compute; reflexivity).
  by destruct (pays_fee st' 5 6).
Defined.

(** X5. A transfer to oneself, by an account that is not a fee wallet, in a
    reachable storage: when the account is exempt its balance does not
    change; when it is not, the account holds at least the three fees and
    its balance goes down by exactly their sum. The total supply does not
    change. *)
Theorem self_transfer (st st' : State) (a : address) (amount : N) :
  reachable st -> ~ is_fee_wallet st a ->
  transfer a a amount st = Ok st' ->
  (if excluded st a then 0 else total_fee amount) <= balanceOf st a
  /\ balanceOf st' a
     = balanceOf st a - (if excluded st a then 0 else total_fee amount)
  /\ totalSupply st' = totalSupply st.
Proof.
  intros HR Hw H. apply reachable_Inv in HR.
  apply transfer_effect in H; [|assumption].
  destruct H as (_ & _ & _ & HC & Hx). specialize (Hx a).
  destruct HC as (_ & HS & _).
  assert (a <> buybackWallet st /\ a <> liquidityWallet st
          /\ a <> treasuryWallet st) as (Hb & Hl & Ht).
  { unfold is_fee_wallet in Hw. tauto. }
  unfold received in Hx. rewrite orb_diag in Hx.
  pose proof (fee_bound amount) as Hfee. fold (total_fee amount) in Hfee.
  fold (total_fee amount) in Hx.
  destruct (excluded st a); credit_simpl Hx;
    (split; [|split; [|exact HS]]); clear - Hx Hfee; lia.
Qed.

Lemma self_transfer_witness :
  exists st',
    transfer 5 5 1000 funded = Ok st'
    /\ balanceOf st' 5 = 4980.
Proof.
  destruct (transfer 5 5 1000 funded) as [st'|e] eqn:E;
    [|vm_compute in E; discriminate E].
  exists st'. split; [reflexivity|].
  assert (Hw : ~ is_fee_wallet funded 5).
  { unfold is_fee_wallet. vm_compute. intros [H|[H|H]]; discriminate H. }
  destruct (self_transfer funded st' 5 1000 funded_reachable Hw E)
    as (_ & -> & _).
  vm_compute. reflexivity.
Defined.

(** X6. When a transfer goes through: between two different accounts of a
    reachable storage, the sender not being a fee wallet and the fee counter
    having room for the amount, Transfer succeeds exactly when the sender
    holds the amount. *)
Theorem transfer_succeeds_iff (st : State) (from to : address) (amount : N) :
  reachable st -> from <> 0 -> to <> 0 -> from <> to ->
  ~ is_fee_wallet st from ->
  totalFees st + amount <= MAX_UINT256 ->
  (is_Ok (transfer from to amount st) <-> amount <= balanceOf st from).
Proof.
  intros HR Hf Ht Hne Hw Hroom. apply reachable_Inv in HR. split.
  - intros [st' E]. apply transfer_effect in E; [|assumption].
    destruct E as (_ & _ & _ & _ & Hx). specialize (Hx from).
    assert (from <> buybackWallet st /\ from <> liquidityWallet st
            /\ from <> treasuryWallet st) as (Hb & Hl & Htw).
    { unfold is_fee_wallet in Hw. tauto. }
    unfold received in Hx.
    destruct (excluded st from || excluded st to); credit_simpl Hx;
      clear - Hx; lia.
  - intros Hle. by apply transfer_ok.
Qed.

Lemma transfer_succeeds_iff_witness :
  is_Ok (transfer 5 6 5000 funded)
  /\ ~ is_Ok (transfer 5 6 5001 funded).
Proof.
  assert (Hw : ~ is_fee_wallet funded 5).
  { unfold is_fee_wallet. vm_compute. intros [H|[H|H]]; discriminate H. }
  assert (H50 : (5 : address) <> 0) by discriminate.
  assert (H60 : (6 : address) <> 0) by discriminate.
  assert (H56 : (5 : address) <> 6) by discriminate.
  assert (Hroom : forall amount, amount <= 6000 ->
            totalFees funded + amount <= MAX_UINT256).
  { intros amount Ha. change (totalFees funded) with 0.
    etransitivity; [exact Ha|]. vm_compute. discriminate. }
  split.
  - apply (transfer_succeeds_iff funded 5 6 5000 funded_reachable
             H50 H60 H56 Hw (Hroom 5000 ltac:(vm_compute; discriminate))).
    vm_compute. discriminate.
  - intros E.
    apply (transfer_succeeds_iff funded 5 6 5001 funded_reachable
             H50 H60 H56 Hw (Hroom 5001 ltac:(vm_compute; discriminate))) in E.
    vm_compute in E. apply E. reflexivity.
Defined.

Lemma token_onlyOwner_other (sender : address) (st : State) :
  sender <> _owner st ->
  onlyOwner sender st = Err (CustomError "OwnableUnauthorizedAccount").
Proof.
  intros H. unfold onlyOwner. by destruct (N.eqb_spec sender (_owner st)).
Qed.

Lemma same_settings_refl (st : State) : same_settings st st.
Proof. by repeat split. Qed.

Lemma same_settings_trans (st1 st2 st3 : State) :
  same_settings st1 st2 -> same_settings st2 st3 -> same_settings st1 st3.
Proof. unfold same_settings. intuition congruence. Qed.

Lemma _approve_settings (o s : address) (v : N) (st st' : State) :
  _approve o s v st = Ok st' -> same_settings st st'.
Proof.
  unfold _approve. intros H.
  destruct (o =? 0); [discriminate|]. destruct (s =? 0); [discriminate|].
  injection H as <-. by repeat split.
Qed.

Lemma _spendAllowance_settings (o s : address) (v : N) (st st' : State) :
  _spendAllowance o s v st = Ok st' -> same_settings st st'.
Proof.
  unfold _spendAllowance. intros H.
  destruct (allowance st o s <? MAX_UINT256).
  - destruct (allowance st o s <? v); [discriminate|].
    by eapply _approve_settings.
  - injection H as <-. apply same_settings_refl.
Qed.

Lemma call_settings (sender : address) (c : Call) (st st' : State) :
  sender <> _owner st -> call sender c st = Ok st' -> same_settings st st'.
Proof.
  intros Hs H. destruct c; cbn [call] in H.
  - by apply _transfer_frame in H as (? & _).
  - by eapply _approve_settings.
  - unfold transferFrom in H. bind_inv H as st1 E1.
    apply _spendAllowance_settings in E1.
    apply _transfer_frame in H as (? & _).
    by eapply same_settings_trans.
  - unfold burn in H. bind_inv H as st1 E1. bind_inv H as tb E2.
    injection H as <-. by apply _burn_frame in E1 as (? & _).
  - unfold burnFrom in H. bind_inv H as st1 E1. bind_inv H as st2 E2.
    bind_inv H as tb E3. injection H as <-.
    apply _spendAllowance_settings in E1.
    apply _burn_frame in E2 as (? & _).
    by eapply same_settings_trans.
  - unfold setBuybackWallet in H. by rewrite token_onlyOwner_other in H.
  - unfold setLiquidityWallet in H. by rewrite token_onlyOwner_other in H.
  - unfold setTreasuryWallet in H. by rewrite token_onlyOwner_other in H.
  - unfold setExcludeFromFee in H. by rewrite token_onlyOwner_other in H.
  - unfold transferOwnership in H. by rewrite token_onlyOwner_other in H.
  - unfold renounceOwnership in H. by rewrite token_onlyOwner_other in H.
Qed.

Lemma run_settings (txs : list (address * Call)) (st : State) :
  Forall (fun tx => fst tx <> _owner st) txs -> same_settings st (run txs st).
Proof.
  revert st. induction txs as [|[sender c] txs IH]; intros st HF.
  - apply same_settings_refl.
  - apply Forall_cons in HF as [Hs HF]. cbn [fst] in Hs.
    change (run ((sender, c) :: txs) st) with (run txs (exec st (sender, c))).
    assert (HS : same_settings st (exec st (sender, c))).
    { unfold exec. cbn [fst snd].
      destruct (call sender c st) as [st'|e] eqn:E.
      - by eapply call_settings.
      - apply same_settings_refl. }
    eapply same_settings_trans; [exact HS|]. apply IH.
    destruct HS as (-> & _). exact HF.
Qed.

(** X7. Only the owner changes the settings. For a sender other than the
    owner: each of the four setters and the two ownership functions fails
    with OwnableUnauthorizedAccount, and no sequence of transactions sent by
    accounts other than the owner changes the owner, the three fee wallets
    or the fee exemptions. *)
Theorem settings_owner_only (st : State) (sender : address) :
  sender <> _owner st ->
  (forall w, setBuybackWallet sender w st
             = Err (CustomError "OwnableUnauthorizedAccount"))
  /\ (forall w, setLiquidityWallet sender w st
                = Err (CustomError "OwnableUnauthorizedAccount"))
  /\ (forall w, setTreasuryWallet sender w st
                = Err (CustomError "OwnableUnauthorizedAccount"))
  /\ (forall a b, setExcludeFromFee sender a b st
                  = Err (CustomError "OwnableUnauthorizedAccount"))
  /\ (forall o, transferOwnership sender o st
                = Err (CustomError "OwnableUnauthorizedAccount"))
  /\ renounceOwnership sender st
     = Err (CustomError "OwnableUnauthorizedAccount")
  /\ (forall txs, Forall (fun tx => fst tx <> _owner st) txs ->
                  same_settings st (run txs st)).
Proof.
  intros Hs.
  unfold setBuybackWallet, setLiquidityWallet, setTreasuryWallet,
    setExcludeFromFee, transferOwnership, renounceOwnership.
  rewrite token_onlyOwner_other by assumption.
  do 6 (split; [reflexivity|]). intros txs. apply run_settings.
Qed.

Lemma settings_owner_only_witness :
  setBuybackWallet 5 9 funded = Err (CustomError "OwnableUnauthorizedAccount")
  /\ buybackWallet
       (run [(5, CSetBuybackWallet 9); (6, CTransferOwnership 6);
             (5, CTransfer 6 100)] funded) = 2.
Proof.
  assert (H : (5 : address) <> _owner funded) by (vm_compute; discriminate).
  destruct (settings_owner_only funded 5 H) as (Hb & _ & _ & _ & _ & _ & Hr).
  split; [apply Hb|].
  destruct (Hr [(5, CSetBuybackWallet 9); (6, CTransferOwnership 6);
                (5, CTransfer 6 100)]) as (_ & -> & _).
  - repeat constructor; vm_compute; discriminate.
  - reflexivity.
Defined.

Lemma constructor_value (sender this bw lw tw : address) :
  sender <> 0 -> bw <> 0 -> lw <> 0 -> tw <> 0 ->
  constructor sender this bw lw tw
  = Ok (set_excluded
          (set_excluded
             (set_balance
                (set_totalSupply
                   (set_treasuryWallet
                      (set_liquidityWallet
                         (set_buybackWallet (set_owner empty sender) bw) lw)
                      tw)
                   INITIAL_SUPPLY)
                sender INITIAL_SUPPLY)
             sender true)
          this true).
Proof.
  intros Hs Hb Hl Ht. unfold constructor.
  destruct (N.eqb_spec sender 0) as [|_]; [congruence|].
  destruct (N.eqb_spec bw 0) as [|_]; [congruence|].
  destruct (N.eqb_spec lw 0) as [|_]; [congruence|].
  destruct (N.eqb_spec tw 0) as [|_]; [congruence|].
  cbn [negb require Evm.bind].
  assert (HV : 100000000 * 10 ^ decimals = INITIAL_SUPPLY)
    by (vm_compute; reflexivity).
  rewrite HV. unfold _mint, _update.
  destruct (N.eqb_spec sender 0) as [|_]; [congruence|].
  cbn [N.eqb orb]. unfold ERC20_update. cbn [N.eqb].
  destruct (N.eqb_spec sender 0) as [|_]; [congruence|].
  change (_totalSupply _) with 0.
  rewrite add_fits by (unfold INITIAL_SUPPLY, MAX_UINT256; lia).
  cbn [Evm.bind].
  match goal with
  | |- context [balanceOf ?s sender] =>
      change (balanceOf s sender)
        with (default 0 ((∅ : gmap address N) !! sender))
  end.
  rewrite lookup_empty. cbn [default].
  rewrite unchecked_add_fits by (unfold INITIAL_SUPPLY, MAX_UINT256; lia).
  rewrite !N.add_0_l. reflexivity.
Qed.

(** X8. Deployment. With a zero buyback, liquidity or treasury wallet the
    constructor reverts with the message for the first zero wallet. Otherwise
    it succeeds: the deployer owns the contract and holds the whole supply
    of 100,000,000 tokens, every other balance is zero, exactly the deployer
    and the token contract are exempt from fees, the wallets are the ones
    given, and nothing is burned or collected yet. *)
Theorem constructor_spec (sender this bw lw tw : address) :
  sender <> 0 ->
  (bw = 0 -> constructor sender this bw lw tw
             = Err (Revert "Invalid buyback wallet"))
  /\ (bw <> 0 -> lw = 0 ->
      constructor sender this bw lw tw
      = Err (Revert "Invalid liquidity wallet"))
  /\ (bw <> 0 -> lw <> 0 -> tw = 0 ->
      constructor sender this bw lw tw
      = Err (Revert "Invalid treasury wallet"))
  /\ (bw <> 0 -> lw <> 0 -> tw <> 0 ->
      exists st,
        constructor sender this bw lw tw = Ok st
        /\ _owner st = sender
        /\ totalSupply st = INITIAL_SUPPLY
        /\ balanceOf st sender = INITIAL_SUPPLY
        /\ (forall x, x <> sender -> balanceOf st x = 0)
        /\ (forall x, excluded st x = bool_decide (x = sender \/ x = this))
        /\ buybackWallet st = bw /\ liquidityWallet st = lw
        /\ treasuryWallet st = tw
        /\ totalBurned st = 0 /\ totalFees st = 0
        /\ (forall o s, allowance st o s = 0)).
Proof.
  intros Hs. repeat split.
  - intros ->. unfold constructor.
    by destruct (N.eqb_spec sender 0) as [|_]; [congruence|].
  - intros Hb ->. unfold constructor.
    destruct (N.eqb_spec sender 0) as [|_]; [congruence|].
    by destruct (N.eqb_spec bw 0) as [|_]; [congruence|].
  - intros Hb Hl ->. unfold constructor.
    destruct (N.eqb_spec sender 0) as [|_]; [congruence|].
    destruct (N.eqb_spec bw 0) as [|_]; [congruence|].
    by destruct (N.eqb_spec lw 0) as [|_]; [congruence|].
  - intros Hb Hl Ht. eexists. split; [by apply constructor_value|].
    repeat split.
    + unfold balanceOf. cbn [_balances set_excluded set_balance].
      by rewrite lookup_insert_eq.
    + intros x Hx. unfold balanceOf. cbn [_balances set_excluded set_balance].
      by rewrite lookup_insert_ne.
    + intros x. unfold excluded.
      cbn [isExcludedFromFee set_excluded set_balance set_totalSupply
             set_treasuryWallet set_liquidityWallet set_buybackWallet
             set_owner empty].
      destruct (decide (x = this)) as [->|Hxt].
      { rewrite lookup_insert_eq. cbn [default]. symmetry.
        apply bool_decide_eq_true. by right. }
      rewrite lookup_insert_ne by congruence.
      destruct (decide (x = sender)) as [->|Hxs].
      { rewrite lookup_insert_eq. cbn [default]. symmetry.
        apply bool_decide_eq_true. by left. }
      rewrite lookup_insert_ne by congruence. rewrite lookup_empty.
      cbn [default]. symmetry. apply bool_decide_eq_false. tauto.
Qed.

Lemma constructor_spec_witness :
  constructor 1 100 2 0 4 = Err (Revert "Invalid liquidity wallet")
  /\ exists st, constructor 1 100 2 3 4 = Ok st
                /\ balanceOf st 1 = INITIAL_SUPPLY.
Proof.
  assert (H1 : (1 : address) <> 0) by discriminate.
  destruct (constructor_spec 1 100 2 0 4 H1) as (_ & Hl & _).
  split; [apply Hl; [discriminate|reflexivity]|].
  destruct (constructor_spec 1 100 2 3 4 H1) as (_ & _ & _ & Hok).
  destruct Hok as (st & E & _ & _ & Hbal & _); [discriminate..|].
  exists st. split; [exact E|exact Hbal].
Defined.

Lemma reachable_Inv_call (sender : address) (c : Call) (st st' : State) :
  reachable st -> call sender c st = Ok st' -> Inv st'.
Proof. intros HR H. apply reachable_Inv in HR. by eapply call_Inv. Qed.

Lemma token_onlyOwner_owner (st : State) : onlyOwner (_owner st) st = Ok tt.
Proof. unfold onlyOwner. by rewrite N.eqb_refl. Qed.

(** What a transfer that pays fees gives to the three wallets. *)
Lemma fee_transfer_wallets (st st' : State) (from to : address) (amount : N) :
  Inv st -> transfer from to amount st = Ok st' ->
  pays_fee st from to = true ->
  NoDup [from; to; buybackWallet st; liquidityWallet st; treasuryWallet st] ->
  balanceOf st' (buybackWallet st)
  = balanceOf st (buybackWallet st) + fee_of amount BUYBACK_FEE
  /\ balanceOf st' (liquidityWallet st)
     = balanceOf st (liquidityWallet st) + fee_of amount LIQUIDITY_FEE
  /\ balanceOf st' (treasuryWallet st)
     = balanceOf st (treasuryWallet st) + fee_of amount TREASURY_FEE.
Proof.
  intros HI H Hp HN. apply transfer_effect in H; [|assumption].
  destruct H as (_ & _ & _ & _ & Hx).
  rewrite !NoDup_cons, !not_elem_of_cons in HN.
  destruct HN as ((F1 & F2 & F3 & F4 & _) & (T1 & T2 & T3 & _)
                  & (B1 & B2 & _) & (L1 & _) & _).
  unfold pays_fee in Hp. apply andb_true_iff in Hp as [P1 P2].
  apply negb_true_iff in P1, P2.
  pose proof (Hx (buybackWallet st)) as Hb.
  pose proof (Hx (liquidityWallet st)) as Hl.
  pose proof (Hx (treasuryWallet st)) as Ht.
  unfold received in Hb, Hl, Ht. rewrite P1, P2 in Hb, Hl, Ht.
  cbn [orb] in Hb, Hl, Ht.
  credit_simpl Hb. credit_simpl Hl. credit_simpl Ht.
  clear - Hb Hl Ht. repeat split; lia.
Qed.

(** X9. Fee exemptions. The owner cannot exempt the zero address
    (Invalid address). Setting the exemption of another account changes that
    account's flag only and no balance; once an account is exempt, a
    transfer from it or to it moves the whole amount and collects no fee. *)
Theorem exemption_effect (st : State) (a : address) (b : bool) :
  reachable st ->
  (a = 0 -> setExcludeFromFee (_owner st) a b st
            = Err (Revert "Invalid address"))
  /\ (a <> 0 ->
      exists st1,
        setExcludeFromFee (_owner st) a b st = Ok st1
        /\ excluded st1 a = b
        /\ (forall x, x <> a -> excluded st1 x = excluded st x)
        /\ (forall x, balanceOf st1 x = balanceOf st x)
        /\ (b = true ->
            forall other amount st2, other <> a ->
              (transfer a other amount st1 = Ok st2 ->
               balanceOf st2 other = balanceOf st1 other + amount
               /\ balanceOf st2 a = balanceOf st1 a - amount
               /\ amount <= balanceOf st1 a
               /\ totalFees st2 = totalFees st1)
              /\ (transfer other a amount st1 = Ok st2 ->
                  balanceOf st2 a = balanceOf st1 a + amount
                  /\ balanceOf st2 other = balanceOf st1 other - amount
                  /\ amount <= balanceOf st1 other
                  /\ totalFees st2 = totalFees st1))).
Proof.
  intros HR. unfold setExcludeFromFee. rewrite token_onlyOwner_owner.
  cbn [Evm.bind]. split.
  - intros ->. reflexivity.
  - intros Ha. destruct (N.eqb_spec a 0) as [|_]; [congruence|].
    cbn [negb require Evm.bind]. eexists. split; [reflexivity|].
    assert (HI1 : Inv (set_excluded st a b)).
    { apply (reachable_Inv_call (_owner st) (CSetExcludeFromFee a b) st);
        [assumption|].
      cbn [call]. unfold setExcludeFromFee. rewrite token_onlyOwner_owner.
      destruct (N.eqb_spec a 0) as [|_]; [congruence|]. reflexivity. }
    assert (Hex : excluded (set_excluded st a b) a = b).
    { unfold excluded. cbn [isExcludedFromFee set_excluded].
      by rewrite lookup_insert_eq. }
    split; [exact Hex|]. split.
    { intros x Hx. unfold excluded. cbn [isExcludedFromFee set_excluded].
      by rewrite lookup_insert_ne. }
    split; [reflexivity|].
    intros -> other amount st2 Hne. split; intros H.
    + pose proof (transfer_totalFees _ _ _ _ _ H) as HF.
      apply transfer_effect in H; [|assumption].
      destruct H as (_ & _ & _ & _ & Hx).
      pose proof (Hx a) as H1. pose proof (Hx other) as H2.
      unfold received in H1, H2. rewrite Hex in H1, H2. cbn [orb] in H1, H2.
      credit_simpl H1. credit_simpl H2.
      unfold pays_fee in HF. rewrite Hex in HF. cbn [negb andb] in HF.
      clear - H1 H2 HF. repeat split; lia.
    + pose proof (transfer_totalFees _ _ _ _ _ H) as HF.
      apply transfer_effect in H; [|assumption].
      destruct H as (_ & _ & _ & _ & Hx).
      pose proof (Hx a) as H1. pose proof (Hx other) as H2.
      unfold received in H1, H2. rewrite Hex, orb_true_r in H1, H2.
      credit_simpl H1. credit_simpl H2.
      unfold pays_fee in HF. rewrite Hex, andb_false_r in HF.
      clear - H1 H2 HF. repeat split; lia.
Qed.

Lemma exemption_effect_witness :
  exists st1 st2,
    setExcludeFromFee 1 5 true funded = Ok st1
    /\ transfer 5 6 1000 st1 = Ok st2
    /\ balanceOf st2 6 = 1000
    /\ totalFees st2 = 0.
Proof.
  destruct (exemption_effect funded 5 true funded_reachable) as (_ & H).
  destruct H as (st1 & E1 & _ & _ & Hbal & Hfree); [discriminate|].
  change (_owner funded) with 1 in E1.
  destruct (transfer 5 6 1000 st1) as [st2|e] eqn:E2.
  2:{ vm_compute in E1. injection E1 as <-. vm_compute in E2.
      discriminate E2. }
  exists st1, st2. split; [exact E1|]. split; [exact E2|].
  destruct (Hfree eq_refl 6 1000 st2 ltac:(discriminate)) as (Hout & _).
  destruct (Hout E2) as (H6 & _ & _ & HF).
  rewrite H6, HF, Hbal. vm_compute in E1. injection E1 as <-.
  split; reflexivity.
Defined.

(** X10. The fee wallets. The owner cannot set a fee wallet to the zero
    address (Invalid address). Setting the buyback wallet to [w] succeeds
    and replaces that wallet only; from then on every successful transfer,
    whatever the accounts are, changes each balance by what the account
    receives minus what it sends, the buyback fee amount*100/10000 going to
    [w] (an account that is several of wallet and recipient receives the
    sum). Likewise for the liquidity and the treasury wallet with their
    amount*50/10000. In particular, when sender, recipient and the three
    wallets are pairwise distinct and the transfer pays fees, the balance
    of [w] grows by exactly its fee. *)
Theorem fee_wallet_change (st : State) (w : address) :
  reachable st ->
  (w = 0 ->
   setBuybackWallet (_owner st) w st = Err (Revert "Invalid address")
   /\ setLiquidityWallet (_owner st) w st = Err (Revert "Invalid address")
   /\ setTreasuryWallet (_owner st) w st = Err (Revert "Invalid address"))
  /\ (w <> 0 ->
      (exists st1,
         setBuybackWallet (_owner st) w st = Ok st1
         /\ st1 = set_buybackWallet st w
         /\ (forall from to amount st2,
               transfer from to amount st1 = Ok st2 ->
               forall x,
                 balanceOf st2 x + credit x from amount
                 = balanceOf st x
                   + (if excluded st from || excluded st to
                      then credit x to amount
                      else
                        credit x w (amount * 100 / 10000)
                        + credit x (liquidityWallet st)
                            (amount * 50 / 10000)
                        + credit x (treasuryWallet st)
                            (amount * 50 / 10000)
                        + credit x to
                            (amount - (amount * 100 / 10000
                                       + amount * 50 / 10000
                                       + amount * 50 / 10000))))
         /\ forall from to amount st2,
              pays_fee st from to = true ->
              NoDup [from; to; w; liquidityWallet st; treasuryWallet st] ->
              transfer from to amount st1 = Ok st2 ->
              balanceOf st2 w = balanceOf st w + fee_of amount BUYBACK_FEE)
      /\ (exists st1,
            setLiquidityWallet (_owner st) w st = Ok st1
            /\ st1 = set_liquidityWallet st w
            /\ (forall from to amount st2,
                  transfer from to amount st1 = Ok st2 ->
                  forall x,
                    balanceOf st2 x + credit x from amount
                    = balanceOf st x
                      + (if excluded st from || excluded st to
                         then credit x to amount
                         else
                           credit x (buybackWallet st)
                             (amount * 100 / 10000)
                           + credit x w (amount * 50 / 10000)
                           + credit x (treasuryWallet st)
                               (amount * 50 / 10000)
                           + credit x to
                               (amount - (amount * 100 / 10000
                                          + amount * 50 / 10000
                                          + amount * 50 / 10000))))
            /\ forall from to amount st2,
                 pays_fee st from to = true ->
                 NoDup [from; to; buybackWallet st; w; treasuryWallet st] ->
                 transfer from to amount st1 = Ok st2 ->
                 balanceOf st2 w
                 = balanceOf st w + fee_of amount LIQUIDITY_FEE)
      /\ (exists st1,
            setTreasuryWallet (_owner st) w st = Ok st1
            /\ st1 = set_treasuryWallet st w
            /\ (forall from to amount st2,
                  transfer from to amount st1 = Ok st2 ->
                  forall x,
                    balanceOf st2 x + credit x from amount
                    = balanceOf st x
                      + (if excluded st from || excluded st to
                         then credit x to amount
                         else
                           credit x (buybackWallet st)
                             (amount * 100 / 10000)
                           + credit x (liquidityWallet st)
                               (amount * 50 / 10000)
                           + credit x w (amount * 50 / 10000)
                           + credit x to
                               (amount - (amount * 100 / 10000
                                          + amount * 50 / 10000
                                          + amount * 50 / 10000))))
            /\ forall from to amount st2,
                 pays_fee st from to = true ->
                 NoDup [from; to; buybackWallet st; liquidityWallet st; w] ->
                 transfer from to amount st1 = Ok st2 ->
                 balanceOf st2 w
                 = balanceOf st w + fee_of amount TREASURY_FEE)).
Proof.
  intros HR. unfold setBuybackWallet, setLiquidityWallet, setTreasuryWallet.
  rewrite token_onlyOwner_owner. cbn [Evm.bind]. split.
  - intros ->. by repeat split.
  - intros Hw. destruct (N.eqb_spec w 0) as [|_]; [congruence|].
    cbn [negb require Evm.bind].
    assert (HC : forall c st1, call (_owner st) c st = Ok st1 -> Inv st1).
    { intros c st1. by apply reachable_Inv_call. }
    assert (Hset : forall c st1,
              c = CSetBuybackWallet w /\ st1 = set_buybackWallet st w
              \/ c = CSetLiquidityWallet w /\ st1 = set_liquidityWallet st w
              \/ c = CSetTreasuryWallet w /\ st1 = set_treasuryWallet st w ->
              call (_owner st) c st = Ok st1).
    { intros c st1 [[-> ->]|[[-> ->]|[-> ->]]]; cbn [call];
        unfold setBuybackWallet, setLiquidityWallet, setTreasuryWallet;
        rewrite token_onlyOwner_owner;
        (destruct (N.eqb_spec w 0) as [|_]; [congruence|]); reflexivity. }
    assert (Heff : forall st1 from to amount st2,
              Inv st1 -> transfer from to amount st1 = Ok st2 ->
              forall x,
                balanceOf st2 x + credit x from amount
                = balanceOf st1 x + received st1 from to amount x).
    { intros st1 from to amount st2 HI1 H.
      by apply transfer_effect in H as (_ & _ & _ & _ & Hx). }
    split; [|split]; eexists; (split; [reflexivity|]);
      (split; [reflexivity|]); split.
    + intros from to amount st2 H x.
      assert (HI1 : Inv (set_buybackWallet st w))
        by (eapply HC, Hset; eauto).
      exact (Heff (set_buybackWallet st w) from to amount st2 HI1 H x).
    + intros from to amount st2 Hp HN H.
      eapply fee_transfer_wallets in H as (H & _ & _);
        [exact H|eapply HC, Hset; eauto|exact Hp|exact HN].
    + intros from to amount st2 H x.
      assert (HI1 : Inv (set_liquidityWallet st w))
        by (eapply HC, Hset; eauto).
      exact (Heff (set_liquidityWallet st w) from to amount st2 HI1 H x).
    + intros from to amount st2 Hp HN H.
      eapply fee_transfer_wallets in H as (_ & H & _);
        [exact H|eapply HC, Hset; eauto|exact Hp|exact HN].
    + intros from to amount st2 H x.
      assert (HI1 : Inv (set_treasuryWallet st w))
        by (eapply HC, Hset; eauto 6).
      exact (Heff (set_treasuryWallet st w) from to amount st2 HI1 H x).
    + intros from to amount st2 Hp HN H.
      eapply fee_transfer_wallets in H as (_ & _ & H);
        [exact H|eapply HC, Hset; eauto 6|exact Hp|exact HN].
Qed.

Lemma fee_wallet_change_witness :
  (exists st1 st2,
     setBuybackWallet 1 9 funded = Ok st1
     /\ transfer 5 6 1000 st1 = Ok st2
     /\ balanceOf st2 9 = 10)
  /\ (exists st1 st2,
        setBuybackWallet 1 3 funded = Ok st1
        /\ transfer 5 6 1000 st1 = Ok st2
        /\ balanceOf st2 3 = 15).
Proof.
  split.
  - destruct (fee_wallet_change funded 9 funded_reachable) as (_ & H).
    destruct H as ((st1 & E1 & Hst1 & _ & Hfee) & _); [discriminate|].
    change (_owner funded) with 1 in E1.
    destruct (transfer 5 6 1000 st1) as [st2|e] eqn:E2.
    2:{ rewrite Hst1 in E2. vm_compute in E2. discriminate E2. }
    exists st1, st2. split; [exact E1|]. split; [exact E2|].
    rewrite (Hfee 5 6 1000 st2);
      [vm_compute; reflexivity|reflexivity| |exact E2].
    vm_compute. repeat constructor; rewrite ?elem_of_cons, elem_of_nil;
      intros H; repeat destruct H as [H|H]; try discriminate H; exact H.
  - destruct (fee_wallet_change funded 3 funded_reachable) as (_ & H).
    destruct H as ((st1 & E1 & Hst1 & Heff & _) & _); [discriminate|].
    change (_owner funded) with 1 in E1.
    destruct (transfer 5 6 1000 st1) as [st2|e] eqn:E2.
    2:{ rewrite Hst1 in E2. vm_compute in E2. discriminate E2. }
    exists st1, st2. split; [exact E1|]. split; [exact E2|].
    pose proof (Heff 5 6 1000 st2 E2 3) as H3.
    match type of H3 with
    | _ + ?c = ?b + ?r =>
        replace c with 0 in H3 by (vm_compute; reflexivity);
        replace b with 0 in H3 by (vm_compute; reflexivity);
        replace r with 15 in H3 by (vm_compute; reflexivity)
    end.
    clear - H3. lia.
Defined.

Lemma MAX_UINT256_pos : 0 < MAX_UINT256.
Proof. reflexivity. Qed.

(** A transfer never takes anything from a third account. *)
Lemma transfer_no_debit (st st' : State) (from to a : address) (v : N) :
  Inv st -> a <> from -> transfer from to v st = Ok st' ->
  balanceOf st a <= balanceOf st' a
  /\ _allowances st' = _allowances st
  /\ Inv st'.
Proof.
  intros HI Ha H. apply transfer_effect in H; [|assumption].
  destruct H as (_ & _ & HI' & (HA & _) & Hx). specialize (Hx a).
  rewrite credit_other in Hx by assumption.
  split; [clear - Hx; lia|]. by split.
Qed.

(** A transfer of nothing takes nothing from its sender. *)
Lemma transfer_zero_no_debit (st st' : State) (from to : address) :
  Inv st -> transfer from to 0 st = Ok st' ->
  balanceOf st from <= balanceOf st' from
  /\ _allowances st' = _allowances st
  /\ Inv st'.
Proof.
  intros HI H. apply transfer_effect in H; [|assumption].
  destruct H as (_ & _ & HI' & (HA & _) & Hx). specialize (Hx from).
  rewrite credit_same in Hx.
  split; [clear - Hx; lia|]. by split.
Qed.

Lemma _spendAllowance_none (o s : address) (v : N) (st st' : State) :
  (forall x, allowance st o x = 0) ->
  _spendAllowance o s v st = Ok st' ->
  v = 0 /\ forall x, allowance st' o x = 0.
Proof.
  intros Hz H. apply _spendAllowance_spent in H as (Hle & Hs & Ho).
  pose proof MAX_UINT256_pos as HM. rewrite (Hz s) in Hle, Hs.
  specialize (Hle HM). split; [clear - Hle; lia|].
  intros x. destruct (decide (x = s)) as [->|Hx].
  - rewrite Hs. by destruct (0 <? MAX_UINT256).
  - rewrite Ho by congruence. apply Hz.
Qed.

Lemma _spendAllowance_other (o s a : address) (v : N) (st st' : State) :
  a <> o ->
  _spendAllowance o s v st = Ok st' ->
  forall x, allowance st' a x = allowance st a x.
Proof.
  intros Ha H x. apply _spendAllowance_spent in H as (_ & _ & Ho).
  apply Ho. congruence.
Qed.

Lemma burn_inv (sender : address) (v : N) (st st' : State) :
  burn sender v st = Ok st' ->
  sender <> 0
  /\ v <= balanceOf st sender
  /\ balanceOf st' sender = balanceOf st sender - v
  /\ (forall x, x <> sender -> balanceOf st' x = balanceOf st x)
  /\ _allowances st' = _allowances st.
Proof.
  unfold burn. intros H. bind_inv H as st1 E1. bind_inv H as tb Etb.
  injection H as <-.
  assert (Hs : sender <> 0).
  { intros ->. unfold _burn in E1. discriminate E1. }
  rewrite _burn_unfold in E1 by assumption.
  pose proof (ERC20_update_burn _ _ _ _ Hs E1) as (Hle & _).
  apply ERC20_update_burn_balances in E1 as (A & B & C & _); [|assumption].
  split; [assumption|]. split; [assumption|]. split; [exact A|].
  split; [exact B|exact C].
Qed.

(** A call by another account, on an account that has approved nobody. *)
Lemma call_no_debit (sender a : address) (c : Call) (st st' : State) :
  Inv st -> (forall x, allowance st a x = 0) -> sender <> a ->
  call sender c st = Ok st' ->
  balanceOf st a <= balanceOf st' a /\ (forall x, allowance st' a x = 0).
Proof.
  intros HI Hz Hs H. destruct c; cbn [call] in H.
  - apply (transfer_no_debit st st' sender to a) in H as (A & B & _);
      [|assumption|congruence].
    split; [exact A|]. intros x. by rewrite (allowance_frame _ _ _ _ B).
  - unfold approve, _approve in H.
    destruct (sender =? 0); [discriminate|].
    destruct (spender =? 0); [discriminate|]. injection H as <-.
    split; [reflexivity|]. intros x. rewrite allowance_set_allowance.
    destruct (decide ((a, x) = (sender, spender))); [congruence|apply Hz].
  - unfold transferFrom in H. bind_inv H as st1 E1.
    pose proof (_spendAllowance_Inv _ _ _ _ _ E1 HI) as HI1.
    pose proof (_spendAllowance_frame _ _ _ _ _ E1) as (HB & _).
    destruct (decide (a = from)) as [->|Hne].
    + apply _spendAllowance_none in E1 as [-> Hz1]; [|assumption].
      apply transfer_zero_no_debit in H as (A & B & _); [|assumption].
      rewrite (balanceOf_frame _ _ _ HB) in A. split; [exact A|].
      intros x. by rewrite (allowance_frame _ _ _ _ B).
    + pose proof (_spendAllowance_other _ _ a _ _ _ Hne E1) as Hz1.
      apply (transfer_no_debit st1 st' from to a) in H as (A & B & _);
        [|assumption|assumption].
      rewrite (balanceOf_frame _ _ _ HB) in A. split; [exact A|].
      intros x. by rewrite (allowance_frame _ _ _ _ B), Hz1.
  - apply burn_inv in H as (_ & _ & _ & Ho & HA).
    rewrite Ho by congruence. split; [reflexivity|].
    intros x. by rewrite (allowance_frame _ _ _ _ HA).
  - unfold burnFrom in H. bind_inv H as st1 E1.
    pose proof (_spendAllowance_frame _ _ _ _ _ E1) as (HB & _).
    assert (Hb : burn account amount st1 = Ok st') by exact H.
    apply burn_inv in Hb as (_ & Hle & Hacc & Ho & HA).
    destruct (decide (a = account)) as [->|Hne].
    + apply _spendAllowance_none in E1 as [-> Hz1]; [|assumption].
      rewrite Hacc, (balanceOf_frame _ _ _ HB). split; [lia|].
      intros x. by rewrite (allowance_frame _ _ _ _ HA).
    + pose proof (_spendAllowance_other _ _ a _ _ _ Hne E1) as Hz1.
      rewrite Ho, (balanceOf_frame _ _ _ HB) by assumption.
      split; [reflexivity|].
      intros x. by rewrite (allowance_frame _ _ _ _ HA), Hz1.
  - unfold setBuybackWallet in H. bind_inv H as u1 E1. bind_inv H as u2 E2.
    injection H as <-. by split.
  - unfold setLiquidityWallet in H. bind_inv H as u1 E1. bind_inv H as u2 E2.
    injection H as <-. by split.
  - unfold setTreasuryWallet in H. bind_inv H as u1 E1. bind_inv H as u2 E2.
    injection H as <-. by split.
  - unfold setExcludeFromFee in H. bind_inv H as u1 E1. bind_inv H as u2 E2.
    injection H as <-. by split.
  - unfold transferOwnership in H. bind_inv H as u1 E1.
    destruct (newOwner =? 0); [discriminate|]. injection H as <-. by split.
  - unfold renounceOwnership in H. bind_inv H as u1 E1.
    injection H as <-. by split.
Qed.

Lemma run_no_debit (a : address) (txs : list (address * Call)) (st : State) :
  Inv st -> (forall x, allowance st a x = 0) ->
  Forall (fun tx => fst tx <> a) txs ->
  balanceOf st a <= balanceOf (run txs st) a
  /\ (forall x, allowance (run txs st) a x = 0).
Proof.
  revert st. induction txs as [|[sender c] txs IH]; intros st HI Hz HF.
  - by split.
  - apply Forall_cons in HF as [Hs HF]. cbn [fst] in Hs.
    change (run ((sender, c) :: txs) st) with (run txs (exec st (sender, c))).
    assert (HS : balanceOf st a <= balanceOf (exec st (sender, c)) a
                 /\ forall x, allowance (exec st (sender, c)) a x = 0).
    { unfold exec. cbn [fst snd].
      destruct (call sender c st) as [st'|e] eqn:E; [|by split].
      by eapply call_no_debit. }
    destruct HS as (A & B).
    destruct (IH (exec st (sender, c))) as (A' & B');
      [by apply exec_Inv|exact B|exact HF|].
    split; [|exact B']. etransitivity; [exact A|exact A'].
Qed.

(** X11. Nobody can take tokens from an account that has given no
    allowance: in a reachable storage where account [a] has approved no
    spender, after any sequence of transactions sent by other accounts
    (transfers, transferFrom, burnFrom, owner settings; reverted ones
    included) the balance of [a] is at least what it was, and [a] still has
    approved nobody. *)
Theorem no_debit_without_allowance (st : State) (a : address)
  (txs : list (address * Call)) :
  reachable st ->
  (forall x, allowance st a x = 0) ->
  Forall (fun tx => fst tx <> a) txs ->
  balanceOf st a <= balanceOf (run txs st) a
  /\ (forall x, allowance (run txs st) a x = 0).
Proof.
  intros HR Hz HF. apply reachable_Inv in HR. by apply run_no_debit.
Qed.

Lemma no_debit_without_allowance_witness :
  balanceOf funded 5
  <= balanceOf (run [(6, CTransferFrom 5 6 100); (6, CBurnFrom 5 100);
                     (1, CTransfer 5 700)] funded) 5.
Proof.
  apply (no_debit_without_allowance funded 5
           [(6, CTransferFrom 5 6 100); (6, CBurnFrom 5 100);
            (1, CTransfer 5 700)] funded_reachable).
  - intros x. unfold allowance.
    change (_allowances funded) with (∅ : gmap (address * address) N).
    by rewrite lookup_empty.
  - repeat constructor; vm_compute; discriminate.
Defined.

Lemma excluded_frame (st st' : State) (a : address) :
  isExcludedFromFee st' = isExcludedFromFee st ->
  excluded st' a = excluded st a.
Proof. unfold excluded. by intros ->. Qed.

(** A transfer with an exempt party moves exactly the amount. *)
Lemma transfer_exempt (st st' : State) (from to : address) (v : N) :
  Inv st -> excluded st from || excluded st to = true -> from <> to ->
  transfer from to v st = Ok st' ->
  v <= balanceOf st from
  /\ balanceOf st' from = balanceOf st from - v
  /\ balanceOf st' to = balanceOf st to + v
  /\ (forall x, x <> from -> x <> to -> balanceOf st' x = balanceOf st x)
  /\ Inv st'
  /\ _allowances st' = _allowances st
  /\ isExcludedFromFee st' = isExcludedFromFee st.
Proof.
  intros HI Hex Hne H. apply transfer_effect in H; [|assumption].
  destruct H as (_ & _ & HI' & (HA & _ & _ & _ & _ & _ & _ & HE) & Hx).
  unfold received in Hx. rewrite Hex in Hx.
  pose proof (Hx from) as Hf. pose proof (Hx to) as Ht.
  credit_simpl Hf. credit_simpl Ht.
  split; [clear - Hf; lia|]. split; [clear - Hf; lia|].
  split; [clear - Ht; lia|].
  split; [|split; [exact HI'|split; [exact HA|exact HE]]].
  intros x Hxf Hxt. specialize (Hx x). credit_simpl Hx. clear - Hx. lia.
Qed.

Lemma transferFrom_exempt (st st' : State) (spender from to : address)
  (v : N) :
  Inv st -> excluded st from || excluded st to = true -> from <> to ->
  transferFrom spender from to v st = Ok st' ->
  v <= balanceOf st from
  /\ balanceOf st' from = balanceOf st from - v
  /\ balanceOf st' to = balanceOf st to + v
  /\ (forall x, x <> from -> x <> to -> balanceOf st' x = balanceOf st x)
  /\ Inv st'
  /\ (forall o s, o <> from -> allowance st' o s = allowance st o s)
  /\ isExcludedFromFee st' = isExcludedFromFee st.
Proof.
  intros HI Hex Hne H. unfold transferFrom in H. bind_inv H as st1 E1.
  pose proof (_spendAllowance_Inv _ _ _ _ _ E1 HI) as HI1.
  pose proof (_spendAllowance_frame _ _ _ _ _ E1)
    as (HB & _ & _ & _ & _ & _ & _ & HE).
  assert (Hex1 : excluded st1 from || excluded st1 to = true).
  { by rewrite !(excluded_frame _ _ _ HE). }
  apply (transfer_exempt st1 st' from to v HI1 Hex1 Hne) in H.
  destruct H as (A & B & C & D & E & F & G).
  rewrite (balanceOf_frame _ _ from HB) in A, B.
  rewrite (balanceOf_frame _ _ to HB) in C.
  split; [exact A|]. split; [exact B|]. split; [exact C|]. split.
  { intros x Hx1 Hx2. rewrite D by assumption. by apply balanceOf_frame. }
  split; [exact E|]. split; [|congruence].
  intros o s Ho. rewrite (allowance_frame _ _ _ _ F).
  by eapply _spendAllowance_other.
Qed.

(** An exemption goes away only through SetExcludeFromFee(a, false). *)
Lemma call_exempt (sender a : address) (c : Call) (st st' : State) :
  excluded st a = true -> c <> CSetExcludeFromFee a false ->
  call sender c st = Ok st' -> excluded st' a = true.
Proof.
  intros Hex Hc H.
  assert (HS : same_settings st st' -> excluded st' a = true).
  { intros (_ & _ & _ & _ & HE). by rewrite (excluded_frame _ _ _ HE). }
  destruct c; cbn [call] in H.
  - by apply _transfer_frame in H as (? & _); auto.
  - apply HS. by eapply _approve_settings.
  - unfold transferFrom in H. bind_inv H as st1 E1.
    apply _spendAllowance_settings in E1.
    apply _transfer_frame in H as (? & _).
    apply HS. by eapply same_settings_trans.
  - unfold burn in H. bind_inv H as st1 E1. bind_inv H as tb E2.
    injection H as <-. apply _burn_frame in E1 as (? & _). by apply HS.
  - unfold burnFrom in H. bind_inv H as st1 E1. bind_inv H as st2 E2.
    bind_inv H as tb E3. injection H as <-.
    apply _spendAllowance_settings in E1.
    apply _burn_frame in E2 as (? & _).
    apply HS. by eapply same_settings_trans.
  - unfold setBuybackWallet in H. bind_inv H as u1 E1. bind_inv H as u2 E2.
    by injection H as <-.
  - unfold setLiquidityWallet in H. bind_inv H as u1 E1. bind_inv H as u2 E2.
    by injection H as <-.
  - unfold setTreasuryWallet in H. bind_inv H as u1 E1. bind_inv H as u2 E2.
    by injection H as <-.
  - unfold setExcludeFromFee in H. bind_inv H as u1 E1. bind_inv H as u2 E2.
    injection H as <-. unfold excluded. cbn [isExcludedFromFee set_excluded].
    destruct (decide (a = account)) as [->|Hne].
    + rewrite lookup_insert_eq. destruct excl; [reflexivity|congruence].
    + by rewrite lookup_insert_ne.
  - unfold transferOwnership in H. bind_inv H as u1 E1.
    destruct (newOwner =? 0); [discriminate|]. by injection H as <-.
  - unfold renounceOwnership in H. bind_inv H as u1 E1.
    by injection H as <-.
Qed.

End ALOTokenProps.

(** ** ALOStaking: solvency and the effects of the calls *)
Module ALOStakingProps.

Import ALOStaking EvmFacts ALOStakingSpec.

Lemma same_params_refl (st : State) : same_params st st.
Proof. by repeat split. Qed.

Lemma same_params_trans (a b c : State) :
  same_params a b -> same_params b c -> same_params a c.
Proof. unfold same_params. intuition congruence. Qed.

Lemma _getTierForAmount_configs (st st' : State) (amt : N) :
  tierConfigs st' = tierConfigs st ->
  _getTierForAmount st' amt = _getTierForAmount st amt.
Proof. unfold _getTierForAmount. by intros ->. Qed.

(** What settling the rewards of [user] does. *)
Lemma _claimRewards_inv (now : N) (user : address) (st st' : State) :
  _claimRewards now user st = Ok st' ->
  0 < amount (stakeOf st user)
  /\ same_params st st'
  /\ totalStaked st' = totalStaked st
  /\ tierStakers st' = tierStakers st
  /\ tierTotalStaked st' = tierTotalStaked st
  /\ (forall u, u <> user -> stakeOf st' u = stakeOf st u)
  /\ exists r,
       calculateRewards now user st = Ok r
       /\ ((r = 0 /\ st' = st)
           \/ (0 < r
               /\ totalStaked st + r
                  <= ALOToken.balanceOf (aloToken st) (this st)
               /\ ALOToken.transfer (this st) user r (aloToken st)
                  = Ok (aloToken st')
               /\ stakeOf st' user
                  = mkStakeInfo (amount (stakeOf st user))
                      (startTime (stakeOf st user)) now
                      (tier (stakeOf st user))
                      (rewardDebt (stakeOf st user) + r))).
Proof.
  intros H. pose proof H as H0. unfold _claimRewards in H.
  bind_inv H as u Eu. apply require_Ok, N.ltb_lt in Eu.
  bind_inv H as r Er. split; [exact Eu|].
  destruct (N.ltb_spec 0 r) as [Hr|Hr].
  - clear H.
    destruct (_claimRewards_paid now user st st' r Er Hr H0)
      as (A & B & C & D & E & F & G & I & J & K).
    assert (HO : _owner st' = _owner st).
    { unfold _claimRewards in H0. bind_inv H0 as u1 E1.
      rewrite Er in H0. cbn [Evm.bind] in H0.
      destruct (N.ltb_spec 0 r) as [_|]; [|lia].
      bind_inv H0 as rd Erd. bind_inv H0 as need En. bind_inv H0 as u' Eq.
      bind_inv H0 as tok Etok. by injection H0 as <-. }
    split; [by repeat split|]. do 4 (split; [assumption|]).
    exists r. split; [exact Er|]. right. by repeat split.
  - injection H as <-. split; [apply same_params_refl|].
    do 4 (split; [reflexivity|]). exists r. split; [exact Er|].
    left. split; [lia|reflexivity].
Qed.

(** What the first branch of Stake does to a new staker's record. *)
Lemma stake_inv (sender now amt : N) (st st' : State) :
  stake sender now amt st = Ok st' ->
  0 < amt
  /\ exists st1,
       (if 0 <? amount (stakeOf st sender) then _claimRewards now sender st
        else Ok (set_stake st sender
                   (mkStakeInfo (amount (stakeOf st sender)) now now
                      (tier (stakeOf st sender))
                      (rewardDebt (stakeOf st sender))))) = Ok st1
       /\ ALOToken.transferFrom (this st1) sender (this st1) amt
            (aloToken st1) = Ok (aloToken st')
       /\ same_params st1 st'
       /\ totalStaked st' = totalStaked st1 + amt
       /\ stakeOf st' sender
          = mkStakeInfo (amount (stakeOf st1 sender) + amt)
              (startTime (stakeOf st1 sender))
              (lastClaimTime (stakeOf st1 sender))
              (_getTierForAmount st1 (amount (stakeOf st1 sender) + amt))
              (rewardDebt (stakeOf st1 sender))
       /\ (forall u, u <> sender -> stakeOf st' u = stakeOf st1 u).
Proof.
  unfold stake. intros H.
  bind_inv H as u0 E0. apply require_Ok, N.ltb_lt in E0.
  split; [exact E0|].
  bind_inv H as st1 E1. exists st1. split.
  { destruct (0 <? amount (stakeOf st sender)); [exact E1|].
    injection E1 as <-. f_equal. rewrite stakeOf_set_stake.
    unfold set_stake. cbn. by rewrite insert_insert_eq. }
  bind_inv H as tok Etok.
  change (stakeOf (set_aloToken st1 tok) sender) with (stakeOf st1 sender) in H.
  bind_inv H as a Ea. apply add_Ok in Ea as [-> _].
  rewrite !stakeOf_set_stake in H.
  set (old := stakeOf st1 sender) in *.
  set (st2 := set_aloToken st1 tok) in *.
  set (s3 := with_amount old (amount old + amt)) in *.
  set (st3 := set_stake st2 sender s3) in *.
  set (newTier := _getTierForAmount st3 (amount s3)) in *.
  set (s4 := with_tier s3 newTier) in *.
  set (st4 := set_stake st3 sender s4) in *.
  assert (HT : newTier = _getTierForAmount st1 (amount old + amt))
    by reflexivity.
  assert (S4 : stakeOf st4 sender = s4)
    by (unfold st4; apply stakeOf_set_stake).
  assert (O4 : forall u, u <> sender -> stakeOf st4 u = stakeOf st1 u).
  { intros u Hu. unfold st4, st3. rewrite !stakeOf_set_stake_ne by done.
    reflexivity. }
  assert (P4 : same_params st1 st4) by (by repeat split).
  assert (A4 : aloToken st4 = tok) by reflexivity.
  assert (T4 : totalStaked st4 = totalStaked st1) by reflexivity.
  clearbody st4 newTier.
  bind_inv H as st5 E5.
  assert (M5 : stakes st5 = stakes st4 /\ same_params st4 st5
               /\ aloToken st5 = aloToken st4
               /\ totalStaked st5 = totalStaked st4).
  { destruct (amount old =? 0).
    - bind_inv E5 as n En. injection E5 as <-. by repeat split.
    - destruct (negb (bool_decide (tier old = newTier))).
      + bind_inv E5 as n1 En1. bind_inv E5 as n2 En2. bind_inv E5 as v Ev.
        injection E5 as <-. by repeat split.
      + injection E5 as <-. by repeat split. }
  destruct M5 as (S5 & P5 & A5 & T5).
  bind_inv H as v Ev. bind_inv H as ts Ets. apply add_Ok in Ets as [-> _].
  injection H as <-.
  split; [cbn [aloToken set_totalStaked set_tierTotalStaked]; congruence|].
  split.
  { eapply same_params_trans; [exact P4|].
    eapply same_params_trans; [exact P5|]. by repeat split. }
  split; [cbn [totalStaked set_totalStaked set_tierTotalStaked]; congruence|].
  unfold stakeOf in *.
  cbn [stakes set_totalStaked set_tierTotalStaked]. rewrite S5.
  split; [|exact O4]. rewrite S4. subst s4 s3. rewrite HT. reflexivity.
Qed.

Lemma unstake_inv (sender now amt : N) (st st' : State) :
  unstake sender now amt st = Ok st' ->
  0 < amt /\ amt <= amount (stakeOf st sender)
  /\ exists st1,
       _claimRewards now sender st = Ok st1
       /\ ALOToken.transfer (this st1) sender amt (aloToken st1)
          = Ok (aloToken st')
       /\ same_params st1 st'
       /\ amt <= totalStaked st1
       /\ totalStaked st' = totalStaked st1 - amt
       /\ stakeOf st' sender
          = (if amount (stakeOf st1 sender) - amt =? 0 then zeroStake
             else mkStakeInfo (amount (stakeOf st1 sender) - amt)
                    (startTime (stakeOf st1 sender))
                    (lastClaimTime (stakeOf st1 sender))
                    (_getTierForAmount st1
                       (amount (stakeOf st1 sender) - amt))
                    (rewardDebt (stakeOf st1 sender)))
       /\ (forall u, u <> sender -> stakeOf st' u = stakeOf st1 u).
Proof.
  unfold unstake. intros H.
  bind_inv H as u0 E0. apply require_Ok, N.leb_le in E0.
  bind_inv H as u1 E0'. apply require_Ok, N.ltb_lt in E0'.
  split; [exact E0'|]. split; [exact E0|].
  bind_inv H as st1 E1. exists st1. split; [exact E1|].
  bind_inv H as a Ea. apply sub_Ok in Ea as [-> Hle].
  rewrite !stakeOf_set_stake in H.
  set (old := stakeOf st1 sender) in *.
  set (s2 := with_amount old (amount old - amt)) in *.
  set (st2 := set_stake st1 sender s2) in *.
  set (newTier := _getTierForAmount st2 (amount s2)) in *.
  assert (HT : newTier = _getTierForAmount st1 (amount old - amt))
    by reflexivity.
  assert (S2 : stakeOf st2 sender = s2)
    by (unfold st2; apply stakeOf_set_stake).
  assert (O2 : forall u, u <> sender -> stakeOf st2 u = stakeOf st1 u).
  { intros u Hu. unfold st2. by rewrite stakeOf_set_stake_ne. }
  assert (P2 : same_params st1 st2) by (by repeat split).
  assert (A2 : aloToken st2 = aloToken st1) by reflexivity.
  assert (T2 : totalStaked st2 = totalStaked st1) by reflexivity.
  assert (Hs2 : amount s2 = amount old - amt) by reflexivity.
  clearbody st2 newTier.
  bind_inv H as st5 E5.
  assert (M5 : same_params st2 st5
               /\ aloToken st5 = aloToken st2
               /\ totalStaked st5 = totalStaked st2
               /\ stakeOf st5 sender
                  = (if amount old - amt =? 0 then zeroStake
                     else with_tier s2 newTier)
               /\ (forall u, u <> sender -> stakeOf st5 u = stakeOf st2 u)).
  { rewrite Hs2 in E5.
    destruct (N.eqb_spec (amount old - amt) 0) as [Hz|Hnz].
    - bind_inv E5 as n En. injection E5 as <-.
      split; [by repeat split|]. split; [reflexivity|].
      split; [reflexivity|]. unfold stakeOf.
      cbn [stakes delete_stake set_tierStakers]. split.
      + by rewrite lookup_delete_eq.
      + intros u Hu. by rewrite lookup_delete_ne.
    - destruct (decide (tier old = newTier)) as [Heq|Hne].
      + rewrite bool_decide_eq_true_2 in E5 by done. injection E5 as <-.
        split; [apply same_params_refl|]. do 2 (split; [reflexivity|]).
        split; [|done]. rewrite S2. subst s2. rewrite <- Heq.
        by destruct old.
      + rewrite bool_decide_eq_false_2 in E5 by done. cbn [negb] in E5.
        bind_inv E5 as n1 En1. bind_inv E5 as n2 En2. bind_inv E5 as v Ev.
        injection E5 as <-.
        split; [by repeat split|]. do 2 (split; [reflexivity|]).
        split.
        * rewrite stakeOf_set_stake.
          change (stakeOf (set_tierTotalStaked ?s _ _) sender)
            with (stakeOf st2 sender).
          by rewrite S2.
        * intros u Hu. by rewrite stakeOf_set_stake_ne. }
  destruct M5 as (P5 & A5 & T5 & S5 & O5).
  bind_inv H as v Ev. bind_inv H as ts Ets. apply sub_Ok in Ets as [-> Hts].
  bind_inv H as tok Etok. injection H as <-.
  cbn [this aloToken totalStaked set_aloToken set_totalStaked
         set_tierTotalStaked] in *.
  assert (P15 : same_params st1 st5) by (by eapply same_params_trans).
  destruct P15 as (Q1 & Q2 & Q3 & Q4).
  rewrite A5, A2, Q1 in Etok. split; [exact Etok|].
  split; [by repeat split|].
  split; [congruence|]. split; [congruence|].
  change (stakeOf (set_aloToken ?s tok) ?u) with (stakeOf st5 u).
  split.
  - rewrite S5. destruct (amount old - amt =? 0); [reflexivity|].
    subst s2. rewrite HT. reflexivity.
  - intros u Hu. rewrite O5, O2 by assumption. reflexivity.
Qed.

Lemma emergencyWithdraw_inv (sender : N) (st st' : State) :
  emergencyWithdraw sender st = Ok st' ->
  0 < amount (stakeOf st sender)
  /\ ALOToken.transfer (this st) sender (amount (stakeOf st sender))
       (aloToken st) = Ok (aloToken st')
  /\ same_params st st'
  /\ amount (stakeOf st sender) <= totalStaked st
  /\ totalStaked st' = totalStaked st - amount (stakeOf st sender)
  /\ stakeOf st' sender = zeroStake
  /\ (forall u, u <> sender -> stakeOf st' u = stakeOf st u).
Proof.
  unfold emergencyWithdraw. intros H.
  bind_inv H as u0 E0. apply require_Ok, N.ltb_lt in E0.
  bind_inv H as n En. bind_inv H as v Ev.
  bind_inv H as ts Ets. apply sub_Ok in Ets as [-> Hts].
  bind_inv H as tok Etok. injection H as <-.
  cbn [this aloToken totalStaked set_aloToken delete_stake set_totalStaked
         set_tierTotalStaked set_tierStakers] in *.
  split; [exact E0|]. split; [exact Etok|]. split; [by repeat split|].
  split; [exact Hts|]. split; [reflexivity|].
  unfold stakeOf.
  cbn [stakes set_aloToken delete_stake set_totalStaked set_tierTotalStaked
         set_tierStakers].
  split.
  - by rewrite lookup_delete_eq.
  - intros u Hu. by rewrite lookup_delete_ne.
Qed.

(** Paying [v] out of the pool when [v] more than the principal is there. *)
Lemma pool_pay_out (st : State) (tok' : ALOToken.State) (user : address)
  (v keep : N) :
  pool_ok st -> user <> this st ->
  keep + v <= ALOToken.balanceOf (aloToken st) (this st) ->
  ALOToken.transfer (this st) user v (aloToken st) = Ok tok' ->
  ALOToken.Inv tok'
  /\ ALOToken.excluded tok' (this st) = true
  /\ (forall s, ALOToken.allowance tok' (this st) s = 0)
  /\ keep <= ALOToken.balanceOf tok' (this st).
Proof.
  intros (HI & Hex & Hz & _) Hu Hk H.
  apply ALOTokenProps.transfer_exempt in H;
    [|assumption|by rewrite Hex|congruence].
  destruct H as (A & B & _ & _ & I' & HA & HE).
  split; [exact I'|]. split.
  { by rewrite (ALOTokenProps.excluded_frame _ _ _ HE). }
  split.
  { intros s. by rewrite (ALOTokenProps.allowance_frame _ _ _ _ HA). }
  rewrite B. clear - Hk A. lia.
Qed.

(** Taking [v] into the pool from [user]. *)
Lemma pool_pay_in (st : State) (tok' : ALOToken.State) (user : address)
  (v : N) :
  pool_ok st -> user <> this st ->
  ALOToken.transferFrom (this st) user (this st) v (aloToken st) = Ok tok' ->
  ALOToken.Inv tok'
  /\ ALOToken.excluded tok' (this st) = true
  /\ (forall s, ALOToken.allowance tok' (this st) s = 0)
  /\ ALOToken.balanceOf tok' (this st)
     = ALOToken.balanceOf (aloToken st) (this st) + v.
Proof.
  intros (HI & Hex & Hz & _) Hu H.
  apply ALOTokenProps.transferFrom_exempt in H;
    [|assumption|by rewrite Hex, orb_true_r|assumption].
  destruct H as (_ & _ & C & _ & I' & HA & HE).
  split; [exact I'|]. split.
  { by rewrite (ALOTokenProps.excluded_frame _ _ _ HE). }
  split; [|exact C].
  intros s. rewrite HA by congruence. apply Hz.
Qed.

Lemma _claimRewards_pool (now : N) (user : address) (st st' : State) :
  pool_ok st -> user <> this st ->
  _claimRewards now user st = Ok st' -> pool_ok st'.
Proof.
  intros HP Hu H.
  apply _claimRewards_inv in H
    as (_ & (Ht & _) & HT & _ & _ & _ & r & _ & [[_ ->]|Hpaid]);
    [exact HP|].
  destruct Hpaid as (_ & Hk & Htr & _).
  destruct (pool_pay_out st _ user r (totalStaked st) HP Hu Hk Htr)
    as (A & B & C & D).
  unfold pool_ok, solvent. rewrite Ht, HT.
  split; [exact A|]. split; [exact B|]. split; [exact C|exact D].
Qed.

Lemma stake_pool (sender now amt : N) (st st' : State) :
  pool_ok st -> sender <> this st ->
  stake sender now amt st = Ok st' -> pool_ok st'.
Proof.
  intros HP Hu H.
  apply stake_inv in H as (_ & st1 & E1 & Etr & (Ht & _) & HT & _).
  assert (HP1 : pool_ok st1 /\ this st1 = this st).
  { destruct (0 <? amount (stakeOf st sender)).
    - split; [by eapply _claimRewards_pool|].
      by apply _claimRewards_inv in E1 as (_ & (? & _) & _).
    - injection E1 as <-. by split. }
  destruct HP1 as (HP1 & Ht1). rewrite <- Ht1 in Hu.
  destruct (pool_pay_in st1 _ sender amt HP1 Hu Etr) as (A & B & C & D).
  destruct HP1 as (_ & _ & _ & Hs). unfold solvent in Hs.
  unfold pool_ok, solvent. rewrite Ht, HT, D.
  split; [exact A|]. split; [exact B|]. split; [exact C|].
  clear - Hs. lia.
Qed.

Lemma unstake_pool (sender now amt : N) (st st' : State) :
  pool_ok st -> sender <> this st ->
  unstake sender now amt st = Ok st' -> pool_ok st'.
Proof.
  intros HP Hu H.
  apply unstake_inv in H
    as (_ & _ & st1 & E1 & Etr & (Ht & _) & Hle & HT & _).
  pose proof (_claimRewards_pool _ _ _ _ HP Hu E1) as HP1.
  apply _claimRewards_inv in E1 as (_ & (Ht1 & _) & _).
  rewrite <- Ht1 in Hu.
  assert (Hk : totalStaked st1 - amt + amt
               <= ALOToken.balanceOf (aloToken st1) (this st1)).
  { destruct HP1 as (_ & _ & _ & Hs). unfold solvent in Hs.
    clear - Hs Hle. lia. }
  destruct (pool_pay_out st1 _ sender amt _ HP1 Hu Hk Etr)
    as (A & B & C & D).
  unfold pool_ok, solvent. rewrite Ht, HT.
  split; [exact A|]. split; [exact B|]. split; [exact C|exact D].
Qed.

Lemma emergencyWithdraw_pool (sender : N) (st st' : State) :
  pool_ok st -> sender <> this st ->
  emergencyWithdraw sender st = Ok st' -> pool_ok st'.
Proof.
  intros HP Hu H.
  apply emergencyWithdraw_inv in H as (_ & Etr & (Ht & _) & Hle & HT & _).
  assert (Hk : totalStaked st - amount (stakeOf st sender)
               + amount (stakeOf st sender)
               <= ALOToken.balanceOf (aloToken st) (this st)).
  { destruct HP as (_ & _ & _ & Hs). unfold solvent in Hs.
    clear - Hs Hle. lia. }
  destruct (pool_pay_out st _ sender _ _ HP Hu Hk Etr) as (A & B & C & D).
  unfold pool_ok, solvent. rewrite Ht, HT.
  split; [exact A|]. split; [exact B|]. split; [exact C|exact D].
Qed.

Lemma call_pool (sender now : N) (c : Call) (st st' : State) :
  pool_ok st -> sender <> this st ->
  call sender now c st = Ok st' -> pool_ok st' /\ this st' = this st.
Proof.
  intros HP Hu H. destruct c; cbn [call] in H.
  - split; [by eapply stake_pool|].
    apply stake_inv in H as (_ & st1 & E1 & _ & (Ht & _) & _).
    rewrite Ht. destruct (0 <? amount (stakeOf st sender)).
    + by apply _claimRewards_inv in E1 as (_ & (? & _) & _).
    + by injection E1 as <-.
  - split; [by eapply unstake_pool|].
    apply unstake_inv in H as (_ & _ & st1 & E1 & _ & (Ht & _) & _).
    rewrite Ht. by apply _claimRewards_inv in E1 as (_ & (? & _) & _).
  - split; [by eapply _claimRewards_pool|].
    by apply _claimRewards_inv in H as (_ & (? & _) & _).
  - split; [by eapply emergencyWithdraw_pool|].
    by apply emergencyWithdraw_inv in H as (_ & _ & (? & _) & _).
  - unfold setRewardRate in H. bind_inv H as u E. by injection H as <-.
  - unfold setTierConfig in H. bind_inv H as u E. by injection H as <-.
  - unfold fundRewards in H. bind_inv H as u E. bind_inv H as tok Etok.
    injection H as <-.
    destruct (pool_pay_in st _ sender amt HP Hu Etok) as (A & B & C & D).
    split; [|reflexivity].
    destruct HP as (_ & _ & _ & Hs). unfold solvent in Hs.
    unfold pool_ok, solvent.
    cbn [this aloToken totalStaked set_aloToken]. rewrite D.
    split; [exact A|]. split; [exact B|]. split; [exact C|].
    clear - Hs. lia.
  - unfold transferOwnership in H. bind_inv H as u E.
    destruct (newOwner =? 0); [discriminate|]. by injection H as <-.
  - unfold renounceOwnership in H. bind_inv H as u E. by injection H as <-.
Qed.

Lemma exec_pool (st : State) (tx : Tx) :
  pool_ok st -> outside (this st) tx ->
  pool_ok (exec st tx) /\ this (exec st tx) = this st.
Proof.
  intros HP Ho. destruct tx as [sender c|sender now c]; cbn [exec outside] in *.
  - split; [|reflexivity]. destruct Ho as (Hs & Hc).
    destruct HP as (HI & Hex & Hz & Hsol). unfold solvent in Hsol.
    unfold pool_ok, solvent. cbn [this aloToken totalStaked set_aloToken].
    unfold ALOToken.exec. cbn [fst snd].
    destruct (ALOToken.call sender c (aloToken st)) as [tok'|e] eqn:E;
      [|split; [exact HI|split; [exact Hex|split; [exact Hz|exact Hsol]]]].
    pose proof (ALOTokenSpec.call_Inv _ _ _ _ E HI) as HI'.
    pose proof (ALOTokenProps.call_exempt _ _ _ _ _ Hex Hc E) as Hex'.
    destruct (ALOTokenProps.call_no_debit _ _ _ _ _ HI Hz Hs E) as (A & B).
    split; [exact HI'|]. split; [exact Hex'|]. split; [exact B|].
    etransitivity; [exact Hsol|exact A].
  - destruct (call sender now c st) as [st'|e] eqn:E; [|by split].
    by eapply call_pool.
Qed.

Lemma run_pool (txs : list Tx) (st : State) :
  pool_ok st -> Forall (outside (this st)) txs -> pool_ok (run txs st).
Proof.
  revert st. induction txs as [|tx txs IH]; intros st HP HF; [exact HP|].
  apply Forall_cons in HF as [Ho HF].
  change (run (tx :: txs) st) with (run txs (exec st tx)).
  destruct (exec_pool st tx HP Ho) as (HP' & Ht).
  apply IH; [exact HP'|]. by rewrite Ht.
Qed.

Lemma deployed_pool_ok : pool_ok (deployed REWARD_RATE).
Proof.
  unfold pool_ok, solvent. split.
  { vm_compute. repeat split; discriminate. }
  split; [vm_compute; reflexivity|]. split; [|vm_compute; discriminate].
  intros s. unfold ALOToken.allowance.
  assert (H : ALOToken._allowances (aloToken (deployed REWARD_RATE)) = ∅)
    by (vm_compute; reflexivity).
  rewrite H. by rewrite lookup_empty.
Qed.

(** X12. Solvency of the staking contract. While the contract is exempt
    from token fees and has approved no spender, the staked principal is
    covered by its token balance, and this is kept by every sequence of
    transactions (token calls and staking calls, reverted ones included)
    that are not sent by the staking contract itself and do not remove its
    fee exemption: rewards are only paid out of what exceeds totalStaked. *)
Theorem staking_solvent (st : State) (txs : list Tx) :
  pool_ok st ->
  Forall (outside (this st)) txs ->
  totalStaked (run txs st)
  <= ALOToken.balanceOf (aloToken (run txs st)) (this (run txs st)).
Proof.
  intros HP HF. by destruct (run_pool txs st HP HF) as (_ & _ & _ & H).
Qed.

Lemma staking_solvent_witness :
  totalStaked (run sample_txs (deployed REWARD_RATE)) = ether 600
  /\ totalStaked (run sample_txs (deployed REWARD_RATE))
     <= ALOToken.balanceOf (aloToken (run sample_txs (deployed REWARD_RATE)))
          (this (run sample_txs (deployed REWARD_RATE))).
Proof.
  split; [vm_compute; reflexivity|].
  apply (staking_solvent (deployed REWARD_RATE) sample_txs deployed_pool_ok).
  change (this (deployed REWARD_RATE)) with 200.
  repeat constructor; cbn; try split; discriminate.
Defined.

Lemma approved_pool_ok : pool_ok approved_1000.
Proof.
  apply (run_pool [TokenTx 5 (ALOToken.CApprove 200 (ether 1000))]
           (deployed REWARD_RATE) deployed_pool_ok).
  change (this (deployed REWARD_RATE)) with 200.
  repeat constructor; cbn; discriminate.
Qed.




(** X14. Unstake. Asking for more than is staked is rejected with
    "Insufficient staked amount", an amount of zero with "Amount must be
    greater than 0". A successful Unstake takes the amount off the caller's
    record and off totalStaked and leaves the other records alone; when
    nothing remains the record is deleted, otherwise the tier of the
    remaining amount is stored and startTime is kept. *)
Theorem unstake_spec (st : State) (sender now amt : N) :
  (amount (stakeOf st sender) < amt ->
   unstake sender now amt st = Err (Revert "Insufficient staked amount"))
  /\ unstake sender now 0 st = Err (Revert "Amount must be greater than 0")
  /\ (forall st',
        unstake sender now amt st = Ok st' ->
        0 < amt /\ amt <= amount (stakeOf st sender)
        /\ amount (stakeOf st' sender) = amount (stakeOf st sender) - amt
        /\ amt <= totalStaked st
        /\ totalStaked st' = totalStaked st - amt
        /\ (forall u, u <> sender -> stakeOf st' u = stakeOf st u)
        /\ (amt = amount (stakeOf st sender) ->
            stakeOf st' sender = zeroStake)
        /\ (amt < amount (stakeOf st sender) ->
            getUserTier sender st'
            = _getTierForAmount st' (amount (stakeOf st' sender))
            /\ startTime (stakeOf st' sender)
               = startTime (stakeOf st sender))).
Proof.
  split; [|split].
  - intros Hlt. unfold unstake.
    by destruct (N.leb_spec amt (amount (stakeOf st sender))); [lia|].
  - unfold unstake. by destruct (amount (stakeOf st sender)).
  - intros st' H.
    apply unstake_inv in H
      as (Hpos & Hle & st1 & E1 & _ & HP & HleT & HT & HS & HO).
    destruct HP as (_ & _ & _ & HC).
    apply _claimRewards_inv in E1
      as (_ & (_ & _ & _ & HC1) & HT1 & _ & _ & HO1 & r & _ & Hr).
    assert (HA : amount (stakeOf st1 sender) = amount (stakeOf st sender)
                 /\ startTime (stakeOf st1 sender)
                    = startTime (stakeOf st sender)).
    { destruct Hr as [[_ ->]|(_ & _ & _ & ->)]; by split. }
    destruct HA as (HA & HB). rewrite HA in HS.
    split; [exact Hpos|]. split; [exact Hle|]. split.
    { rewrite HS.
      by destruct (N.eqb_spec (amount (stakeOf st sender) - amt) 0). }
    split; [congruence|]. split; [congruence|]. split.
    { intros u Hu. rewrite HO, HO1 by assumption. reflexivity. }
    split.
    + intros ->. rewrite HS. by rewrite N.sub_diag.
    + intros Hlt. unfold getUserTier. rewrite HS.
      destruct (N.eqb_spec (amount (stakeOf st sender) - amt) 0) as [Hz|_];
        [clear - Hz Hlt; lia|].
      cbn [amount tier startTime].
      rewrite (_getTierForAmount_configs st1 st' _ HC).
      by split.
Qed.

Lemma unstake_spec_witness :
  unstake 5 2000 (ether 1001) staked_1000
  = Err (Revert "Insufficient staked amount")
  /\ exists st',
       unstake 5 2000 (ether 900) staked_1000 = Ok st'
       /\ amount (stakeOf st' 5) = ether 100
       /\ getUserTier 5 st' = BRONZE.
Proof.
  split.
  - apply (unstake_spec staked_1000 5 2000 (ether 1001)).
    vm_compute. reflexivity.
  - destruct (unstake 5 2000 (ether 900) staked_1000) as [st'|e] eqn:E;
      [|vm_compute in E; discriminate E].
    exists st'. split; [reflexivity|].
    destruct (unstake_spec staked_1000 5 2000 (ether 900))
      as (_ & _ & H).
    destruct (H st' E) as (_ & _ & HA & _ & _ & _ & _ & Hrest).
    destruct Hrest as (HG & _); [vm_compute; reflexivity|].
    rewrite HG, HA. vm_compute in E. injection E as <-.
    vm_compute. split; reflexivity.
Defined.



(** The value of a successful calculateRewards for a non-zero stake. *)
Lemma calculateRewards_inv (now : N) (user : address) (st : State) (r : N) :
  calculateRewards now user st = Ok r ->
  amount (stakeOf st user) <> 0 ->
  lastClaimTime (stakeOf st user) <= now
  /\ amount (stakeOf st user) * rewardRate st <= MAX_UINT256
  /\ r = amount (stakeOf st user) * rewardRate st
           * (now - lastClaimTime (stakeOf st user)) / 10 ^ 18
           * multiplier (tierConfigs st (tier (stakeOf st user))) / 10000.
Proof.
  unfold calculateRewards. intros H Ha.
  destruct (N.eqb_spec (amount (stakeOf st user)) 0) as [|_]; [congruence|].
  bind_inv H as e Ee. apply sub_Ok in Ee as [-> Hle].
  bind_inv H as p1 E1. apply mul_Ok in E1 as [-> H1].
  bind_inv H as p2 E2. apply mul_Ok in E2 as [-> H2].
  bind_inv H as b Eb. apply div_Ok in Eb as [-> _].
  bind_inv H as q Eq. apply mul_Ok in Eq as [-> H3].
  bind_inv H as r' Er. apply div_Ok in Er as [-> _].
  injection H as <-. by repeat split.
Qed.

(** X16. The pending reward never goes down as time passes: for one and the
    same storage, a later timestamp gives at least the reward of an earlier
    one. *)
Theorem rewards_grow_with_time (st : State) (user : address)
  (t1 t2 r1 r2 : N) :
  t1 <= t2 ->
  calculateRewards t1 user st = Ok r1 ->
  calculateRewards t2 user st = Ok r2 ->
  r1 <= r2.
Proof.
  intros Ht H1 H2.
  destruct (N.eq_dec (amount (stakeOf st user)) 0) as [Hz|Hnz].
  - rewrite (calculateRewards_zero t1 _ _ Hz) in H1.
    rewrite (calculateRewards_zero t2 _ _ Hz) in H2.
    injection H1 as <-. injection H2 as <-. reflexivity.
  - apply calculateRewards_inv in H1 as (L1 & _ & ->); [|assumption].
    apply calculateRewards_inv in H2 as (L2 & _ & ->); [|assumption].
    apply N.Div0.div_le_mono, N.mul_le_mono_r, N.Div0.div_le_mono,
      N.mul_le_mono_l.
    clear - Ht L1 L2. lia.
Qed.

Lemma rewards_grow_with_time_witness :
  exists r1 r2,
    calculateRewards 2000 5 staked_1000 = Ok r1
    /\ calculateRewards 87400 5 staked_1000 = Ok r2
    /\ r1 <= r2.
Proof.
  destruct (calculateRewards 2000 5 staked_1000) as [r1|e] eqn:E1;
    [|vm_compute in E1; discriminate E1].
  destruct (calculateRewards 87400 5 staked_1000) as [r2|e] eqn:E2;
    [|vm_compute in E2; discriminate E2].
  exists r1, r2. split; [reflexivity|]. split; [reflexivity|].
  apply (rewards_grow_with_time staked_1000 5 2000 87400 r1 r2);
    [vm_compute; discriminate|exact E1|exact E2].
Defined.

(** X17. Nothing is pending right after a claim: when ClaimRewards succeeds
    at some timestamp, the pending reward of the caller at that same
    timestamp is zero, and the staked amount, the tier and totalStaked are
    as before. *)
Theorem claim_settles (st st' : State) (sender now : N) :
  claimRewards sender now st = Ok st' ->
  calculateRewards now sender st' = Ok 0
  /\ amount (stakeOf st' sender) = amount (stakeOf st sender)
  /\ tier (stakeOf st' sender) = tier (stakeOf st sender)
  /\ startTime (stakeOf st' sender) = startTime (stakeOf st sender)
  /\ totalStaked st' = totalStaked st
  /\ (forall u, u <> sender -> stakeOf st' u = stakeOf st u).
Proof.
  unfold claimRewards. intros H.
  apply _claimRewards_inv in H
    as (Hpos & (_ & _ & HR & HC) & HT & _ & _ & HO & r & Er & Hr).
  destruct Hr as [[-> ->]|(Hr & _ & _ & HS)].
  - by repeat split.
  - apply calculateRewards_inv in Er as (_ & Hfit & _); [|lia].
    split; [|rewrite HS; by repeat split].
    unfold calculateRewards. rewrite HS, HR.
    cbn [amount lastClaimTime tier].
    destruct (N.eqb_spec (amount (stakeOf st sender)) 0) as [Hz|_]; [lia|].
    rewrite sub_fits by reflexivity. cbn [Evm.bind].
    rewrite mul_fits by assumption. cbn [Evm.bind].
    rewrite N.sub_diag.
    rewrite mul_fits by (rewrite N.mul_0_r; apply N.le_0_l).
    cbn [Evm.bind]. rewrite N.mul_0_r.
    unfold div at 1. change (10 ^ 18 =? 0) with false. cbn [Evm.bind].
    rewrite N.Div0.div_0_l.
    rewrite mul_fits by (rewrite N.mul_0_l; apply N.le_0_l).
    reflexivity.
Qed.

Lemma claim_settles_witness :
  exists st',
    claimRewards 5 87400 staked_1000 = Ok st'
    /\ calculateRewards 87400 5 st' = Ok 0
    /\ amount (stakeOf st' 5) = ether 1000.
Proof.
  destruct (claimRewards 5 87400 staked_1000) as [st'|e] eqn:E;
    [|vm_compute in E; discriminate E].
  exists st'. split; [reflexivity|].
  destruct (claim_settles staked_1000 st' 5 87400 E) as (H0 & HA & _).
  split; [exact H0|]. rewrite HA. vm_compute. reflexivity.
Defined.

Lemma staking_onlyOwner_other (sender : address) (st : State) :
  sender <> _owner st ->
  onlyOwner sender st = Err (CustomError "OwnableUnauthorizedAccount").
Proof.
  intros H. unfold onlyOwner. by destruct (N.eqb_spec sender (_owner st)).
Qed.

Lemma staking_onlyOwner_owner (st : State) : onlyOwner (_owner st) st = Ok tt.
Proof. unfold onlyOwner. by rewrite N.eqb_refl. Qed.

(** X18. Administration of the staking contract. SetRewardRate,
    SetTierConfig and FundRewards are rejected for every caller but the
    owner. The owner's SetRewardRate and SetTierConfig change no stake
    record and no total; in particular SetTierConfig leaves the stored tier
    of every staker as it is, whatever the new threshold. *)
Theorem staking_admin (st : State) (sender : address) :
  (sender <> _owner st ->
   (forall rate, setRewardRate sender rate st
                 = Err (CustomError "OwnableUnauthorizedAccount"))
   /\ (forall t required mult,
         setTierConfig sender t required mult st
         = Err (CustomError "OwnableUnauthorizedAccount"))
   /\ (forall amt, fundRewards sender amt st
                   = Err (CustomError "OwnableUnauthorizedAccount")))
  /\ (sender = _owner st ->
      (forall rate, exists st',
         setRewardRate sender rate st = Ok st'
         /\ rewardRate st' = rate
         /\ stakes st' = stakes st /\ totalStaked st' = totalStaked st
         /\ tierConfigs st' = tierConfigs st
         /\ aloToken st' = aloToken st)
      /\ (forall t required mult, exists st',
            setTierConfig sender t required mult st = Ok st'
            /\ tierConfigs st' t = mkTierConfig required mult
            /\ (forall t', t' <> t -> tierConfigs st' t' = tierConfigs st t')
            /\ (forall u, getUserTier u st' = getUserTier u st)
            /\ stakes st' = stakes st /\ totalStaked st' = totalStaked st
            /\ rewardRate st' = rewardRate st
            /\ aloToken st' = aloToken st)).
Proof.
  split.
  - intros Hs. unfold setRewardRate, setTierConfig, fundRewards.
    rewrite staking_onlyOwner_other by assumption. by repeat split.
  - intros ->. unfold setRewardRate, setTierConfig.
    rewrite staking_onlyOwner_owner. cbn [Evm.bind]. split.
    + intros rate. eexists. split; [reflexivity|]. by repeat split.
    + intros t required mult. eexists. split; [reflexivity|].
      cbn [tierConfigs set_tierConfig]. split.
      { by rewrite fn_lookup_insert. }
      split.
      { intros t' Ht. by rewrite fn_lookup_insert_ne. }
      by repeat split.
Qed.

Lemma staking_admin_witness :
  setRewardRate 5 0 staked_1000
  = Err (CustomError "OwnableUnauthorizedAccount")
  /\ exists st',
       setTierConfig 1 PLATINUM (ether 2000) 12500 staked_1000 = Ok st'
       /\ getUserTier 5 st' = PLATINUM
       /\ _getTierForAmount st' (amount (stakeOf st' 5)) = SILVER.
Proof.
  destruct (staking_admin staked_1000 5) as (H5 & _).
  destruct H5 as (H5 & _); [vm_compute; discriminate|].
  split; [apply H5|].
  destruct (staking_admin staked_1000 1) as (_ & H1).
  destruct H1 as (_ & H1); [vm_compute; reflexivity|].
  destruct (H1 PLATINUM (ether 2000) 12500) as (st' & E & _ & _ & HG & _).
  exists st'. split; [exact E|]. split.
  - rewrite HG. vm_compute. reflexivity.
  - vm_compute in E. injection E as <-. vm_compute. reflexivity.
Defined.

Lemma call_records (sender now : N) (c : Call) (st st' : State) :
  call sender now c st = Ok st' ->
  no_empty_records st -> no_empty_records st'.
Proof.
  intros H HR u Hu. destruct c; cbn [call] in H.
  - apply stake_inv in H as (Hpos & st1 & E1 & _ & _ & _ & HS & HO).
    destruct (decide (u = sender)) as [->|Hne].
    { rewrite HS in Hu. cbn [amount] in Hu. clear - Hu Hpos. lia. }
    rewrite HO in Hu |- * by assumption.
    destruct (0 <? amount (stakeOf st sender)).
    + apply _claimRewards_inv in E1 as (_ & _ & _ & _ & _ & HO1 & _).
      rewrite HO1 in Hu |- * by assumption. by apply HR.
    + injection E1 as <-. rewrite stakeOf_set_stake_ne in Hu |- * by done.
      by apply HR.
  - apply unstake_inv in H as (_ & _ & st1 & E1 & _ & _ & _ & _ & HS & HO).
    apply _claimRewards_inv in E1 as (_ & _ & _ & _ & _ & HO1 & _).
    destruct (decide (u = sender)) as [->|Hne].
    { rewrite HS in Hu |- *.
      destruct (N.eqb_spec (amount (stakeOf st1 sender) - amt) 0);
        [reflexivity|]. cbn [amount] in Hu. congruence. }
    rewrite HO, HO1 in Hu |- * by assumption. by apply HR.
  - apply _claimRewards_inv in H as (Hpos & _ & _ & _ & _ & HO & r & _ & Hr).
    destruct (decide (u = sender)) as [->|Hne].
    { destruct Hr as [[_ ->]|(_ & _ & _ & HS)]; [by apply HR|].
      rewrite HS in Hu. cbn [amount] in Hu. clear - Hu Hpos. lia. }
    rewrite HO in Hu |- * by assumption. by apply HR.
  - apply emergencyWithdraw_inv in H as (_ & _ & _ & _ & _ & HS & HO).
    destruct (decide (u = sender)) as [->|Hne]; [exact HS|].
    rewrite HO in Hu |- * by assumption. by apply HR.
  - unfold setRewardRate in H. bind_inv H as u0 E. injection H as <-.
    by apply HR.
  - unfold setTierConfig in H. bind_inv H as u0 E. injection H as <-.
    by apply HR.
  - unfold fundRewards in H. bind_inv H as u0 E. bind_inv H as tok Etok.
    injection H as <-. by apply HR.
  - unfold transferOwnership in H. bind_inv H as u0 E.
    destruct (newOwner =? 0); [discriminate|]. injection H as <-.
    by apply HR.
  - unfold renounceOwnership in H. bind_inv H as u0 E. injection H as <-.
    by apply HR.
Qed.

Lemma run_records (txs : list Tx) (st : State) :
  no_empty_records st -> no_empty_records (run txs st).
Proof.
  revert st. induction txs as [|tx txs IH]; intros st HR; [exact HR|].
  change (run (tx :: txs) st) with (run txs (exec st tx)). apply IH.
  destruct tx as [sender c|sender now c]; cbn [exec].
  - exact HR.
  - destruct (call sender now c st) as [st'|e] eqn:E; [|exact HR].
    by eapply call_records.
Qed.

(** X19. No stake, no record. In every storage that a deployment and any
    sequence of transactions lead to, an address whose staked amount is zero
    has the zero record: tier FREE, no start time, no claim time, no reward
    debt. In particular a full Unstake or an EmergencyWithdraw leaves
    nothing of the earlier stake behind. *)
Theorem no_stake_no_record (st : State) (user : address) :
  reachable st ->
  amount (stakeOf st user) = 0 ->
  stakeOf st user = zeroStake /\ getUserTier user st = FREE.
Proof.
  intros (sender & this_ & tokAddr & tok & rate & st0 & txs & H & ->) Hz.
  assert (HR : no_empty_records (run txs st0)).
  { apply run_records. unfold constructor in H.
    destruct (sender =? 0); [discriminate|]. bind_inv H as u E.
    injection H as <-. intros v _. unfold stakeOf. cbn [stakes].
    by rewrite lookup_empty. }
  unfold getUserTier. rewrite (HR user Hz). by split.
Qed.

Lemma no_stake_no_record_witness :
  stakeOf (run [ StakingTx 1 2500 CRenounceOwnership;
                 StakingTx 5 3000 CEmergencyWithdraw ] staked_1000) 5
  = zeroStake.
Proof.
  assert (HR : reachable
                 (run [ StakingTx 1 2500 CRenounceOwnership;
                        StakingTx 5 3000 CEmergencyWithdraw ] staked_1000)).
  { exists 1, 200, 100, ALOToken.genesis, REWARD_RATE, fresh_deployment.
    exists [ TokenTx 1 (ALOToken.CSetExcludeFromFee 200 true);
             TokenTx 1 (ALOToken.CTransfer 200 (ether 1000000));
             TokenTx 1 (ALOToken.CTransfer 5 (ether 10000));
             TokenTx 1 (ALOToken.CTransfer 6 (ether 10000));
             TokenTx 5 (ALOToken.CApprove 200 (ether 1000));
             StakingTx 5 1000 (CStake (ether 1000));
             StakingTx 1 2500 CRenounceOwnership;
             StakingTx 5 3000 CEmergencyWithdraw ].
    split; [reflexivity|]. vm_compute. reflexivity. }
  apply (no_stake_no_record _ 5 HR). vm_compute. reflexivity.
Defined.

Lemma amount_le_sum_stakes (st : State) (u : address) :
  amount (stakeOf st u) <= sum_stakes st.
Proof.
  pose proof (fold_sum_delete amount (stakes st) u) as H.
  unfold sum_stakes, stakeOf.
  destruct (stakes st !! u) as [s|]; cbn [default from_option id] in *;
    [lia|apply N.le_0_l].
Qed.

(** X20. The staking statistics that hold. In every storage that a
    deployment and any sequence of transactions lead to, totalStaked is the
    sum of the amounts of the stake records, so that no single stake
    exceeds it, and the staker counts of the five tiers sum to the number
    of addresses with a non-zero stake. *)
Theorem staking_statistics (st : State) :
  reachable st ->
  totalStaked st = sum_stakes st
  /\ (forall u, amount (stakeOf st u) <= totalStaked st)
  /\ sum_tiers (tierStakers st) = count_stakers st.
Proof.
  intros (sender & this_ & tokAddr & tok & rate & st0 & txs & H & ->).
  assert (HS : stats_ok (run txs st0)).
  { apply run_stats. unfold constructor in H.
    destruct (sender =? 0); [discriminate|]. bind_inv H as u E.
    injection H as <-. split; reflexivity. }
  destruct HS as (A & B). split; [exact A|]. split; [|exact B].
  intros u. rewrite A. apply amount_le_sum_stakes.
Qed.

Lemma staking_statistics_witness :
  totalStaked (run [StakingTx 1 2500 (CTransferOwnership 6)] two_stakes)
  = sum_stakes (run [StakingTx 1 2500 (CTransferOwnership 6)] two_stakes)
  /\ sum_tiers
       (tierStakers (run [StakingTx 1 2500 (CTransferOwnership 6)] two_stakes))
     = count_stakers
         (run [StakingTx 1 2500 (CTransferOwnership 6)] two_stakes)
  /\ _owner (run [StakingTx 1 2500 (CTransferOwnership 6)] two_stakes) = 6.
Proof.
  assert (HR : reachable
                 (run [StakingTx 1 2500 (CTransferOwnership 6)] two_stakes)).
  { exists 1, 200, 100, ALOToken.genesis, REWARD_RATE, fresh_deployment,
      (two_stakes_txs ++ [StakingTx 1 2500 (CTransferOwnership 6)]).
    split; [reflexivity|]. vm_compute. reflexivity. }
  destruct (staking_statistics _ HR) as (A & _ & B).
  split; [exact A|]. split; [exact B|]. vm_compute. reflexivity.
Defined.

End ALOStakingProps.

(** ** ALOGovernance: proposals, votes and administration *)
Module ALOGovernanceProps.

Import ALOGovernance EvmFacts ALOGovernanceSpec.

Lemma state_valid (e : Env) (pid : N) (st : State) (s : ProposalState) :
  state e pid st = Ok s -> valid st pid.
Proof.
  rewrite state_state_at. intros H. apply state_at_Ok in H. unfold valid. tauto.
Qed.

Lemma castVote_inv (e : Env) (pid : N) (sup : VoteType) (st st' : State) :
  castVote e pid sup st = Ok st' ->
  state e pid st = Ok Active
  /\ hasVoted (receiptOf (proposalOf st pid) (msg_sender e)) = false
  /\ 0 < getVotingPower e (msg_sender e)
  /\ st' = set_proposal st pid
             (voted (proposalOf st pid) (msg_sender e) sup
                (getVotingPower e (msg_sender e))).
Proof.
  unfold castVote, _castVote. intros H.
  bind_inv H as s Es. bind_inv H as u1 E1.
  apply require_Ok, bool_decide_eq_true in E1. subst s.
  bind_inv H as u2 E2. apply require_Ok, negb_true_iff in E2.
  bind_inv H as u3 E3. apply require_Ok, N.ltb_lt in E3.
  bind_inv H as p' Ep. injection H as <-.
  split; [exact Es|]. split; [exact E2|]. split; [exact E3|].
  f_equal. unfold voted.
  destruct sup; bind_inv Ep as v Ev; apply add_Ok in Ev as [-> _];
    by injection Ep as <-.
Qed.

Lemma castVote_fits (e : Env) (pid : N) (sup : VoteType) (st : State) :
  state e pid st = Ok Active ->
  hasVoted (receiptOf (proposalOf st pid) (msg_sender e)) = false ->
  0 < getVotingPower e (msg_sender e) ->
  forVotes (proposalOf st pid) + getVotingPower e (msg_sender e)
    <= MAX_UINT256 ->
  againstVotes (proposalOf st pid) + getVotingPower e (msg_sender e)
    <= MAX_UINT256 ->
  abstainVotes (proposalOf st pid) + getVotingPower e (msg_sender e)
    <= MAX_UINT256 ->
  castVote e pid sup st
  = Ok (set_proposal st pid
          (voted (proposalOf st pid) (msg_sender e) sup
             (getVotingPower e (msg_sender e)))).
Proof.
  intros Hs Hv Hw F1 F2 F3. unfold castVote, _castVote.
  rewrite Hs. cbn [Evm.bind]. rewrite bool_decide_eq_true_2 by reflexivity.
  cbn [require Evm.bind]. rewrite Hv. cbn [negb require Evm.bind].
  destruct (N.ltb_spec 0 (getVotingPower e (msg_sender e))) as [_|]; [|lia].
  cbn [require Evm.bind]. unfold voted.
  destruct sup; rewrite add_fits by assumption; reflexivity.
Qed.

Lemma cast_new (s sup : VoteType) (w : N) :
  cast s (mkReceipt true sup w) = if bool_decide (sup = s) then w else 0.
Proof. reflexivity. Qed.

Lemma cast_unvoted (s : VoteType) (p : Proposal) (voter : address) :
  hasVoted (receiptOf p voter) = false ->
  from_option (cast s) 0 (receipts p !! voter) = 0.
Proof.
  unfold receiptOf. destruct (receipts p !! voter) as [r|]; [|reflexivity].
  cbn. intros H. unfold cast. by rewrite H.
Qed.

Lemma tally_voted (s : VoteType) (p : Proposal) (voter : address)
  (sup : VoteType) (w : N) :
  hasVoted (receiptOf p voter) = false ->
  tally s (voted p voter sup w)
  = tally s p + if bool_decide (sup = s) then w else 0.
Proof.
  intros H. unfold tally.
  assert (HR : receipts (voted p voter sup w)
               = <[voter := mkReceipt true sup w]> (receipts p))
    by (by destruct sup).
  rewrite HR.
  pose proof (fold_sum_insert (cast s) (receipts p) voter
                (mkReceipt true sup w)) as HF.
  rewrite (cast_unvoted s p voter H), cast_new in HF.
  clear - HF. lia.
Qed.

Lemma tally_ok_voted (p : Proposal) (voter : address) (sup : VoteType)
  (w : N) :
  hasVoted (receiptOf p voter) = false ->
  tally_ok p -> tally_ok (voted p voter sup w).
Proof.
  intros H (A & B & C). unfold tally_ok.
  rewrite !tally_voted by assumption.
  rewrite <- A, <- B, <- C.
  destruct sup; vm_compute bool_decide; cbn [voted forVotes againstVotes
    abstainVotes with_receipt with_forVotes with_againstVotes
    with_abstainVotes]; repeat split; lia.
Qed.

Lemma same_header_refl (p : Proposal) : same_header p p.
Proof. by repeat split. Qed.

Lemma same_header_trans (a b c : Proposal) :
  same_header a b -> same_header b c -> same_header a c.
Proof. unfold same_header. intuition congruence. Qed.

Lemma same_votes_refl (p : Proposal) : same_votes p p.
Proof. by repeat split. Qed.

Lemma same_votes_trans (a b c : Proposal) :
  same_votes a b -> same_votes b c -> same_votes a c.
Proof. unfold same_votes. intuition congruence. Qed.

Lemma same_header_voted (p : Proposal) (voter : address) (sup : VoteType)
  (w : N) : same_header p (voted p voter sup w).
Proof. by destruct sup. Qed.

Lemma tally_ok_same_votes (p p' : Proposal) :
  same_votes p p' -> tally_ok p -> tally_ok p'.
Proof.
  intros (A & B & C & D). unfold tally_ok, tally. by rewrite A, B, C, D.
Qed.

(** The result of Propose. *)
Lemma propose_inv (e : Env) (t d : string) (st st' : State) (i : N) :
  propose e t d st = Ok (st', i) ->
  proposalThreshold st <= getVotingPower e (msg_sender e)
  /\ i = proposalCount st + 1
  /\ st' = set_proposal (set_proposalCount st i) i
             (with_header (proposalOf st i) i (msg_sender e) t d
                (block_number e + votingDelay st)
                (block_number e + votingDelay st + votingPeriod st)
                (ALOToken.totalSupply (aloToken e) * quorumPercentage st
                 / 100)).
Proof.
  unfold propose. intros H.
  bind_inv H as u E0. apply require_Ok, N.leb_le in E0.
  bind_inv H as n En. apply add_Ok in En as [-> _].
  bind_inv H as sb Esb. apply add_Ok in Esb as [-> _].
  bind_inv H as eb0 Eeb0. apply add_Ok in Eeb0 as [-> _].
  bind_inv H as eb Eeb. apply add_Ok in Eeb as [-> _].
  bind_inv H as q0 Eq0. apply mul_Ok in Eq0 as [-> _].
  bind_inv H as q Eq. apply div_Ok in Eq as [-> _].
  injection H as <- <-. by repeat split.
Qed.

(** What one call does to the proposal slots. *)
Lemma call_slots (e : Env) (c : Call) (st st' : State) :
  call e c st = Ok st' ->
  proposalCount st <= proposalCount st'
  /\ (forall i, valid st i ->
        same_header (proposalOf st i) (proposalOf st' i))
  /\ (forall i, tally_ok (proposalOf st i) -> tally_ok (proposalOf st' i))
  /\ (fresh_above st -> fresh_above st')
  /\ (forall i, state e i st <> Ok Active ->
        same_votes (proposalOf st i) (proposalOf st' i)).
Proof.
  intros H. destruct c; cbn [call] in H.
  - bind_inv H as r Er. injection H as <-. destruct r as [st1 i].
    apply propose_inv in Er as (_ & -> & ->). cbn [fst].
    set (i := proposalCount st + 1).
    assert (Hp : forall j, j <> i ->
              proposalOf (set_proposal (set_proposalCount st i) i
                (with_header (proposalOf st i) i (msg_sender e) title_
                   description_ (block_number e + votingDelay st)
                   (block_number e + votingDelay st + votingPeriod st)
                   (ALOToken.totalSupply (aloToken e) * quorumPercentage st
                    / 100))) j = proposalOf st j).
    { intros j Hj. by rewrite proposalOf_set_proposal_ne. }
    split; [cbn; lia|]. split.
    { intros j (Hj1 & Hj2). rewrite Hp by (unfold i; lia).
      apply same_header_refl. }
    split.
    { intros j Hj. destruct (decide (j = i)) as [->|Hne].
      - rewrite proposalOf_set_proposal.
        eapply tally_ok_same_votes; [|exact Hj]. by repeat split.
      - by rewrite Hp. }
    split.
    { intros HF j Hj. cbn in Hj. cbn [proposals set_proposal].
      rewrite lookup_insert_ne by lia. apply HF. unfold i in Hj. lia. }
    intros j _. destruct (decide (j = i)) as [->|Hne].
    + rewrite proposalOf_set_proposal. by repeat split.
    + rewrite Hp by assumption. apply same_votes_refl.
  - apply castVote_inv in H as (Hs & Hv & _ & ->).
    pose proof (state_valid _ _ _ _ Hs) as Hval.
    split; [reflexivity|]. split.
    { intros j _. destruct (decide (j = proposalId)) as [->|Hne].
      - rewrite proposalOf_set_proposal. apply same_header_voted.
      - rewrite proposalOf_set_proposal_ne by congruence.
        apply same_header_refl. }
    split.
    { intros j Hj. destruct (decide (j = proposalId)) as [->|Hne].
      - rewrite proposalOf_set_proposal. by apply tally_ok_voted.
      - by rewrite proposalOf_set_proposal_ne by congruence. }
    split.
    { intros HF j Hj. cbn in Hj. cbn [proposals set_proposal].
      destruct Hval as (_ & Hval).
      rewrite lookup_insert_ne by lia. by apply HF. }
    intros j Hj. destruct (decide (j = proposalId)) as [->|Hne];
      [congruence|].
    rewrite proposalOf_set_proposal_ne by congruence. apply same_votes_refl.
  - unfold execute in H. bind_inv H as s Es. bind_inv H as u Eu.
    injection H as <-.
    pose proof (state_valid _ _ _ _ Es) as (_ & Hval).
    split; [reflexivity|]. split.
    { intros j _. destruct (decide (j = proposalId)) as [->|Hne].
      - rewrite proposalOf_set_proposal. by repeat split.
      - rewrite proposalOf_set_proposal_ne by congruence.
        apply same_header_refl. }
    split.
    { intros j Hj. destruct (decide (j = proposalId)) as [->|Hne].
      - rewrite proposalOf_set_proposal.
        eapply tally_ok_same_votes; [|exact Hj]. by repeat split.
      - by rewrite proposalOf_set_proposal_ne by congruence. }
    split.
    { intros HF j Hj. cbn in Hj. cbn [proposals set_proposal].
      rewrite lookup_insert_ne by lia. by apply HF. }
    intros j _. destruct (decide (j = proposalId)) as [->|Hne].
    + rewrite proposalOf_set_proposal. by repeat split.
    + rewrite proposalOf_set_proposal_ne by congruence.
      apply same_votes_refl.
  - unfold cancel in H. bind_inv H as u0 E0.
    apply require_Ok, andb_true_iff in E0 as [_ Hval].
    apply N.leb_le in Hval.
    bind_inv H as u1 E1. bind_inv H as s Es. bind_inv H as u Eu.
    injection H as <-.
    split; [reflexivity|]. split.
    { intros j _. destruct (decide (j = proposalId)) as [->|Hne].
      - rewrite proposalOf_set_proposal. by repeat split.
      - rewrite proposalOf_set_proposal_ne by congruence.
        apply same_header_refl. }
    split.
    { intros j Hj. destruct (decide (j = proposalId)) as [->|Hne].
      - rewrite proposalOf_set_proposal.
        eapply tally_ok_same_votes; [|exact Hj]. by repeat split.
      - by rewrite proposalOf_set_proposal_ne by congruence. }
    split.
    { intros HF j Hj. cbn in Hj. cbn [proposals set_proposal].
      rewrite lookup_insert_ne by lia. by apply HF. }
    intros j _. destruct (decide (j = proposalId)) as [->|Hne].
    + rewrite proposalOf_set_proposal. by repeat split.
    + rewrite proposalOf_set_proposal_ne by congruence.
      apply same_votes_refl.
  - unfold setVotingParameters in H. bind_inv H as u0 E0.
    bind_inv H as u1 E1. injection H as <-.
    split; [reflexivity|]. split; [intros; apply same_header_refl|].
    split; [done|]. split; [done|]. intros; apply same_votes_refl.
  - unfold setStakingContract in H. bind_inv H as u0 E0.
    bind_inv H as u1 E1. injection H as <-.
    split; [reflexivity|]. split; [intros; apply same_header_refl|].
    split; [done|]. split; [done|]. intros; apply same_votes_refl.
  - unfold transferOwnership in H. bind_inv H as u0 E0.
    destruct (newOwner =? 0); [discriminate|]. injection H as <-.
    split; [reflexivity|]. split; [intros; apply same_header_refl|].
    split; [done|]. split; [done|]. intros; apply same_votes_refl.
  - unfold renounceOwnership in H. bind_inv H as u0 E0. injection H as <-.
    split; [reflexivity|]. split; [intros; apply same_header_refl|].
    split; [done|]. split; [done|]. intros; apply same_votes_refl.
Qed.

(** The flags of a proposal are never reset. *)
Lemma call_flags (e : Env) (c : Call) (st st' : State) (i : N) :
  call e c st = Ok st' -> valid st i ->
  (canceled (proposalOf st i) = true -> canceled (proposalOf st' i) = true)
  /\ (executed (proposalOf st i) = true ->
      executed (proposalOf st' i) = true).
Proof.
  intros H Hv. destruct c; cbn [call] in H.
  - bind_inv H as r Er. injection H as <-. destruct r as [st1 j].
    apply propose_inv in Er as (_ & -> & ->). cbn [fst].
    destruct Hv as (_ & Hv).
    rewrite proposalOf_set_proposal_ne by lia. by split.
  - apply castVote_inv in H as (_ & _ & _ & ->).
    destruct (decide (i = proposalId)) as [->|Hne].
    + rewrite proposalOf_set_proposal. by destruct support_.
    + rewrite proposalOf_set_proposal_ne by congruence. by split.
  - unfold execute in H. bind_inv H as s Es. bind_inv H as u Eu.
    injection H as <-.
    destruct (decide (i = proposalId)) as [->|Hne].
    + rewrite proposalOf_set_proposal. by split.
    + rewrite proposalOf_set_proposal_ne by congruence. by split.
  - unfold cancel in H. bind_inv H as u0 E0. bind_inv H as u1 E1.
    bind_inv H as s Es. bind_inv H as u Eu. injection H as <-.
    destruct (decide (i = proposalId)) as [->|Hne].
    + rewrite proposalOf_set_proposal. by split.
    + rewrite proposalOf_set_proposal_ne by congruence. by split.
  - unfold setVotingParameters in H. bind_inv H as u0 E0.
    bind_inv H as u1 E1. injection H as <-. by split.
  - unfold setStakingContract in H. bind_inv H as u0 E0.
    bind_inv H as u1 E1. injection H as <-. by split.
  - unfold transferOwnership in H. bind_inv H as u0 E0.
    destruct (newOwner =? 0); [discriminate|]. injection H as <-. by split.
  - unfold renounceOwnership in H. bind_inv H as u0 E0. injection H as <-.
    by split.
Qed.

Lemma exec_cases (st : State) (tx : Env * Call) :
  exec st tx = st \/ call (fst tx) (snd tx) st = Ok (exec st tx).
Proof.
  unfold exec. destruct (call tx.1 tx.2 st); [by right|by left].
Qed.

Lemma run_cons (tx : Env * Call) (txs : list (Env * Call)) (st : State) :
  run (tx :: txs) st = run txs (exec st tx).
Proof. reflexivity. Qed.

Lemma run_valid (txs : list (Env * Call)) (st : State) (i : N) :
  valid st i ->
  valid (run txs st) i
  /\ same_header (proposalOf st i) (proposalOf (run txs st) i).
Proof.
  revert st. induction txs as [|tx txs IH]; intros st Hv.
  - split; [exact Hv|apply same_header_refl].
  - rewrite run_cons.
    assert (H1 : valid (exec st tx) i
                 /\ same_header (proposalOf st i) (proposalOf (exec st tx) i)).
    { destruct (exec_cases st tx) as [->|H].
      - split; [exact Hv|apply same_header_refl].
      - apply call_slots in H as (Hc & Hh & _). split; [|by apply Hh].
        destruct Hv as (A & B). split; [exact A|]. clear - B Hc. lia. }
    destruct H1 as (Hv1 & Hh1). destruct (IH _ Hv1) as (Hv2 & Hh2).
    split; [exact Hv2|]. by eapply same_header_trans.
Qed.

Lemma run_tally (txs : list (Env * Call)) (st : State) :
  (forall i, tally_ok (proposalOf st i)) -> fresh_above st ->
  (forall i, tally_ok (proposalOf (run txs st) i))
  /\ fresh_above (run txs st).
Proof.
  revert st. induction txs as [|tx txs IH]; intros st HT HF; [by split|].
  rewrite run_cons. apply IH.
  - destruct (exec_cases st tx) as [->|H]; [exact HT|].
    apply call_slots in H as (_ & _ & Ht & _). intros i. apply Ht, HT.
  - destruct (exec_cases st tx) as [->|H]; [exact HF|].
    apply call_slots in H as (_ & _ & _ & Hf & _). by apply Hf.
Qed.

Lemma tally_empty (s : VoteType) (p : Proposal) :
  receipts p = ∅ -> tally s p = 0.
Proof. unfold tally. intros ->. apply map_fold_empty. Qed.

Lemma proposalOf_fresh (st : State) (i : N) :
  fresh_above st -> proposalCount st < i -> proposalOf st i = zeroProposal.
Proof. intros HF Hi. unfold proposalOf. by rewrite HF. Qed.

Lemma constructor_inv (sender tok staking d p t q : N) (st0 : State) :
  constructor sender tok staking d p t q = Ok st0 ->
  st0 = mkState staking sender 0 d p t q ∅
  /\ sender <> 0 /\ tok <> 0 /\ staking <> 0.
Proof.
  unfold constructor. intros H.
  destruct (N.eqb_spec sender 0) as [|Hs]; [discriminate|].
  bind_inv H as u1 E1. bind_inv H as u2 E2.
  apply require_Ok, negb_true_iff, N.eqb_neq in E1, E2.
  by injection H as <-.
Qed.

Lemma reachable_tally (st : State) :
  reachable st ->
  (forall i, tally_ok (proposalOf st i)) /\ fresh_above st.
Proof.
  intros (sender & tok & staking & d & p & t & q & st0 & txs & H & ->).
  apply constructor_inv in H as (-> & _).
  apply run_tally.
  - intros i. unfold proposalOf. cbn [proposals]. rewrite lookup_empty.
    by repeat split.
  - intros i _. apply lookup_empty.
Qed.

Lemma scenario_reachable : reachable scenario.
Proof.
  exists 1, 100, 200, 1, 10, (1000 * 10 ^ 18), 10.
  exists (mkState 200 1 0 1 10 (1000 * 10 ^ 18) 10 ∅).
  exists [ (mkEnv 1 10 scenario_token, CPropose "Fees" "Lower the fees");
           (mkEnv 5 12 scenario_token, CCastVote 1 For) ].
  split; reflexivity.
Qed.

(** X21. The tallies are the receipts. In every storage that a deployment
    and any sequence of transactions lead to, and for every proposal, the
    For, Against and Abstain tallies are the sums of the votes of the
    receipts with that support; and no proposal is stored above
    proposalCount. *)
Theorem tallies_are_receipt_sums (st : State) (proposalId : N) :
  reachable st ->
  forVotes (proposalOf st proposalId) = tally For (proposalOf st proposalId)
  /\ againstVotes (proposalOf st proposalId)
     = tally Against (proposalOf st proposalId)
  /\ abstainVotes (proposalOf st proposalId)
     = tally Abstain (proposalOf st proposalId)
  /\ (proposalCount st < proposalId ->
      proposalOf st proposalId = zeroProposal).
Proof.
  intros HR. apply reachable_tally in HR as (HT & HF).
  destruct (HT proposalId) as (A & B & C).
  do 3 (split; [assumption|]). by apply proposalOf_fresh.
Qed.

Lemma tallies_are_receipt_sums_witness :
  forVotes (proposalOf scenario 1) = tally For (proposalOf scenario 1)
  /\ tally For (proposalOf scenario 1) = 5000000 * 10 ^ 18.
Proof.
  destruct (tallies_are_receipt_sums scenario 1 scenario_reachable)
    as (H & _).
  split; [exact H|]. rewrite <- H. vm_compute. reflexivity.
Defined.

(** X22. What is written at creation stays. For a proposal that exists,
    after any sequence of transactions it still exists and its id,
    proposer, title, description, start block, end block and quorum are
    what they were: later changes of the voting parameters or of the token
    supply do not reach it. *)
Theorem proposal_header_fixed (st : State) (proposalId : N)
  (txs : list (Env * Call)) :
  0 < proposalId -> proposalId <= proposalCount st ->
  proposalId <= proposalCount (run txs st)
  /\ id (proposalOf (run txs st) proposalId) = id (proposalOf st proposalId)
  /\ proposer (proposalOf (run txs st) proposalId)
     = proposer (proposalOf st proposalId)
  /\ title (proposalOf (run txs st) proposalId)
     = title (proposalOf st proposalId)
  /\ description (proposalOf (run txs st) proposalId)
     = description (proposalOf st proposalId)
  /\ startBlock (proposalOf (run txs st) proposalId)
     = startBlock (proposalOf st proposalId)
  /\ endBlock (proposalOf (run txs st) proposalId)
     = endBlock (proposalOf st proposalId)
  /\ quorum (proposalOf (run txs st) proposalId)
     = quorum (proposalOf st proposalId).
Proof.
  intros H1 H2.
  destruct (run_valid txs st proposalId (conj H1 H2)) as ((_ & Hv) & Hh).
  split; [exact Hv|exact Hh].
Qed.

Lemma proposal_header_fixed_witness :
  quorum (proposalOf (run later_txs scenario) 1) = 10000000 * 10 ^ 18
  /\ endBlock (proposalOf (run later_txs scenario) 1) = 21.
Proof.
  assert (H1 : 0 < 1) by reflexivity.
  assert (H2 : 1 <= proposalCount scenario) by (vm_compute; discriminate).
  destruct (proposal_header_fixed scenario 1 later_txs H1 H2)
    as (_ & _ & _ & _ & _ & _ & He & Hq).
  rewrite Hq, He. vm_compute. split; reflexivity.
Defined.

Lemma spec_state_Active (b : N) (p : Proposal) :
  spec_state b p = Active <->
  canceled p = false /\ executed p = false
  /\ startBlock p < b /\ b <= endBlock p.
Proof.
  unfold spec_state, first_match. cbn.
  destruct (canceled p); cbn; [intuition discriminate|].
  destruct (executed p); cbn; [intuition discriminate|].
  destruct (N.leb_spec b (startBlock p)); cbn; [intuition (try discriminate); lia|].
  destruct (N.leb_spec b (endBlock p)); cbn; [intuition|].
  destruct ((forVotes p <=? againstVotes p) || (forVotes p <? quorum p)); cbn;
    intuition (try discriminate); lia.
Qed.

Lemma state_Active_open (e : Env) (i : N) (st : State) :
  state e i st = Ok Active ->
  ~ closed_at (proposalOf st i) (block_number e).
Proof.
  rewrite state_state_at. intros H. apply state_at_Ok in H as (_ & _ & H).
  symmetry in H. apply spec_state_Active in H as (A & B & C & D).
  unfold closed_at. rewrite A, B. intros [?|[?|[?|?]]]; try discriminate; lia.
Qed.

Lemma exec_closed (st : State) (tx : Env * Call) (i : N) (b : N) :
  valid st i ->
  closed_at (proposalOf st i) (block_number (fst tx)) ->
  same_votes (proposalOf st i) (proposalOf (exec st tx) i).
Proof.
  intros Hv Hc. destruct (exec_cases st tx) as [->|H];
    [apply same_votes_refl|].
  apply call_slots in H as (_ & _ & _ & _ & Hs). apply Hs.
  intros HA. by apply state_Active_open in HA.
Qed.

Lemma exec_keeps_closed (st : State) (tx : Env * Call) (i : N) (b : N) :
  valid st i ->
  closed_at (proposalOf st i) b -> closed_at (proposalOf (exec st tx) i) b.
Proof.
  intros Hv Hc. destruct (exec_cases st tx) as [->|H]; [exact Hc|].
  pose proof (call_flags _ _ _ _ i H Hv) as (F1 & F2).
  apply call_slots in H as (_ & Hh & _).
  destruct (Hh i Hv) as (_ & _ & _ & _ & Hs & He & _).
  unfold closed_at in *. rewrite Hs, He. tauto.
Qed.

Lemma run_closed (txs : list (Env * Call)) (st : State) (i : N) :
  valid st i ->
  Forall (fun tx => closed_at (proposalOf st i) (block_number (fst tx))) txs ->
  same_votes (proposalOf st i) (proposalOf (run txs st) i).
Proof.
  revert st. induction txs as [|tx txs IH]; intros st Hv HF;
    [apply same_votes_refl|].
  apply Forall_cons in HF as [Hc HF]. rewrite run_cons.
  eapply same_votes_trans; [by apply exec_closed|].
  apply IH.
  - by apply (run_valid [tx] st i).
  - eapply Forall_impl; [exact HF|]. intros tx' Hc'. cbn beta in *.
    by apply exec_keeps_closed.
Qed.

(** X23. Votes are counted during the voting window only. For a proposal
    that exists, no sequence of transactions sent while the proposal is
    canceled or executed, or at block heights outside its window (at or
    before the start block, after the end block), changes its tallies or
    any of its receipts. *)
Theorem votes_frozen_when_closed (st : State) (proposalId : N)
  (txs : list (Env * Call)) :
  0 < proposalId -> proposalId <= proposalCount st ->
  Forall (fun tx => closed_at (proposalOf st proposalId)
                      (block_number (fst tx))) txs ->
  forVotes (proposalOf (run txs st) proposalId)
  = forVotes (proposalOf st proposalId)
  /\ againstVotes (proposalOf (run txs st) proposalId)
     = againstVotes (proposalOf st proposalId)
  /\ abstainVotes (proposalOf (run txs st) proposalId)
     = abstainVotes (proposalOf st proposalId)
  /\ (forall voter, getReceipt proposalId voter (run txs st)
                    = getReceipt proposalId voter st).
Proof.
  intros H1 H2 HF.
  destruct (run_closed txs st proposalId (conj H1 H2) HF) as (A & B & C & D).
  do 3 (split; [assumption|]). intros voter. unfold getReceipt, receiptOf.
  by rewrite D.
Qed.

Lemma votes_frozen_when_closed_witness :
  forVotes (proposalOf
              (run [ (mkEnv 1 22 scenario_token, CCastVote 1 For);
                     (mkEnv 1 23 scenario_token, CExecute 1);
                     (mkEnv 1 24 scenario_token, CCastVote 1 Against) ]
                 scenario) 1)
  = 5000000 * 10 ^ 18.
Proof.
  assert (H1 : 0 < 1) by reflexivity.
  assert (H2 : 1 <= proposalCount scenario) by (vm_compute; discriminate).
  destruct (votes_frozen_when_closed scenario 1
              [ (mkEnv 1 22 scenario_token, CCastVote 1 For);
                (mkEnv 1 23 scenario_token, CExecute 1);
                (mkEnv 1 24 scenario_token, CCastVote 1 Against) ] H1 H2)
    as (H & _).
  - repeat constructor; unfold closed_at; do 3 right; cbn [fst block_number];
      vm_compute; reflexivity.
  - rewrite H. vm_compute. reflexivity.
Defined.

Lemma propose_fits (e : Env) (t d : string) (st : State) :
  proposalThreshold st <= getVotingPower e (msg_sender e) ->
  proposalCount st + 1 <= MAX_UINT256 ->
  block_number e + votingDelay st + votingPeriod st <= MAX_UINT256 ->
  ALOToken.totalSupply (aloToken e) * quorumPercentage st <= MAX_UINT256 ->
  is_Ok (propose e t d st).
Proof.
  intros H0 H1 H2 H3. unfold propose.
  destruct (N.leb_spec (proposalThreshold st)
              (getVotingPower e (msg_sender e))) as [_|]; [|lia].
  cbn [require Evm.bind]. rewrite add_fits by assumption. cbn [Evm.bind].
  change (votingDelay (set_proposalCount st _)) with (votingDelay st).
  change (votingPeriod (set_proposalCount st _)) with (votingPeriod st).
  change (quorumPercentage (set_proposalCount st _))
    with (quorumPercentage st).
  rewrite add_fits by (clear - H2; lia). cbn [Evm.bind].
  rewrite add_fits by assumption. cbn [Evm.bind].
  rewrite mul_fits by assumption. cbn [Evm.bind].
  unfold div. change (100 =? 0) with false. cbn [Evm.bind]. by eexists.
Qed.

(** X24. Propose. A caller whose token balance is below the proposal
    threshold is rejected. In a storage reached from a deployment, a
    successful Propose returns proposalCount + 1 and makes it the new
    proposalCount; the new proposal has the caller as proposer, the given
    title and description, startBlock = block.number + votingDelay,
    endBlock = startBlock + votingPeriod, quorum = totalSupply *
    quorumPercentage / 100 (truncated), no votes and no flags; the other
    proposals are untouched. The new proposal is Pending up to and
    including its start block, Active up to and including its end block,
    and Defeated afterwards as long as nobody votes. *)
Theorem propose_spec (e : Env) (t d : string) (st : State) :
  reachable st ->
  (getVotingPower e (msg_sender e) < proposalThreshold st ->
   propose e t d st
   = Err (Revert "Proposer votes below proposal threshold"))
  /\ (proposalThreshold st <= getVotingPower e (msg_sender e) ->
      proposalCount st + 1 <= MAX_UINT256 ->
      block_number e + votingDelay st + votingPeriod st <= MAX_UINT256 ->
      ALOToken.totalSupply (aloToken e) * quorumPercentage st
        <= MAX_UINT256 ->
      is_Ok (propose e t d st))
  /\ (forall st' i,
        propose e t d st = Ok (st', i) ->
        i = proposalCount st + 1
        /\ proposalCount st' = i
        /\ proposalOf st' i
           = mkProposal i (msg_sender e) t d
               (block_number e + votingDelay st)
               (block_number e + votingDelay st + votingPeriod st)
               0 0 0
               (ALOToken.totalSupply (aloToken e) * quorumPercentage st
                / 100)
               false false ∅
        /\ (forall j, j <> i -> proposalOf st' j = proposalOf st j)
        /\ state e i st' = Ok Pending
        /\ (forall b,
              state_at b i st'
              = Ok (if b <=? block_number e + votingDelay st then Pending
                    else if b <=? block_number e + votingDelay st
                                  + votingPeriod st then Active
                    else Defeated))).
Proof.
  intros HR. apply reachable_tally in HR as (_ & HF). split.
  - intros Hlt. unfold propose.
    by destruct (N.leb_spec (proposalThreshold st)
                   (getVotingPower e (msg_sender e))); [lia|].
  - split; [apply propose_fits|].
    intros st' i H. apply propose_inv in H as (_ & Hi & ->).
    rewrite (proposalOf_fresh st i HF) by lia.
    split; [exact Hi|]. split; [reflexivity|].
    rewrite proposalOf_set_proposal. split; [reflexivity|]. split.
    { intros j Hj. by rewrite proposalOf_set_proposal_ne. }
    assert (HS : forall b,
      state_at b i
        (set_proposal (set_proposalCount st i) i
           (with_header zeroProposal i (msg_sender e) t d
              (block_number e + votingDelay st)
              (block_number e + votingDelay st + votingPeriod st)
              (ALOToken.totalSupply (aloToken e) * quorumPercentage st
               / 100)))
      = Ok (if b <=? block_number e + votingDelay st then Pending
            else if b <=? block_number e + votingDelay st + votingPeriod st
                 then Active
            else Defeated)).
    { intros b. rewrite state_at_valid; [|lia|cbn; lia].
      rewrite proposalOf_set_proposal. unfold spec_state, first_match. cbn.
      destruct (b <=? block_number e + votingDelay st); [reflexivity|]. cbn.
      by destruct (b <=? block_number e + votingDelay st + votingPeriod st). }
    split; [|exact HS].
    rewrite state_state_at, HS.
    by destruct (N.leb_spec (block_number e)
                   (block_number e + votingDelay st)); [|lia].
Qed.

Lemma propose_spec_witness :
  exists st',
    propose (mkEnv 5 15 scenario_token) "Second" "Another proposal" scenario
    = Ok (st', 2)
    /\ startBlock (proposalOf st' 2) = 16
    /\ endBlock (proposalOf st' 2) = 26
    /\ state_at 27 2 st' = Ok Defeated.
Proof.
  destruct (propose (mkEnv 5 15 scenario_token) "Second" "Another proposal"
              scenario) as [[st' i]|err] eqn:E;
    [|vm_compute in E; discriminate E].
  destruct (propose_spec (mkEnv 5 15 scenario_token) "Second"
              "Another proposal" scenario scenario_reachable) as (_ & _ & H).
  destruct (H st' i E) as (Hi & _ & Hp & _ & _ & Hs).
  assert (i = 2) as -> by (rewrite Hi; vm_compute; reflexivity).
  exists st'. split; [reflexivity|]. rewrite Hp, (Hs 27).
  vm_compute. repeat split; reflexivity.
Defined.

Lemma state_at_set_flag (b i : N) (st : State) (p : Proposal) :
  valid st i ->
  state_at b i (set_proposal st i p) = Ok (spec_state b p).
Proof.
  intros (H1 & H2). rewrite state_at_valid; [|exact H1|exact H2].
  by rewrite proposalOf_set_proposal.
Qed.

Lemma cancel_valid (e : Env) (i : N) (st : State) :
  valid st i ->
  cancel e i st
  = (do* require ((msg_sender e =? proposer (proposalOf st i))
                  || (msg_sender e =? _owner st)) "Not authorized" in
     let* s := state e i st in
     do* require (negb (bool_decide (s = Executed)))
           "Cannot cancel executed proposal" in
     Ok (set_proposal st i (with_canceled (proposalOf st i) true))).
Proof.
  intros (H1 & H2). unfold cancel.
  destruct (N.ltb_spec 0 i) as [_|]; [|lia].
  destruct (N.leb_spec i (proposalCount st)) as [_|]; [|lia].
  reflexivity.
Qed.

(** X25. CastVote. For an id that is zero or above proposalCount it is
    rejected with "Invalid proposal". For an existing proposal it is
    rejected with "Voting is closed" unless the
    proposal is Active, and with "No voting power" when the proposal is
    Active and the caller, who has not voted, holds no tokens. When it
    succeeds, the weight is the caller's token balance at the time of the
    call and is positive; exactly the tally of the chosen support goes up by
    the weight; the caller's receipt records the support and the weight;
    the receipts of the other voters, the header and the flags of the
    proposal and all other proposals are untouched. *)
Theorem castVote_spec (e : Env) (proposalId : N) (sup : VoteType)
  (st : State) :
  (~ (0 < proposalId /\ proposalId <= proposalCount st) ->
   castVote e proposalId sup st = Err (Revert "Invalid proposal"))
  /\ (0 < proposalId -> proposalId <= proposalCount st ->
      exists s, state e proposalId st = Ok s)
  /\ (forall s, state e proposalId st = Ok s -> s <> Active ->
             castVote e proposalId sup st = Err (Revert "Voting is closed"))
  /\ (state e proposalId st = Ok Active ->
      hasVoted (getReceipt proposalId (msg_sender e) st) = false ->
      getVotingPower e (msg_sender e) = 0 ->
      castVote e proposalId sup st = Err (Revert "No voting power"))
  /\ (forall st',
        castVote e proposalId sup st = Ok st' ->
        let p := proposalOf st proposalId in
        let p' := proposalOf st' proposalId in
        let w := getVotingPower e (msg_sender e) in
        0 < w
        /\ forVotes p' = forVotes p + (if bool_decide (sup = For) then w else 0)
        /\ againstVotes p'
           = againstVotes p + (if bool_decide (sup = Against) then w else 0)
        /\ abstainVotes p'
           = abstainVotes p + (if bool_decide (sup = Abstain) then w else 0)
        /\ getReceipt proposalId (msg_sender e) st' = mkReceipt true sup w
        /\ (forall v, v <> msg_sender e ->
              getReceipt proposalId v st' = getReceipt proposalId v st)
        /\ same_header p p'
        /\ canceled p' = canceled p /\ executed p' = executed p
        /\ (forall j, j <> proposalId -> proposalOf st' j = proposalOf st j)
        /\ proposalCount st' = proposalCount st).
Proof.
  split; [|split; [|split; [|split]]].
  - intros Hn. unfold castVote, _castVote.
    by rewrite state_state_at, state_at_invalid.
  - intros H1 H2. eexists. rewrite state_state_at.
    by apply state_at_valid.
  - intros s Hs Hne. unfold castVote, _castVote. rewrite Hs. cbn [Evm.bind].
    by rewrite bool_decide_eq_false_2.
  - intros Hs Hv Hw. unfold castVote, _castVote. rewrite Hs. cbn [Evm.bind].
    rewrite bool_decide_eq_true_2 by reflexivity. cbn [require Evm.bind].
    unfold getReceipt in Hv. rewrite Hv, Hw. reflexivity.
  - intros st' H. cbv zeta.
    apply castVote_inv in H as (_ & _ & Hw & ->).
    rewrite proposalOf_set_proposal. split; [exact Hw|].
    unfold getReceipt. rewrite proposalOf_set_proposal.
    split; [destruct sup; case_bool_decide; try congruence; cbn; lia|].
    split; [destruct sup; case_bool_decide; try congruence; cbn; lia|].
    split; [destruct sup; case_bool_decide; try congruence; cbn; lia|].
    split.
    { unfold receiptOf. destruct sup; cbn [voted receipts with_receipt];
        by rewrite lookup_insert_eq. }
    split.
    { intros v Hv. unfold receiptOf.
      destruct sup; cbn [voted receipts with_receipt with_forVotes
        with_againstVotes with_abstainVotes];
        by rewrite lookup_insert_ne. }
    split; [apply same_header_voted|].
    split; [by destruct sup|]. split; [by destruct sup|].
    split; [|reflexivity].
    intros j Hj. by rewrite proposalOf_set_proposal_ne.
Qed.

Lemma castVote_spec_witness :
  castVote (mkEnv 5 12 scenario_token) 2 For scenario_proposed
  = Err (Revert "Invalid proposal")
  /\ castVote (mkEnv 5 11 scenario_token) 1 For scenario_proposed
     = Err (Revert "Voting is closed")
  /\ castVote (mkEnv 9 12 scenario_token) 1 For scenario_proposed
     = Err (Revert "No voting power")
  /\ exists st',
       castVote (mkEnv 5 12 scenario_token) 1 Abstain scenario_proposed
       = Ok st'
       /\ abstainVotes (proposalOf st' 1) = 5000000 * 10 ^ 18
       /\ forVotes (proposalOf st' 1) = 0.
Proof.
  split; [|split; [|split]].
  - destruct (castVote_spec (mkEnv 5 12 scenario_token) 2 For
                scenario_proposed) as (H & _).
    apply H. vm_compute. intros [_ Hc]. apply Hc. reflexivity.
  - destruct (castVote_spec (mkEnv 5 11 scenario_token) 1 For
                scenario_proposed) as (_ & _ & H & _).
    apply (H Pending); [vm_compute; reflexivity|discriminate].
  - destruct (castVote_spec (mkEnv 9 12 scenario_token) 1 For
                scenario_proposed) as (_ & _ & _ & H & _).
    apply H; vm_compute; reflexivity.
  - destruct (castVote (mkEnv 5 12 scenario_token) 1 Abstain
                scenario_proposed) as [st'|err] eqn:E;
      [|vm_compute in E; discriminate E].
    exists st'. split; [reflexivity|].
    destruct (castVote_spec (mkEnv 5 12 scenario_token) 1 Abstain
                scenario_proposed) as (_ & _ & _ & _ & H).
    destruct (H st' E) as (_ & HF & _ & HA & _).
    rewrite HF, HA. vm_compute. split; reflexivity.
Defined.

(** X26. Execute. Any caller may execute. For an id that is zero or above
    proposalCount the call is rejected with "Invalid proposal"; for an
    existing proposal it is rejected with "Proposal not succeeded" unless
    the proposal is Succeeded at the current block. When it succeeds the executed flag is set and nothing
    else changes; the proposal is then Executed at every block height, and
    a later Execute or Cancel of it is rejected. *)
Theorem execute_spec (e : Env) (proposalId : N) (st : State) :
  (~ (0 < proposalId /\ proposalId <= proposalCount st) ->
   execute e proposalId st = Err (Revert "Invalid proposal"))
  /\ (0 < proposalId -> proposalId <= proposalCount st ->
      exists s, state e proposalId st = Ok s)
  /\ (forall s, state e proposalId st = Ok s -> s <> Succeeded ->
             execute e proposalId st = Err (Revert "Proposal not succeeded"))
  /\ (state e proposalId st = Ok Succeeded ->
      exists st',
        execute e proposalId st = Ok st'
        /\ proposalOf st' proposalId
           = with_executed (proposalOf st proposalId) true
        /\ (forall j, j <> proposalId -> proposalOf st' j = proposalOf st j)
        /\ proposalCount st' = proposalCount st
        /\ (forall b, state_at b proposalId st' = Ok Executed)
        /\ (forall e', execute e' proposalId st'
                       = Err (Revert "Proposal not succeeded"))
        /\ (forall e', msg_sender e' = proposer (proposalOf st proposalId)
                       \/ msg_sender e' = _owner st ->
                       cancel e' proposalId st'
                       = Err (Revert "Cannot cancel executed proposal"))).
Proof.
  split; [|split; [|split]].
  - intros Hn. unfold execute.
    by rewrite state_state_at, state_at_invalid.
  - intros H1 H2. eexists. rewrite state_state_at.
    by apply state_at_valid.
  - intros s Hs Hne. unfold execute. rewrite Hs. cbn [Evm.bind].
    by rewrite bool_decide_eq_false_2.
  - intros Hs. unfold execute at 1. rewrite Hs. cbn [Evm.bind].
    rewrite bool_decide_eq_true_2 by reflexivity. cbn [require Evm.bind].
    eexists. split; [reflexivity|].
    pose proof (state_valid _ _ _ _ Hs) as Hv.
    rewrite state_state_at in Hs.
    apply state_at_Ok in Hs as (_ & _ & Hs). symmetry in Hs.
    assert (HC : canceled (proposalOf st proposalId) = false).
    { unfold spec_state, first_match in Hs. cbn in Hs.
      by destruct (canceled (proposalOf st proposalId)). }
    set (st' := set_proposal st proposalId
                  (with_executed (proposalOf st proposalId) true)).
    assert (HE : forall b, state_at b proposalId st' = Ok Executed).
    { intros b. unfold st'. rewrite state_at_set_flag by assumption.
      unfold spec_state, first_match. cbn. by rewrite HC. }
    split; [apply proposalOf_set_proposal|]. split.
    { intros j Hj. by apply proposalOf_set_proposal_ne. }
    split; [reflexivity|]. split; [exact HE|]. split.
    + intros e'. unfold execute. rewrite state_state_at, HE. reflexivity.
    + intros e' Hauth.
      assert (Hv' : valid st' proposalId) by exact Hv.
      rewrite (cancel_valid e' proposalId st' Hv').
      unfold st' at 1. rewrite proposalOf_set_proposal.
      cbn [proposer with_executed].
      change (_owner st') with (_owner st).
      assert (HA : (msg_sender e' =? proposer (proposalOf st proposalId))
                   || (msg_sender e' =? _owner st) = true).
      { apply orb_true_iff. destruct Hauth as [->| ->];
          rewrite N.eqb_refl; tauto. }
      rewrite HA. cbn [require Evm.bind].
      rewrite state_state_at, HE. reflexivity.
Qed.

Lemma execute_spec_witness :
  execute (mkEnv 6 22 scenario_token) 0 scenario
  = Err (Revert "Invalid proposal")
  /\ execute (mkEnv 6 22 scenario_token) 1 scenario
     = Err (Revert "Proposal not succeeded")
  /\ exists st',
       execute (mkEnv 6 22 scenario_token) 1 scenario_passed = Ok st'
       /\ state_at 30 1 st' = Ok Executed
       /\ cancel (mkEnv 1 23 scenario_token) 1 st'
          = Err (Revert "Cannot cancel executed proposal").
Proof.
  split; [|split].
  - destruct (execute_spec (mkEnv 6 22 scenario_token) 0 scenario) as (H & _).
    apply H. intros [Hc _]. discriminate Hc.
  - destruct (execute_spec (mkEnv 6 22 scenario_token) 1 scenario)
      as (_ & _ & H & _).
    apply (H Defeated); [vm_compute; reflexivity|discriminate].
  - destruct (execute_spec (mkEnv 6 22 scenario_token) 1 scenario_passed)
      as (_ & _ & _ & H).
    destruct H as (st' & E & _ & _ & _ & HS & _ & HC);
      [vm_compute; reflexivity|].
    exists st'. split; [exact E|]. split; [apply HS|].
    apply HC. left. vm_compute. reflexivity.
Defined.

(** X27. Cancel. An id that is zero or above proposalCount is rejected with
    "Invalid proposal"; a caller who is neither the proposer nor the owner
    with "Not authorized"; an executed proposal with "Cannot cancel executed
    proposal". Otherwise the call succeeds, in every other state of the
    proposal (Pending, Active, Succeeded, Defeated, and Canceled again): the
    canceled flag is set, nothing else changes, and the proposal is Canceled
    at every block height, so that no vote and no execution is accepted any
    more. *)
Theorem cancel_spec (e : Env) (proposalId : N) (st : State) :
  (~ (0 < proposalId /\ proposalId <= proposalCount st) ->
   cancel e proposalId st = Err (Revert "Invalid proposal"))
  /\ (0 < proposalId -> proposalId <= proposalCount st ->
      let p := proposalOf st proposalId in
      (msg_sender e <> proposer p -> msg_sender e <> _owner st ->
       cancel e proposalId st = Err (Revert "Not authorized"))
      /\ (msg_sender e = proposer p \/ msg_sender e = _owner st ->
          (state e proposalId st = Ok Executed ->
           cancel e proposalId st
           = Err (Revert "Cannot cancel executed proposal"))
          /\ (state e proposalId st <> Ok Executed ->
              exists st',
                cancel e proposalId st = Ok st'
                /\ proposalOf st' proposalId = with_canceled p true
                /\ (forall j, j <> proposalId ->
                      proposalOf st' j = proposalOf st j)
                /\ proposalCount st' = proposalCount st
                /\ (forall b, state_at b proposalId st' = Ok Canceled)
                /\ (forall e' sup,
                      castVote e' proposalId sup st'
                      = Err (Revert "Voting is closed"))
                /\ (forall e',
                      execute e' proposalId st'
                      = Err (Revert "Proposal not succeeded"))))).
Proof.
  split.
  - intros Hn. unfold cancel.
    destruct (N.ltb_spec 0 proposalId) as [H1|]; [|reflexivity].
    destruct (N.leb_spec proposalId (proposalCount st)) as [H2|];
      [|reflexivity].
    tauto.
  - intros H1 H2 p.
    assert (Hv : valid st proposalId) by (by split).
    rewrite (cancel_valid e proposalId st Hv). fold p. split.
    + intros Hp Ho.
      destruct (N.eqb_spec (msg_sender e) (proposer p)); [congruence|].
      by destruct (N.eqb_spec (msg_sender e) (_owner st)); [congruence|].
    + intros Hauth.
      assert (HA : (msg_sender e =? proposer p)
                   || (msg_sender e =? _owner st) = true).
      { apply orb_true_iff. destruct Hauth as [->| ->];
          rewrite N.eqb_refl; tauto. }
      rewrite HA. cbn [require Evm.bind].
      rewrite state_state_at.
      rewrite (state_at_valid _ _ _ H1 H2). fold p. cbn [Evm.bind].
      split.
      * intros [= ->]. reflexivity.
      * intros Hne. rewrite bool_decide_eq_false_2 by congruence.
        cbn [negb require Evm.bind]. eexists. split; [reflexivity|].
        set (st' := set_proposal st proposalId (with_canceled p true)).
        assert (HC : forall b, state_at b proposalId st' = Ok Canceled).
        { intros b. unfold st'. by rewrite state_at_set_flag. }
        split; [apply proposalOf_set_proposal|]. split.
        { intros j Hj. by apply proposalOf_set_proposal_ne. }
        split; [reflexivity|]. split; [exact HC|]. split.
        { intros e' sup. unfold castVote, _castVote.
          rewrite state_state_at, HC. reflexivity. }
        intros e'. unfold execute. rewrite state_state_at, HC. reflexivity.
Qed.

Lemma cancel_spec_witness :
  cancel (mkEnv 6 12 scenario_token) 1 scenario
  = Err (Revert "Not authorized")
  /\ exists st',
       cancel (mkEnv 1 23 scenario_token) 1 scenario = Ok st'
       /\ state_at 30 1 st' = Ok Canceled.
Proof.
  assert (H1 : 0 < 1) by reflexivity.
  assert (H2 : 1 <= proposalCount scenario) by (vm_compute; discriminate).
  split.
  - destruct (cancel_spec (mkEnv 6 12 scenario_token) 1 scenario) as (_ & H).
    destruct (H H1 H2) as (Hn & _).
    apply Hn; vm_compute; discriminate.
  - destruct (cancel_spec (mkEnv 1 23 scenario_token) 1 scenario) as (_ & H).
    destruct (H H1 H2) as (_ & Ha).
    destruct Ha as (_ & Hok); [left; vm_compute; reflexivity|].
    destruct Hok as (st' & E & _ & _ & _ & HC & _);
      [vm_compute; discriminate|].
    exists st'. split; [exact E|apply HC].
Defined.

Lemma governance_onlyOwner_other (sender : address) (st : State) :
  sender <> _owner st ->
  onlyOwner sender st = Err (CustomError "OwnableUnauthorizedAccount").
Proof.
  intros H. unfold onlyOwner. by destruct (N.eqb_spec sender (_owner st)).
Qed.

Lemma governance_onlyOwner_owner (st : State) : onlyOwner (_owner st) st = Ok tt.
Proof. unfold onlyOwner. by rewrite N.eqb_refl. Qed.

(** X28. Administration of the governance contract. SetVotingParameters and
    SetStakingContract are rejected for every caller but the owner. The
    owner's SetVotingParameters is rejected with "Invalid quorum percentage"
    above 100 and otherwise stores the four parameters; it touches no
    proposal, so the state of every existing proposal at every block height
    is what it was. The owner's SetStakingContract rejects the zero
    address. *)
Theorem governance_admin (e : Env) (st : State) :
  (msg_sender e <> _owner st ->
   (forall d p t q, setVotingParameters e d p t q st
                    = Err (CustomError "OwnableUnauthorizedAccount"))
   /\ (forall a, setStakingContract e a st
                 = Err (CustomError "OwnableUnauthorizedAccount")))
  /\ (msg_sender e = _owner st ->
      (forall d p t q, 100 < q ->
         setVotingParameters e d p t q st
         = Err (Revert "Invalid quorum percentage"))
      /\ (forall d p t q, q <= 100 ->
            exists st',
              setVotingParameters e d p t q st = Ok st'
              /\ votingDelay st' = d /\ votingPeriod st' = p
              /\ proposalThreshold st' = t /\ quorumPercentage st' = q
              /\ proposals st' = proposals st
              /\ proposalCount st' = proposalCount st
              /\ _owner st' = _owner st
              /\ (forall b i, state_at b i st' = state_at b i st))
      /\ setStakingContract e 0 st = Err (Revert "Invalid address")
      /\ (forall a, a <> 0 ->
            exists st',
              setStakingContract e a st = Ok st'
              /\ stakingContract st' = a
              /\ proposals st' = proposals st)).
Proof.
  unfold setVotingParameters, setStakingContract. split.
  - intros Hs. rewrite governance_onlyOwner_other by assumption. by split.
  - intros ->. rewrite governance_onlyOwner_owner. cbn [Evm.bind].
    split; [|split; [|split]].
    + intros d p t q Hq. by destruct (N.leb_spec q 100); [lia|].
    + intros d p t q Hq. destruct (N.leb_spec q 100) as [_|]; [|lia].
      cbn [require Evm.bind]. eexists. split; [reflexivity|].
      by repeat split.
    + reflexivity.
    + intros a Ha. destruct (N.eqb_spec a 0) as [|_]; [congruence|].
      cbn [negb require Evm.bind]. eexists. split; [reflexivity|].
      by split.
Qed.

Lemma governance_admin_witness :
  setVotingParameters (mkEnv 5 14 scenario_token) 2 20 0 5 scenario
  = Err (CustomError "OwnableUnauthorizedAccount")
  /\ setVotingParameters (mkEnv 1 14 scenario_token) 2 20 0 101 scenario
     = Err (Revert "Invalid quorum percentage")
  /\ exists st',
       setVotingParameters (mkEnv 1 14 scenario_token) 2 20 0 5 scenario
       = Ok st'
       /\ state_at 22 1 st' = Ok Defeated.
Proof.
  destruct (governance_admin (mkEnv 5 14 scenario_token) scenario)
    as (H5 & _).
  destruct H5 as (H5 & _); [vm_compute; discriminate|].
  split; [apply H5|].
  destruct (governance_admin (mkEnv 1 14 scenario_token) scenario)
    as (_ & H1).
  destruct H1 as (Hbad & Hok & _); [vm_compute; reflexivity|].
  split; [apply Hbad; vm_compute; reflexivity|].
  destruct (Hok 2 20 0 5) as (st' & E & _ & _ & _ & _ & _ & _ & _ & HS);
    [vm_compute; discriminate|].
  exists st'. split; [exact E|]. rewrite HS. vm_compute. reflexivity.
Defined.

End ALOGovernanceProps.
